(** * Saviynt Log Analyzer: the resumable ingestion pipeline of [backend.py]

    A shallow embedding of the ingestion back end ([src/backend.py]) and of
    the stand-alone record parser ([src/analyzer/log_processor.py]), with
    the properties of the pipeline proved over it.

    Layout: the Python values the code handles, the library interface
    (decoding, time parsing), the per-line parser, the database with its
    commit history, [update_summary_tables], [process_log_file],
    [generate_s3_paths], [process_job] and the control handlers, an
    executable runtime and sample folders; the handlers that read or
    delete a job, [startup_event], [get_job_metadata] of
    [analyzer/data_manager.py] and the wrappers of the S3 client; then
    the invariants and the theorems.

    What the model fixes:
    - The state is threaded explicitly: the database as the connection
      sees it, the list of committed states (a kill leaves the newest),
      the entry of [job_states] for the job at hand, the calls of
      [logger], and the pause requests the event loop will deliver.
    - SQLite accepts every statement but two: an [INSERT] with a parameter
      it cannot bind (a list or a dict taken from the JSON line) and the
      plain [INSERT] of a marker that is already there.  Lock and I/O
      errors of the store are not modelled.
    - [start_time] and [last_updated] are left out of the rows and of the
      entries of [job_states]; nothing the code decides depends on them,
      and where rows or entries are compared it is on their other fields.
    - At an [await] the event loop may run [pause_job] for the job; other
      handlers and other jobs do not interleave. *)

From Stdlib Require Import ZArith String Ascii List Bool Lia PrimFloat.
From stdpp Require Import base tactics option list gmap sets strings.
From Equations Require Import Equations.

Set Warnings "-register-all".
Local Open Scope string_scope.
Local Open Scope list_scope.
Local Open Scope Z_scope.

(** ** Python values *)

(** What [json.loads] returns: [None], [bool], [int], [float], [str],
    [list] and [dict].  A dict is kept as its items; [dict_get] reads the
    value bound to a key. *)
Inductive json : Type :=
  | JNull
  | JBool (b : bool)
  | JInt (z : Z)
  | JFloat (f : float)
  | JStr (s : string)
  | JArr (l : list json)
  | JObj (items : list (string * json)).

(** [d.get(key, default)] *)
Fixpoint dict_get (items : list (string * json)) (key : string) (default : json) : json :=
  match items with
  | [] => default
  | (k, v) :: rest => if String.eqb k key then v else dict_get rest key default
  end.

(** Truth value of an object in a condition ([if x:], [x and ...]). *)
Definition truthy (v : json) : bool :=
  match v with
  | JNull => false
  | JBool b => b
  | JInt z => negb (z =? 0)
  | JFloat f => negb (PrimFloat.eqb f 0%float)
  | JStr s => negb (String.eqb s "")
  | JArr l => match l with [] => false | _ => true end
  | JObj o => match o with [] => false | _ => true end
  end.

(** Truth value of a [str]. *)
Definition nonempty (s : string) : bool := negb (String.eqb s "").

(** [s.split('.', 1)] when ['.' in s]: the text before the first dot and
    the text after it; [None] when [s] has no dot. *)
Fixpoint split_first_dot (s : string) : option (string * string) :=
  match s with
  | EmptyString => None
  | String c rest =>
      if Ascii.eqb c "."%char then Some (EmptyString, rest)
      else match split_first_dot rest with
           | Some (a, b) => Some (String c a, b)
           | None => None
           end
  end.

(** Values the [sqlite3] module binds to a statement parameter: [None],
    [int] within 64 bits ([bool] included), [float], [str].  A [list] or a
    [dict] makes [execute] raise. *)
Definition bindable (v : json) : bool :=
  match v with
  | JNull | JBool _ | JFloat _ | JStr _ => true
  | JInt z => (- 2 ^ 63 <=? z) && (z <? 2 ^ 63)
  | JArr _ | JObj _ => false
  end.

(** ** Library and configuration interface

    [json.loads], [str.strip], [datetime.strptime], [datetime.strftime],
    [os.path] and the configured level set are not code of the
    repository; the pipeline is stated over any implementation of them.
    A [datetime] is kept as the count of microseconds since
    0001-01-01T00:00:00 of its wall-clock fields, which is what comparison
    and [timedelta] addition act on. *)
Class Runtime := {
  (** [line.strip()] *)
  strip : string -> string;
  (** [json.loads]; [None] is [json.JSONDecodeError] *)
  json_loads : string -> option json;
  (** [datetime.strptime(data, format)]; [None] is [ValueError] *)
  strptime : string -> string -> option Z;
  (** [dt.strftime(format)] *)
  strftime : Z -> string -> string;
  (** [os.path.dirname], [os.path.basename] *)
  dirname : string -> string;
  basename : string -> string;
  (** [config['app']['log_levels']] *)
  log_levels : list string;
}.

(** ** The record parser of [process_log_file] (lines 291-329) *)

Section Parser.
Context `{Runtime}.

(** [valid_levels = set(config['app']['log_levels'])] *)
Definition valid_levels : gset string := list_to_set log_levels.

(** [level = log_entry.get('level', 'UNKNOWN')] followed by
    [if level not in valid_levels: level = 'UNKNOWN'].  A [list] or a
    [dict] is unhashable, so the membership test raises [TypeError]
    ([None]). *)
Definition normalize_level (level : json) : option string :=
  match level with
  | JArr _ | JObj _ => None
  | JStr s => Some (if bool_decide (s ∈ valid_levels) then s else "UNKNOWN")
  | JNull | JBool _ | JInt _ | JFloat _ => Some "UNKNOWN"
  end.

(** The three ways the class field is handled. *)
Inductive ClassField : Type :=
  | ClassSplit (service class_name : string)  (* the [split('.', 1)] branch *)
  | ClassUnknown                              (* the [else] branch *)
  | ClassRaise.                               (* TypeError / AttributeError *)

Definition is_dot (v : json) : bool :=
  match v with JStr s => String.eqb s "." | _ => false end.

(** [if class_field and '.' in class_field:
        service, class_name = class_field.split('.', 1)
     else: class_name = service = 'Unknown']
    On a number or [True] the [in] test raises; on a list holding ["."] or a
    dict with key ["."] the test succeeds and [split] raises. *)
Definition extract_class (class_field : json) : ClassField :=
  if truthy class_field then
    match class_field with
    | JStr s =>
        match split_first_dot s with
        | Some (service, class_name) => ClassSplit service class_name
        | None => ClassUnknown
        end
    | JArr l => if existsb is_dot l then ClassRaise else ClassUnknown
    | JObj o => if existsb (fun kv => String.eqb (fst kv) ".") o then ClassRaise else ClassUnknown
    | JNull | JBool _ | JInt _ | JFloat _ => ClassRaise
    end
  else ClassUnknown.

(** The nested [try] over the three accepted formats; the first that
    parses wins. *)
Definition parse_timestamp (timestamp : string) : option Z :=
  match strptime timestamp "%Y-%m-%d %H:%M:%S,%f" with
  | Some dt => Some dt
  | None =>
      match strptime timestamp "%Y-%m-%d %H:%M:%S" with
      | Some dt => Some dt
      | None => strptime timestamp "%d/%b/%Y:%H:%M:%S %z"
      end
  end.

(** [if timestamp: ...strptime...]: [Some true] when no format parses (the
    [ValueError] is caught), [Some false] when one does or the value is
    falsy, [None] when [strptime] is given a non-string ([TypeError], not
    caught here). *)
Definition check_timestamp (timestamp : json) : option bool :=
  if truthy timestamp then
    match timestamp with
    | JStr s => Some (negb (bool_decide (is_Some (parse_timestamp s))))
    | _ => None
    end
  else Some false.

(** One element of [log_entries]. *)
Record LogEntry : Type := mkEntry {
  e_logtime : json;
  e_level : string;
  e_class : string;
  e_service : string;
  e_log : json;
}.

(** What the body of the [try] yields before the row is appended. *)
Inductive Parsed : Type :=
  | BadJSON                              (* json.JSONDecodeError *)
  | Failed (missing_class : bool)        (* any other exception *)
  | Entry (e : LogEntry) (missing_class invalid_timestamp : bool).

(** [missing_class] tells whether [missing_class_count += 1] ran, which it
    does before the timestamp is looked at. *)
Definition parse_fields (line : string) : Parsed :=
  match json_loads (strip line) with
  | None => BadJSON
  | Some (JObj log_entry) =>
      let timestamp := dict_get log_entry "logtime" (JStr "") in
      match normalize_level (dict_get log_entry "level" (JStr "UNKNOWN")) with
      | None => Failed false
      | Some level =>
          let class_field := dict_get log_entry "class" JNull in
          let log_message := dict_get log_entry "log" (JStr "") in
          match extract_class class_field with
          | ClassRaise => Failed false
          | ClassSplit service class_name =>
              match check_timestamp timestamp with
              | None => Failed false
              | Some invalid =>
                  Entry (mkEntry timestamp level class_name service log_message) false invalid
              end
          | ClassUnknown =>
              match check_timestamp timestamp with
              | None => Failed true
              | Some invalid =>
                  Entry (mkEntry timestamp level "Unknown" "Unknown" log_message) true invalid
              end
          end
      end
  | Some _ => Failed false              (* no [.get] on a non-dict *)
  end.

(** ** [LogProcessor.parse_log_line] ([analyzer/log_processor.py]) *)

(** The dict it returns. *)
Record ParsedLine : Type := mkParsedLine {
  p_logtime : json;
  p_level : json;
  p_class : string;
  p_service : string;
  p_log : json;
}.

(** [None] is the [return None] of both [except] clauses. *)
Definition parse_log_line (log_line : string) : option ParsedLine :=
  match json_loads (strip log_line) with
  | None => None
  | Some (JObj log_entry) =>
      let timestamp := dict_get log_entry "logtime" (JStr "") in
      let level := dict_get log_entry "level" (JStr "UNKNOWN") in
      let class_field := dict_get log_entry "class" JNull in
      let log_message := dict_get log_entry "log" (JStr "") in
      match extract_class class_field with
      | ClassRaise => None
      | ClassSplit service class_name =>
          match check_timestamp timestamp with
          | None => None
          | Some invalid =>
              Some (mkParsedLine (if invalid then JStr "" else timestamp)
                                 level class_name service log_message)
          end
      | ClassUnknown =>
          match check_timestamp timestamp with
          | None => None
          | Some invalid =>
              Some (mkParsedLine (if invalid then JStr "" else timestamp)
                                 level "Unknown" "Unknown" log_message)
          end
      end
  | Some _ => None
  end.

End Parser.

(** ** The database ([analyzer/data_manager.py], [init_db]) *)

Inductive Status : Type := RUNNING | PAUSED | ERROR | COMPLETED.

#[global] Instance Status_eq_dec : EqDecision Status.
Proof. solve_decision. Defined.

(** A row of [jobs], without its two time columns: no branch of the code
    reads [start_time] or [last_updated], and no statement below is about
    them. *)
Record JobRow : Type := mkJobRow {
  j_folder_path : string;
  j_status : Status;
  j_files_processed : nat;
  j_total_files : nat;
  j_current_file : string;
}.

(** A row of [logs] (the autoincrement [id] is the position in the list). *)
Record LogRow : Type := mkRow {
  r_job_id : string;
  r_timestamp : json;
  r_level : string;
  r_class : string;
  r_service : string;
  r_log_message : json;
  r_folder : string;
  r_file_name : string;
  r_line_idx : nat;
}.

(** Key of a summary table, [(job_id, a, b)], and of [job_metadata],
    [(job_id, type, value)]. *)
Abbreviation Key := (string * string * string)%type.

Record DB : Type := mkDB {
  jobs : gmap string JobRow;                 (* PRIMARY KEY job_id *)
  logs : list LogRow;
  job_metadata : gset Key;                   (* UNIQUE(job_id, type, value) *)
  class_level_counts : gmap Key Z;           (* PRIMARY KEY (job_id, class, level) *)
  service_level_counts : gmap Key Z;
  timeline_counts : gmap Key Z;
  class_service_counts : gmap Key Z;
}.

Definition set_jobs (f : gmap string JobRow -> gmap string JobRow) (d : DB) : DB :=
  mkDB (f (jobs d)) (logs d) (job_metadata d) (class_level_counts d)
       (service_level_counts d) (timeline_counts d) (class_service_counts d).

Definition set_logs (f : list LogRow -> list LogRow) (d : DB) : DB :=
  mkDB (jobs d) (f (logs d)) (job_metadata d) (class_level_counts d)
       (service_level_counts d) (timeline_counts d) (class_service_counts d).

Definition set_job_metadata (f : gset Key -> gset Key) (d : DB) : DB :=
  mkDB (jobs d) (logs d) (f (job_metadata d)) (class_level_counts d)
       (service_level_counts d) (timeline_counts d) (class_service_counts d).

(** [INSERT INTO t (..., count) VALUES (..., c)
     ON CONFLICT(...) DO UPDATE SET count = count + c] *)
Definition upsert_count (t : gmap Key Z) (kc : Key * Z) : gmap Key Z :=
  match t !! kc.1 with
  | None => <[kc.1 := kc.2]> t
  | Some count => <[kc.1 := count + kc.2]> t
  end.

(** [for key, count in batch.items(): cursor.execute(upsert)] *)
Definition upsert_all (t : gmap Key Z) (items : list (Key * Z)) : gmap Key Z :=
  fold_left upsert_count items t.

(** [UPDATE jobs SET ... WHERE job_id = ?] *)
Definition update_job (job_id : string) (f : JobRow -> JobRow) (d : DB) : DB :=
  set_jobs (alter f job_id) d.

(** [SELECT value FROM job_metadata WHERE job_id = ? AND type = 'processed_file'],
    as the set the caller builds from it. *)
Definition ledger (job_id : string) (d : DB) : gset string :=
  set_omap (fun k : Key =>
              if decide (k.1.1 = job_id /\ k.1.2 = "processed_file") then Some k.2 else None)
           (job_metadata d).

(** ** The process: connection, in-memory job state, log file *)

(** [job_states[job_id]] of the job the task runs for ([start_job] and
    [startup_event] create the entry before any task is spawned).  Of the
    keys of the entry, [job_id] is the key it is stored under,
    [current_file] is written when the entry is made and never again, and
    [start_time] and [last_updated] are left out as in the rows. *)
Record JobState : Type := mkJobState {
  m_folder_path : string;
  m_status : Status;
  m_files_processed : nat;
  m_total_files : nat;
}.

(** Calls of [logger] that the properties mention. *)
Inductive LogEvent : Type :=
  | WarnInvalidJSON (file_path : string) (line_idx : nat)
  | ErrorLine (file_path : string) (line_idx : nat)
  | ErrorFile (file_path : string)
  | InfoProcessed (file_path job_id : string) (missing_class invalid_timestamps : nat)
  | DebugSkippedTimestamps (n : nat) (job_id : string)
  | ErrorSummary (job_id : string)
  | InfoPaused (job_id file_path : string)
  | ErrorJob (job_id : string)
  | ErrorInvalidSource (name : string)
  | WarnNoFiles.

(** [db] is the database as the connection sees it (uncommitted writes
    included); [durable] lists the committed states, newest first, so a
    kill leaves the head of [durable].  [requests] is what the event loop
    delivers at the coming [await asyncio.sleep(0)] points: [true] for a
    call of [pause_job] on this job. *)
Record State : Type := mkState {
  db : DB;
  durable : list DB;
  mem : JobState;
  logger : list LogEvent;
  requests : list bool;
}.

Definition with_db (f : DB -> DB) (st : State) : State :=
  mkState (f (db st)) (durable st) (mem st) (logger st) (requests st).

Definition with_mem (f : JobState -> JobState) (st : State) : State :=
  mkState (db st) (durable st) (f (mem st)) (logger st) (requests st).

Definition log_event (e : LogEvent) (st : State) : State :=
  mkState (db st) (durable st) (mem st) (logger st ++ [e]) (requests st).

(** [conn.commit()] *)
Definition commit (st : State) : State :=
  mkState (db st) (db st :: durable st) (mem st) (logger st) (requests st).

Definition set_status (s : Status) (m : JobState) : JobState :=
  mkJobState (m_folder_path m) s (m_files_processed m) (m_total_files m).

Definition set_row_status (s : Status) (r : JobRow) : JobRow :=
  mkJobRow (j_folder_path r) s (j_files_processed r) (j_total_files r) (j_current_file r).

(** ** [pause_job] *)

(** The handler, for a registered job: refused (HTTP 400) unless the job
    is [RUNNING]; otherwise the in-memory status becomes [PAUSED] and the
    handler's own connection writes and commits the [jobs] row. *)
Definition pause_job (job_id : string) (st : State) : State * bool :=
  if decide (m_status (mem st) = RUNNING) then
    (commit (with_db (update_job job_id (set_row_status PAUSED))
                     (with_mem (set_status PAUSED) st)), true)
  else (st, false).

(** [await asyncio.sleep(0)]: the event loop runs what is pending. *)
Definition yield_point (job_id : string) (st : State) : State :=
  match requests st with
  | [] => st
  | r :: rest =>
      let st' := mkState (db st) (durable st) (mem st) (logger st) rest in
      if r then fst (pause_job job_id st') else st'
  end.

(** ** [update_summary_tables] *)

(** [d[key] = d.get(key, 0) + 1] on a dict kept as its items, in
    insertion order. *)
Fixpoint dict_incr (key : Key) (d : list (Key * Z)) : list (Key * Z) :=
  match d with
  | [] => [(key, 1)]
  | (k, v) :: rest =>
      if decide (k = key) then (k, v + 1) :: rest else (k, v) :: dict_incr key rest
  end.

(** The four dicts and the counter the first loop builds. *)
Record Batches : Type := mkBatches {
  class_level_batch : list (Key * Z);
  service_level_batch : list (Key * Z);
  timeline_batch : list (Key * Z);
  class_service_batch : list (Key * Z);
  b_invalid_timestamp_count : nat;
}.

Definition empty_batches : Batches := mkBatches [] [] [] [] 0.

Section Pipeline.
Context `{Runtime}.

(** The [if timestamp and level:] block: the hour key to count, [Some None]
    when no format parses (counted as invalid) or the guard is false, and
    [None] when [strptime] raises [TypeError], which the inner [except
    ValueError] does not catch. *)
Inductive HourKey : Type :=
  | HourOf (hour : string)
  | HourInvalid
  | HourSkipped
  | HourTypeError.

Definition hour_key (timestamp : json) (level : string) : HourKey :=
  if truthy timestamp && nonempty level then
    match timestamp with
    | JStr s =>
        match parse_timestamp s with
        | Some dt => HourOf (strftime dt "%Y-%m-%d %H:00:00")
        | None => HourInvalid
        end
    | _ => HourTypeError
    end
  else HourSkipped.

(** One turn of [for log_entry in batch]. *)
Definition tally_entry (job_id : string) (b : Batches) (e : LogEntry) : option Batches :=
  let level := e_level e in
  let class_name := e_class e in
  let service := e_service e in
  let timestamp := e_logtime e in
  let cl := if nonempty class_name && nonempty level
            then dict_incr (job_id, class_name, level) (class_level_batch b)
            else class_level_batch b in
  let sl := if nonempty service && nonempty level
            then dict_incr (job_id, service, level) (service_level_batch b)
            else service_level_batch b in
  let cs := if nonempty class_name && nonempty service
            then dict_incr (job_id, class_name, service) (class_service_batch b)
            else class_service_batch b in
  match hour_key timestamp level with
  | HourTypeError => None
  | HourOf hour =>
      Some (mkBatches cl sl (dict_incr (job_id, hour, level) (timeline_batch b)) cs
                      (b_invalid_timestamp_count b))
  | HourInvalid =>
      Some (mkBatches cl sl (timeline_batch b) cs (S (b_invalid_timestamp_count b)))
  | HourSkipped =>
      Some (mkBatches cl sl (timeline_batch b) cs (b_invalid_timestamp_count b))
  end.

Fixpoint tally (job_id : string) (b : Batches) (batch : list LogEntry) : option Batches :=
  match batch with
  | [] => Some b
  | e :: rest =>
      match tally_entry job_id b e with
      | None => None
      | Some b' => tally job_id b' rest
      end
  end.

(** The four upsert loops. *)
Definition apply_batches (b : Batches) (d : DB) : DB :=
  mkDB (jobs d) (logs d) (job_metadata d)
       (upsert_all (class_level_counts d) (class_level_batch b))
       (upsert_all (service_level_counts d) (service_level_batch b))
       (upsert_all (timeline_counts d) (timeline_batch b))
       (upsert_all (class_service_counts d) (class_service_batch b)).

(** The whole function.  An exception of the first loop is caught by the
    outer [except Exception], logged, and nothing is written or committed. *)
Definition update_summary_tables (job_id : string) (batch : list LogEntry) (st : State) : State :=
  match tally job_id empty_batches batch with
  | None => log_event (ErrorSummary job_id) st
  | Some b =>
      let st1 := commit (with_db (apply_batches b) st) in
      if (0 <? b_invalid_timestamp_count b)%nat
      then log_event (DebugSkippedTimestamps (b_invalid_timestamp_count b) job_id) st1
      else st1
  end.

(** ** [process_log_file] *)

Definition batch_size : nat := 500.

(** The locals that live across the loop. *)
Record Locals : Type := mkLocals {
  log_batch : list LogRow;
  log_entries : list LogEntry;
  classes : gset string;
  services : gset string;
  missing_class_count : nat;
  invalid_timestamp_count : nat;
}.

Definition init_locals : Locals := mkLocals [] [] ∅ ∅ 0 0.

Definition bump_missing (b : bool) (loc : Locals) : Locals :=
  mkLocals (log_batch loc) (log_entries loc) (classes loc) (services loc)
           (if b then S (missing_class_count loc) else missing_class_count loc)
           (invalid_timestamp_count loc).

Definition row_of (job_id folder file_name : string) (line_idx : nat) (e : LogEntry) : LogRow :=
  mkRow job_id (e_logtime e) (e_level e) (e_class e) (e_service e) (e_log e)
        folder file_name line_idx.

(** The appends of lines 320-329, with the two counters. *)
Definition append_entry (row : LogRow) (e : LogEntry) (missing invalid : bool)
    (loc : Locals) : Locals :=
  mkLocals (log_batch loc ++ [row]) (log_entries loc ++ [e])
           ({[e_class e]} ∪ classes loc) ({[e_service e]} ∪ services loc)
           (if missing then S (missing_class_count loc) else missing_class_count loc)
           (if invalid then S (invalid_timestamp_count loc) else invalid_timestamp_count loc).

(** [log_batch = []; log_entries = []; classes.clear(); services.clear()] *)
Definition clear_batch (loc : Locals) : Locals :=
  mkLocals [] [] ∅ ∅ (missing_class_count loc) (invalid_timestamp_count loc).

Definition bindable_row (r : LogRow) : bool :=
  bindable (r_timestamp r) && bindable (r_log_message r).

(** [conn.executemany('INSERT INTO logs ...', log_batch)]: the rows go in
    one by one; a row with a parameter that cannot be bound raises, with
    the rows before it already written to the open transaction. *)
Fixpoint executemany_logs (rows : list LogRow) (d : DB) : DB * bool :=
  match rows with
  | [] => (d, true)
  | r :: rest =>
      if bindable_row r then executemany_logs rest (set_logs (fun l => l ++ [r]) d)
      else (d, false)
  end.

(** [INSERT OR IGNORE INTO job_metadata] for each class and service seen. *)
Definition insert_names (job_id : string) (cs ss : gset string) (d : DB) : DB :=
  set_job_metadata
    (fun md => md ∪ set_map (fun c : string => (job_id, "class", c)) cs
                  ∪ set_map (fun s : string => (job_id, "service", s)) ss) d.

(** The flush of a batch (lines 332-349 and 361-378) up to its commit;
    [false] when [executemany] raised. *)
Definition flush_batch (job_id : string) (loc : Locals) (st : State) : State * bool :=
  let '(d1, ok) := executemany_logs (log_batch loc) (db st) in
  let st1 := with_db (fun _ => d1) st in
  if ok then
    let st2 := update_summary_tables job_id (log_entries loc) st1 in
    (commit (with_db (insert_names job_id (classes loc) (services loc)) st2), true)
  else (st1, false).

(** The body of [for line_idx, line in enumerate(lines)]. *)
Definition line_body (file_path job_id folder file_name : string)
    (line_idx : nat) (line : string) (ls : Locals * State) : Locals * State :=
  let '(loc, st) := ls in
  match parse_fields line with
  | BadJSON => (loc, log_event (WarnInvalidJSON file_path line_idx) st)
  | Failed missing => (bump_missing missing loc, log_event (ErrorLine file_path line_idx) st)
  | Entry e missing invalid =>
      let loc1 := append_entry (row_of job_id folder file_name line_idx e) e missing invalid loc in
      if (batch_size <=? length (log_batch loc1))%nat then
        let '(st1, ok) := flush_batch job_id loc1 st in
        if ok then (clear_batch loc1, yield_point job_id st1)
        else (loc1, log_event (ErrorLine file_path line_idx) st1)
      else (loc1, st)
  end.

Fixpoint for_lines (file_path job_id folder file_name : string)
    (line_idx : nat) (lines : list string) (ls : Locals * State) : Locals * State :=
  match lines with
  | [] => ls
  | line :: rest =>
      for_lines file_path job_id folder file_name (S line_idx) rest
                (line_body file_path job_id folder file_name line_idx line ls)
  end.

(** The marker of a processed file in [job_metadata]. *)
Definition marker (job_id file_path : string) : Key := (job_id, "processed_file", file_path).

(** [source] is what the reader ([gzip.open] or the S3 generator) gives:
    the lines it yields and whether it then raises instead of ending.  The
    result is [false] when the function raises.  The plain [INSERT] of the
    marker raises on a marker that is already there (the UNIQUE
    constraint). *)
Definition process_log_file (file_path job_id : string) (source : list string * bool)
    (st : State) : State * bool :=
  let folder := dirname file_path in
  let file_name := basename file_path in
  let '(loc, st1) := for_lines file_path job_id folder file_name 0 (fst source) (init_locals, st) in
  if snd source then (log_event (ErrorFile file_path) st1, false)
  else
    let '(st2, ok) :=
      match log_batch loc with
      | [] => (st1, true)
      | _ :: _ => flush_batch job_id loc st1
      end in
    if ok then
      if decide (marker job_id file_path ∈ job_metadata (db st2))
      then (log_event (ErrorFile file_path) st2, false)
      else
        let st3 := commit (with_db (set_job_metadata (fun md => md ∪ {[marker job_id file_path]})) st2) in
        (log_event (InfoProcessed file_path job_id (missing_class_count loc)
                                  (invalid_timestamp_count loc)) st3, true)
    else (log_event (ErrorFile file_path) st2, false).

End Pipeline.

(** ** [generate_s3_paths] *)

(** One hour, and [datetime.max], in microseconds. *)
Definition hour_us : Z := 3600000000.
Definition datetime_max : Z := 3652059 * 86400 * 1000000 - 1.

Inductive PathsResult : Type :=
  | Paths (paths : list string)
  | HTTP400                       (* raised from [except ValueError] *)
  | HTTP500.                      (* raised from [except Exception] *)

Section Paths.
Context `{Runtime}.

(** [folder_name = current_dt.strftime('%Y%m%d-%H')];
    [s3_path = f"{customer_folder}/{folder_name}/"] *)
Definition s3_path (customer_folder : string) (current_dt : Z) : string :=
  customer_folder +:+ "/" +:+ strftime current_dt "%Y%m%d-%H" +:+ "/".

(** [while current_dt <= end_dt: paths.append(...); current_dt += timedelta(hours=1)].
    The addition raises [OverflowError] past [datetime.max] ([None]). *)
Equations? while_hours (customer_folder : string) (end_dt current_dt : Z)
    (paths : list string) : option (list string)
    by wf (Z.to_nat ((end_dt - current_dt) / hour_us + 1)) lt :=
  while_hours customer_folder end_dt current_dt paths with decide (current_dt <= end_dt) => {
    | right _ => Some paths
    | left _ with decide (current_dt + hour_us <= datetime_max) => {
        | left _ => while_hours customer_folder end_dt (current_dt + hour_us)
                                (paths ++ [s3_path customer_folder current_dt])
        | right _ => None } }.
Proof.
  assert (Hd : (end_dt - (current_dt + hour_us)) / hour_us = (end_dt - current_dt) / hour_us - 1).
  { replace (end_dt - (current_dt + hour_us)) with (end_dt - current_dt + (-1) * hour_us) by lia.
    rewrite Z.div_add by (unfold hour_us; lia). lia. }
  assert (0 <= (end_dt - current_dt) / hour_us)
    by (apply Z.div_pos; unfold hour_us; lia).
  lia.
Qed.

Definition generate_s3_paths (customer_folder start_datetime end_datetime : string)
    : PathsResult :=
  match strptime start_datetime "%Y%m%d-%H" with
  | None => HTTP400
  | Some start_dt =>
      match strptime end_datetime "%Y%m%d-%H" with
      | None => HTTP400
      | Some end_dt =>
          if decide (start_dt > end_dt) then HTTP400
          else match while_hours customer_folder end_dt start_dt [] with
               | Some paths => Paths paths
               | None => HTTP500
               end
      end
  end.

End Paths.

(** ** [process_job] *)

(** What the file system and the bucket answer.  [validate_customer_folder]
    and [list_s3_files] are [None] when they raise; a reader gives the
    lines it yields and whether it then raises. *)
Class Storage := {
  isdir : string -> bool;
  (** the [os.walk] loop: the [.gz] files under a folder, in walk order *)
  walk_gz : string -> list string;
  validate_customer_folder : string -> option bool;
  list_s3_files : string -> string -> option (list string);
  gzip_open : string -> list string * bool;
  stream_s3_log_file : string -> string -> list string * bool;
}.

Definition bucket_name : string := "k8-customer-logs".

(** [str(x)] of an optional string in an f-string. *)
Definition py_str (o : option string) : string :=
  match o with Some s => s | None => "None" end.

(** Truth value of an optional string. *)
Definition given (o : option string) : bool :=
  match o with Some s => nonempty s | None => false end.

(** [s.replace(old, "")] for a non-empty [old]. *)
Fixpoint remove_all (old : string) (skip : nat) (s : string) : string :=
  match s with
  | EmptyString => EmptyString
  | String c rest =>
      match skip with
      | S k => remove_all old k rest
      | O => if String.prefix old s then remove_all old (String.length old - 1) rest
             else String c (remove_all old O rest)
      end
  end.

Inductive Enumerated : Type :=
  | InvalidSource (name : string)
  | EnumRaised
  | Files (log_files : list string) (folder_path_display : string) (is_bucket : bool).

Inductive LoopExit : Type := LoopDone | LoopPaused | LoopRaised.

Definition set_row_counters (s : Status) (total processed : nat) (r : JobRow) : JobRow :=
  mkJobRow (j_folder_path r) s processed total (j_current_file r).

Section Job.
Context `{Runtime} `{Storage}.

(** The listing loop of the bucket branch: a prefix whose listing raises is
    skipped. *)
Definition list_bucket (s3_paths : list string) : list string :=
  flat_map (fun p => match list_s3_files bucket_name p with
                     | Some files => map (fun f => "s3://" +:+ bucket_name +:+ "/" +:+ f) files
                     | None => []
                     end) s3_paths.

(** Lines 406-458. *)
Definition enumerate_files (folder_path customer_folder start_datetime end_datetime : option string)
    : Enumerated :=
  if given folder_path then
    let folder := py_str folder_path in
    if isdir folder then Files (walk_gz folder) folder false
    else InvalidSource folder
  else
    match validate_customer_folder (py_str customer_folder) with
    | None => EnumRaised
    | Some false => InvalidSource (py_str customer_folder)
    | Some true =>
        match start_datetime, end_datetime with
        | Some s, Some e =>
            match generate_s3_paths (py_str customer_folder) s e with
            | Paths s3_paths =>
                Files (list_bucket s3_paths)
                      ("s3://" +:+ bucket_name +:+ "/" +:+ py_str customer_folder) true
            | HTTP400 | HTTP500 => EnumRaised
            end
        | _, _ => EnumRaised          (* [strptime(None, ...)] *)
        end
    end.

(** The reader of a file; [None] is the [NameError] on [bucket_name], which
    only the bucket branch binds. *)
Definition open_source (is_bucket : bool) (file_path : string) : option (list string * bool) :=
  if String.prefix "s3://" file_path then
    if is_bucket then
      Some (stream_s3_log_file bucket_name
              (remove_all ("s3://" +:+ bucket_name +:+ "/") O file_path))
    else None
  else Some (gzip_open file_path).

(** Lines 493-523: [LoopPaused] is the [return] of the pause check,
    [LoopRaised] an exception on its way to the handler. *)
Fixpoint process_files (job_id : string) (is_bucket : bool) (processed_files : gset string)
    (log_files : list string) (st : State) : State * LoopExit :=
  match log_files with
  | [] => (st, LoopDone)
  | file_path :: rest =>
      if decide (file_path ∈ processed_files)
      then process_files job_id is_bucket processed_files rest st
      else if decide (m_status (mem st) = PAUSED) then
        (commit (with_db (update_job job_id
                   (fun r => mkJobRow (j_folder_path r) PAUSED (m_files_processed (mem st))
                                      (j_total_files r) (j_current_file r)))
                   (log_event (InfoPaused job_id file_path) st)), LoopPaused)
      else
        match open_source is_bucket file_path with
        | None => (st, LoopRaised)
        | Some source =>
            let '(st1, ok) := process_log_file file_path job_id source st in
            if ok then
              let st2 := with_mem (fun m => mkJobState (m_folder_path m) (m_status m)
                                              (S (m_files_processed m)) (m_total_files m)) st1 in
              let st3 := commit (with_db (update_job job_id
                           (fun r => mkJobRow (j_folder_path r) (j_status r)
                                              (m_files_processed (mem st2)) (j_total_files r)
                                              (basename file_path))) st2) in
              process_files job_id is_bucket processed_files rest st3
            else (st1, LoopRaised)
        end
  end.

(** The [except Exception] handler of lines 536-546. *)
Definition job_failed (job_id : string) (st : State) : State :=
  let st1 := with_mem (set_status ERROR) (log_event (ErrorJob job_id) st) in
  commit (with_db (update_job job_id
            (set_row_counters ERROR (m_total_files (mem st1)) (m_files_processed (mem st1)))) st1).

(** The task.  The result is [false] when an exception leaves it.  In the
    invalid-source branch the [HTTPException] is raised after
    [conn.close()], so the handler's own [conn.execute] raises and writes
    nothing. *)
Definition process_job (job_id : string)
    (folder_path customer_folder start_datetime end_datetime : option string)
    (st : State) : State * bool :=
  match enumerate_files folder_path customer_folder start_datetime end_datetime with
  | InvalidSource name =>
      let st1 := commit (with_db (update_job job_id (set_row_counters ERROR 0 0))
                                 (log_event (ErrorInvalidSource name) st)) in
      let st2 := with_mem (fun m => mkJobState (m_folder_path m) ERROR 0 0) st1 in
      (with_mem (set_status ERROR) (log_event (ErrorJob job_id) st2), false)
  | EnumRaised => (job_failed job_id st, false)
  | Files log_files folder_path_display is_bucket =>
      let total_files := length log_files in
      if (total_files =? 0)%nat then
        let st1 := commit (with_db (update_job job_id (set_row_counters COMPLETED 0 0))
                                   (log_event WarnNoFiles st)) in
        (with_mem (fun m => mkJobState (m_folder_path m) COMPLETED 0 0) st1, true)
      else
        let processed_files := ledger job_id (db st) in
        let files_processed := size processed_files in
        let st1 := commit (with_db (update_job job_id
                             (set_row_counters RUNNING total_files files_processed)) st) in
        let st2 := with_mem (fun m => mkJobState folder_path_display (m_status m)
                                        files_processed total_files) st1 in
        match process_files job_id is_bucket processed_files log_files st2 with
        | (st3, LoopPaused) => (st3, true)
        | (st3, LoopRaised) => (job_failed job_id st3, false)
        | (st3, LoopDone) =>
            let st4 := with_mem (set_status COMPLETED) st3 in
            (commit (with_db (update_job job_id
                       (set_row_counters COMPLETED total_files (m_files_processed (mem st4)))) st4),
             true)
        end
  end.

End Job.

(** ** The control handlers [start_job] and [resume_job], and a restart *)

Record StartJobRequest : Type := mkRequest {
  req_folder_path : option string;
  req_customer_folder : option string;
  req_start_datetime : option string;
  req_end_datetime : option string;
}.

(** The arguments of a [process_job] handed to [asyncio.create_task]. *)
Record Task : Type := mkTask {
  t_job_id : string;
  t_folder_path : option string;
  t_customer_folder : option string;
  t_start_datetime : option string;
  t_end_datetime : option string;
}.

Inductive Response : Type :=
  | OK
  | HTTPError (code : nat).

(** [s.split("/")[-1]] *)
Fixpoint last_segment (s : string) : string :=
  match s with
  | EmptyString => EmptyString
  | String c rest =>
      if Ascii.eqb c "/"%char then last_segment rest
      else if existsb (Ascii.eqb "/"%char) (list_ascii_of_string rest) then last_segment rest
      else s
  end.

Section Handlers.
Context `{Runtime}.

(** [start_job]: [start_time] is the clock reading the job id is built
    from.  On success the state has the new [job_states] entry, the [jobs]
    row and, for a bucket job, the two time-range rows of [job_metadata],
    all committed; the task is returned. *)
Definition start_job (request : StartJobRequest) (start_time : string) (st : State)
    : State * Response * option Task :=
  let local := given (req_folder_path request)
               && negb (given (req_customer_folder request) || given (req_start_datetime request)
                        || given (req_end_datetime request)) in
  let bucket := given (req_customer_folder request) && given (req_start_datetime request)
                && given (req_end_datetime request) in
  let run (job_id folder_path_display : string) :=
    let st1 := with_mem (fun _ => mkJobState folder_path_display RUNNING 0 0) st in
    match jobs (db st1) !! job_id with
    | Some _ => (with_mem (set_status ERROR) st1, HTTPError 500, None)   (* PRIMARY KEY *)
    | None =>
        let st2 := with_db (set_jobs (insert job_id
                     (mkJobRow folder_path_display RUNNING 0 0 ""))) st1 in
        let st3 := if bucket then
                     with_db (set_job_metadata (fun md =>
                        md ∪ {[(job_id, "start_datetime", py_str (req_start_datetime request))]}
                           ∪ {[(job_id, "end_datetime", py_str (req_end_datetime request))]})) st2
                   else st2 in
        (commit st3, OK,
         Some (mkTask job_id (req_folder_path request) (req_customer_folder request)
                      (req_start_datetime request) (req_end_datetime request)))
    end in
  if local then
    let folder_path := py_str (req_folder_path request) in
    run (last_segment folder_path +:+ "_" +:+ start_time) folder_path
  else if bucket then
    match strptime (py_str (req_start_datetime request)) "%Y%m%d-%H",
          strptime (py_str (req_end_datetime request)) "%Y%m%d-%H" with
    | Some _, Some _ =>
        run (py_str (req_customer_folder request) +:+ "_" +:+ start_time)
            ("s3://k8-customer-logs/" +:+ py_str (req_customer_folder request))
    | _, _ => (st, HTTPError 400, None)
    end
  else (st, HTTPError 400, None).

(** [resume_job], for a registered job.  The in-memory status is set to
    [RUNNING] first; every [HTTPException] raised inside the [try] is
    caught by its [except Exception] and raised again with code 500. *)
Definition resume_job (job_id : string) (st : State) : State * Response * option Task :=
  if decide (m_status (mem st) = PAUSED) then
    let st1 := with_mem (set_status RUNNING) st in
    match jobs (db st1) !! job_id with
    | None => (st1, HTTPError 500, None)
    | Some row =>
        let folder_path := j_folder_path row in
        if String.prefix "s3://k8-customer-logs/" folder_path then
          (st1, HTTPError 500, None)
        else
          let st2 := commit (with_db (update_job job_id (set_row_status RUNNING)) st1) in
          (st2, OK,
           Some (mkTask job_id
                   (if String.prefix "s3://" folder_path then None else Some folder_path)
                   None None None))
    end
  else (st, HTTPError 400, None).

(** Running a task of the event loop. *)
Definition run_task `{Storage} (t : Task) (st : State) : State * bool :=
  process_job (t_job_id t) (t_folder_path t) (t_customer_folder t)
              (t_start_datetime t) (t_end_datetime t) st.

End Handlers.

(** The process after a kill and a new start ([startup_event]): the
    database is the last committed one and [job_states] is read back from
    the [jobs] row. *)
Definition restart (job_id : string) (d : DB) (reqs : list bool) : option State :=
  match jobs d !! job_id with
  | Some row =>
      Some (mkState d [d]
              (mkJobState (j_folder_path row) (j_status row) (j_files_processed row)
                          (j_total_files row))
              [] reqs)
  | None => None
  end.

(** A new process on the database a kill left, with the job set running
    again and no request pending. *)
Definition rerun (job_id : string) (d : DB) : option State :=
  with_mem (set_status RUNNING) <$> restart job_id d [].

(** The empty database and a process that has just started on it. *)
Definition empty_db : DB := mkDB ∅ [] ∅ ∅ ∅ ∅ ∅.

Definition boot : State := mkState empty_db [empty_db] (mkJobState "" RUNNING 0 0) [] [].

(** ** An executable runtime

    An implementation of the library interface, for running the pipeline
    on concrete lines: a decoder for JSON objects, arrays, strings,
    integers and the three literals, and [strptime]/[strftime] for
    fixed-width fields over the proleptic Gregorian calendar (the ordinal
    arithmetic of [datetime]). *)
Module Py.

Definition is_space (c : ascii) : bool :=
  existsb (Ascii.eqb c) [" "; "009"; "010"; "013"; "011"; "012"]%char.

Fixpoint lstrip (s : list ascii) : list ascii :=
  match s with
  | c :: rest => if is_space c then lstrip rest else s
  | [] => []
  end.

Definition strip (s : string) : string :=
  string_of_list_ascii (rev (lstrip (rev (lstrip (list_ascii_of_string s))))).

Definition digit_of (c : ascii) : option Z :=
  let n := Z.of_nat (nat_of_ascii c) in
  if (48 <=? n) && (n <=? 57) then Some (n - 48) else None.

(** The digits at the head of [s], as a number, with what follows them. *)
Fixpoint read_digits (s : list ascii) (acc : Z) (seen : bool) : option (Z * list ascii) :=
  match s with
  | c :: rest =>
      match digit_of c with
      | Some d => read_digits rest (10 * acc + d) true
      | None => if seen then Some (acc, s) else None
      end
  | [] => if seen then Some (acc, []) else None
  end.

(** The body of a string literal, after the opening quote. *)
Fixpoint read_string (s : list ascii) (acc : list ascii) : option (string * list ascii) :=
  match s with
  | [] => None
  | c :: rest =>
      if Ascii.eqb c "034"%char then Some (string_of_list_ascii (rev acc), rest)
      else if Ascii.eqb c "\"%char then
        match rest with
        | e :: rest' =>
            let put x := read_string rest' (x :: acc) in
            if Ascii.eqb e "n"%char then put "010"%char
            else if Ascii.eqb e "t"%char then put "009"%char
            else if Ascii.eqb e "r"%char then put "013"%char
            else if Ascii.eqb e "034"%char then put "034"%char
            else if Ascii.eqb e "\"%char then put "\"%char
            else if Ascii.eqb e "/"%char then put "/"%char
            else None
        | [] => None
        end
      else read_string rest (c :: acc)
  end.

Definition literal (word : string) (v : json) (s : list ascii) : option (json * list ascii) :=
  let w := list_ascii_of_string word in
  if bool_decide (take (length w) s = w) then Some (v, drop (length w) s) else None.

Fixpoint read_value (fuel : nat) (s : list ascii) : option (json * list ascii) :=
  match fuel with
  | O => None
  | S fuel =>
      let read_items :=
        fix read_items (n : nat) (s : list ascii) (acc : list json)
            : option (json * list ascii) :=
          match n with
          | O => None
          | S n =>
              match read_value fuel s with
              | Some (v, rest) =>
                  match lstrip rest with
                  | c :: rest' =>
                      if Ascii.eqb c ","%char then read_items n rest' (v :: acc)
                      else if Ascii.eqb c "]"%char then Some (JArr (rev (v :: acc)), rest')
                      else None
                  | [] => None
                  end
              | None => None
              end
          end in
      let read_members :=
        fix read_members (n : nat) (s : list ascii) (acc : list (string * json))
            : option (json * list ascii) :=
          match n with
          | O => None
          | S n =>
              match lstrip s with
              | q :: s1 =>
                  if Ascii.eqb q "034"%char then
                    match read_string s1 [] with
                    | Some (k, s2) =>
                        match lstrip s2 with
                        | c :: s3 =>
                            if Ascii.eqb c ":"%char then
                              match read_value fuel s3 with
                              | Some (v, s4) =>
                                  match lstrip s4 with
                                  | d :: s5 =>
                                      if Ascii.eqb d ","%char
                                      then read_members n s5 ((k, v) :: acc)
                                      else if Ascii.eqb d "}"%char
                                      then Some (JObj ((k, v) :: acc), s5)
                                      else None
                                  | [] => None
                                  end
                              | None => None
                              end
                            else None
                        | [] => None
                        end
                    | None => None
                    end
                  else None
              | [] => None
              end
          end in
      match lstrip s with
      | [] => None
      | c :: rest =>
          if Ascii.eqb c "{"%char then
            match lstrip rest with
            | d :: rest' => if Ascii.eqb d "}"%char then Some (JObj [], rest')
                            else read_members (length s) rest []
            | [] => None
            end
          else if Ascii.eqb c "["%char then
            match lstrip rest with
            | d :: rest' => if Ascii.eqb d "]"%char then Some (JArr [], rest')
                            else read_items (length s) rest []
            | [] => None
            end
          else if Ascii.eqb c "034"%char then
            match read_string rest [] with
            | Some (str, rest') => Some (JStr str, rest')
            | None => None
            end
          else if Ascii.eqb c "-"%char then
            match read_digits rest 0 false with
            | Some (n, rest') => Some (JInt (- n), rest')
            | None => None
            end
          else if Ascii.eqb c "t"%char then literal "true" (JBool true) (c :: rest)
          else if Ascii.eqb c "f"%char then literal "false" (JBool false) (c :: rest)
          else if Ascii.eqb c "n"%char then literal "null" JNull (c :: rest)
          else
            match read_digits (c :: rest) 0 false with
            | Some (n, rest') => Some (JInt n, rest')
            | None => None
            end
      end
  end.

(** A later binding of a key is listed before an earlier one, so a lookup
    finds the one [json.loads] keeps. *)
Definition json_loads (s : string) : option json :=
  let l := list_ascii_of_string s in
  match read_value (S (length l)) l with
  | Some (v, rest) => match lstrip rest with [] => Some v | _ => None end
  | None => None
  end.

(** Calendar: [_days_before_year], [_days_in_month], [_ymd2ord]. *)
Definition is_leap (y : Z) : bool :=
  (y mod 4 =? 0) && (negb (y mod 100 =? 0) || (y mod 400 =? 0)).

Definition days_before_year (y : Z) : Z :=
  (y - 1) * 365 + (y - 1) / 4 - (y - 1) / 100 + (y - 1) / 400.

Definition days_in_month (y m : Z) : Z :=
  if m =? 2 then (if is_leap y then 29 else 28)
  else if (m =? 4) || (m =? 6) || (m =? 9) || (m =? 11) then 30 else 31.

Fixpoint days_before_month (y : Z) (m : nat) : Z :=
  match m with
  | O => 0
  | S k => match k with
           | O => 0
           | _ => days_before_month y k + days_in_month y (Z.of_nat k)
           end
  end.

Definition ymd2ord (y m d : Z) : Z :=
  days_before_year y + days_before_month y (Z.to_nat m) + d.

(** The fields [strptime] collects. *)
Record Fields : Type := mkFields {
  f_year : Z; f_month : Z; f_day : Z; f_hour : Z; f_minute : Z; f_second : Z; f_micro : Z;
}.

Definition fields_ok (f : Fields) : bool :=
  (1 <=? f_year f) && (f_year f <=? 9999) && (1 <=? f_month f) && (f_month f <=? 12)
  && (1 <=? f_day f) && (f_day f <=? days_in_month (f_year f) (f_month f))
  && (f_hour f <=? 23) && (f_minute f <=? 59) && (f_second f <=? 61).

Definition micros_of (f : Fields) : Z :=
  ((((ymd2ord (f_year f) (f_month f) (f_day f) - 1) * 24 + f_hour f) * 60 + f_minute f) * 60
   + f_second f) * 1000000 + f_micro f.

(** [n] digits exactly. *)
Definition fixed_digits (n : nat) (s : list ascii) : option (Z * list ascii) :=
  match read_digits (take n s) 0 false with
  | Some (v, []) => if (length (take n s) =? n)%nat then Some (v, drop n s) else None
  | _ => None
  end.

Definition month_names : list string :=
  ["Jan"; "Feb"; "Mar"; "Apr"; "May"; "Jun"; "Jul"; "Aug"; "Sep"; "Oct"; "Nov"; "Dec"].

Fixpoint index_of (x : string) (l : list string) (i : Z) : option Z :=
  match l with
  | [] => None
  | y :: rest => if String.eqb x y then Some i else index_of x rest (i + 1)
  end.

Fixpoint scan (fmt data : list ascii) (f : Fields) : option Fields :=
  match fmt with
  | [] => match data with [] => Some f | _ => None end
  | c :: fmt1 =>
      if Ascii.eqb c "%"%char then
        match fmt1 with
        | d :: fmt2 =>
            let num n k := match fixed_digits n data with
                           | Some (v, rest) => scan fmt2 rest (k v)
                           | None => None
                           end in
            if Ascii.eqb d "Y"%char then
              num 4%nat (fun v => mkFields v (f_month f) (f_day f) (f_hour f) (f_minute f) (f_second f) (f_micro f))
            else if Ascii.eqb d "m"%char then
              num 2%nat (fun v => mkFields (f_year f) v (f_day f) (f_hour f) (f_minute f) (f_second f) (f_micro f))
            else if Ascii.eqb d "d"%char then
              num 2%nat (fun v => mkFields (f_year f) (f_month f) v (f_hour f) (f_minute f) (f_second f) (f_micro f))
            else if Ascii.eqb d "H"%char then
              num 2%nat (fun v => mkFields (f_year f) (f_month f) (f_day f) v (f_minute f) (f_second f) (f_micro f))
            else if Ascii.eqb d "M"%char then
              num 2%nat (fun v => mkFields (f_year f) (f_month f) (f_day f) (f_hour f) v (f_second f) (f_micro f))
            else if Ascii.eqb d "S"%char then
              num 2%nat (fun v => mkFields (f_year f) (f_month f) (f_day f) (f_hour f) (f_minute f) v (f_micro f))
            else if Ascii.eqb d "f"%char then
              match read_digits data 0 false with
              | Some (v, rest) =>
                  let n := (length data - length rest)%nat in
                  if (n <=? 6)%nat then
                    scan fmt2 rest (mkFields (f_year f) (f_month f) (f_day f) (f_hour f)
                                             (f_minute f) (f_second f) (v * 10 ^ Z.of_nat (6 - n)))
                  else None
              | None => None
              end
            else if Ascii.eqb d "b"%char then
              match index_of (string_of_list_ascii (take 3 data)) month_names 1 with
              | Some m => scan fmt2 (drop 3 data)
                               (mkFields (f_year f) m (f_day f) (f_hour f) (f_minute f) (f_second f) (f_micro f))
              | None => None
              end
            else if Ascii.eqb d "z"%char then
              match data with
              | sign :: rest =>
                  if Ascii.eqb sign "+"%char || Ascii.eqb sign "-"%char then
                    match fixed_digits 4 rest with
                    | Some (_, rest') => scan fmt2 rest' f
                    | None => None
                    end
                  else None
              | [] => None
              end
            else None
        | [] => None
        end
      else
        match data with
        | x :: rest => if Ascii.eqb x c then scan fmt1 rest f else None
        | [] => None
        end
  end.

Definition strptime (data format : string) : option Z :=
  match scan (list_ascii_of_string format) (list_ascii_of_string data)
             (mkFields 1900 1 1 0 0 0 0) with
  | Some f => if fields_ok f then Some (micros_of f) else None
  | None => None
  end.

(** [_ord2ymd]: the year, month and day of a day number. *)
Definition ord2ymd (n : Z) : Z * Z * Z :=
  let n := n - 1 in
  let n400 := n / 146097 in
  let n := n mod 146097 in
  let n100 := n / 36524 in
  let n := n mod 36524 in
  let n4 := n / 1461 in
  let n := n mod 1461 in
  let n1 := n / 365 in
  let n := n mod 365 in
  let year := n400 * 400 + 1 + n100 * 100 + n4 * 4 + n1 in
  if (n1 =? 4) || (n100 =? 4) then (year - 1, 12, 31)
  else
    let month := (n + 50) / 32 in
    let preceding := days_before_month year (Z.to_nat month) in
    if preceding >? n
    then (year, month - 1, n - (preceding - days_in_month year (month - 1)) + 1)
    else (year, month, n - preceding + 1).

Definition digit_char (d : Z) : ascii := ascii_of_nat (Z.to_nat (48 + d mod 10)).

(** [v] in [n] digits, zero padded. *)
Fixpoint pad (n : nat) (v : Z) : list ascii :=
  match n with
  | O => []
  | S k => pad k (v / 10) ++ [digit_char v]
  end.

Fixpoint emit (fmt : list ascii) (y m d hh : Z) : list ascii :=
  match fmt with
  | [] => []
  | c :: fmt1 =>
      if Ascii.eqb c "%"%char then
        match fmt1 with
        | k :: fmt2 =>
            (if Ascii.eqb k "Y"%char then pad 4 y
             else if Ascii.eqb k "m"%char then pad 2 m
             else if Ascii.eqb k "d"%char then pad 2 d
             else if Ascii.eqb k "H"%char then pad 2 hh
             else [c; k]) ++ emit fmt2 y m d hh
        | [] => [c]
        end
      else c :: emit fmt1 y m d hh
  end.

Definition strftime (dt : Z) (format : string) : string :=
  let hours := dt / hour_us in
  let '(y, m, d) := ord2ymd (hours / 24 + 1) in
  string_of_list_ascii (emit (list_ascii_of_string format) y m d (hours mod 24)).

(** [posixpath.basename] and [posixpath.dirname]. *)
Fixpoint split_path (s : list ascii) (head seg : list ascii) : list ascii * list ascii :=
  match s with
  | [] => (head, seg)
  | c :: rest =>
      if Ascii.eqb c "/"%char then split_path rest (head ++ seg ++ [c]) []
      else split_path rest head (seg ++ [c])
  end.

Definition basename (p : string) : string :=
  string_of_list_ascii (snd (split_path (list_ascii_of_string p) [] [])).

Fixpoint rstrip_slash (rev_head : list ascii) : list ascii :=
  match rev_head with
  | c :: rest => if Ascii.eqb c "/"%char then rstrip_slash rest else rev_head
  | [] => []
  end.

Definition dirname (p : string) : string :=
  let head := fst (split_path (list_ascii_of_string p) [] []) in
  match rstrip_slash (rev head) with
  | [] => string_of_list_ascii head            (* empty, or slashes only *)
  | r => string_of_list_ascii (rev r)
  end.

(** A configuration with the usual five levels. *)
#[export] Instance runtime : Runtime :=
  Build_Runtime strip json_loads strptime strftime dirname basename
                ["DEBUG"; "INFO"; "WARN"; "ERROR"; "FATAL"].

End Py.

(** ** What a file and a table amount to *)

(** The count stored under a key ([0] when the row is absent), and the sum
    of [count] over the rows of one job. *)
Definition count_of (t : gmap Key Z) (key : Key) : Z := default 0 (t !! key).

Definition table_total (job_id : string) (t : gmap Key Z) : Z :=
  map_fold (fun (k : Key) (c acc : Z) => if decide (k.1.1 = job_id) then c + acc else acc) 0 t.

Definition entry_of_row (r : LogRow) : LogEntry :=
  mkEntry (r_timestamp r) (r_level r) (r_class r) (r_service r) (r_log_message r).

Section Readings.
Context `{Runtime}.

(** The lines of a file that yield a record, with their index. *)
Fixpoint parsed_items (line_idx : nat) (lines : list string) : list (nat * LogEntry) :=
  match lines with
  | [] => []
  | line :: rest =>
      match parse_fields line with
      | Entry e _ _ => (line_idx, e) :: parsed_items (S line_idx) rest
      | BadJSON | Failed _ => parsed_items (S line_idx) rest
      end
  end.

Definition item_row (job_id file_path : string) (it : nat * LogEntry) : LogRow :=
  row_of job_id (dirname file_path) (basename file_path) it.1 it.2.

(** The rows and the entries a file gives rise to. *)
Definition file_rows (job_id file_path : string) (lines : list string) : list LogRow :=
  map (item_row job_id file_path) (parsed_items 0 lines).

Definition file_entries (lines : list string) : list LogEntry :=
  map snd (parsed_items 0 lines).

(** The key under which [update_summary_tables] counts an entry in each of
    the four tables, [None] when its guard skips the entry. *)
Definition key_class_level (job_id : string) (e : LogEntry) : option Key :=
  if nonempty (e_class e) && nonempty (e_level e)
  then Some (job_id, e_class e, e_level e) else None.

Definition key_service_level (job_id : string) (e : LogEntry) : option Key :=
  if nonempty (e_service e) && nonempty (e_level e)
  then Some (job_id, e_service e, e_level e) else None.

Definition key_class_service (job_id : string) (e : LogEntry) : option Key :=
  if nonempty (e_class e) && nonempty (e_service e)
  then Some (job_id, e_class e, e_service e) else None.

Definition key_timeline (job_id : string) (e : LogEntry) : option Key :=
  match hour_key (e_logtime e) (e_level e) with
  | HourOf hour => Some (job_id, hour, e_level e)
  | HourInvalid | HourSkipped | HourTypeError => None
  end.

(** The rows of [logs] of a job that a table counts. *)
Definition counted (key : string -> LogEntry -> option Key) (job_id : string)
    (rows : list LogRow) : Z :=
  Z.of_nat (length (filter (fun r => r_job_id r = job_id /\ is_Some (key job_id (entry_of_row r)))
                           rows)).

(** The rows of [logs] of a job. *)
Definition rows_of_job (job_id : string) (rows : list LogRow) : Z :=
  Z.of_nat (length (filter (fun r => r_job_id r = job_id) rows)).

(** The rows of a job whose timestamp parses under one of the three
    formats. *)
Definition parseable (v : json) : Prop :=
  match v with JStr s => is_Some (parse_timestamp s) | _ => False end.

#[global] Instance parseable_dec v : Decision (parseable v).
Proof. destruct v; simpl; apply _. Defined.

Definition rows_parseable (job_id : string) (rows : list LogRow) : Z :=
  Z.of_nat (length (filter (fun r => r_job_id r = job_id /\ parseable (r_timestamp r)) rows)).

(** Each summary table adds up to the rows of [logs] it counts. *)
Definition round_trip (job_id : string) (d : DB) : Prop :=
  table_total job_id (class_level_counts d) = counted key_class_level job_id (logs d)
  /\ table_total job_id (service_level_counts d) = counted key_service_level job_id (logs d)
  /\ table_total job_id (class_service_counts d) = counted key_class_service job_id (logs d)
  /\ table_total job_id (timeline_counts d) = counted key_timeline job_id (logs d).

End Readings.

(** ** A local tree for the examples *)
Module Demo.

Definition quoted (s : string) : string := String "034"%char (s +:+ String "034"%char "").

(** The text of a JSON object whose values are strings. *)
Fixpoint members (fields : list (string * string)) : string :=
  match fields with
  | [] => ""
  | [(k, v)] => quoted k +:+ ":" +:+ quoted v
  | (k, v) :: rest => quoted k +:+ ":" +:+ quoted v +:+ "," +:+ members rest
  end.

Definition object_line (fields : list (string * string)) : string :=
  "{" +:+ members fields +:+ "}" +:+ String "010"%char "".

(** A storage with one local folder and the given files in it; no bucket. *)
Definition tree (root : string) (files : list (string * list string)) : Storage :=
  Build_Storage
    (fun p => String.eqb p root)
    (fun p => if String.eqb p root then map fst files else [])
    (fun _ => Some false)
    (fun _ _ => Some [])
    (fun p => match list_find (fun f => f.1 = p) files with
              | Some (_, (_, lines)) => (lines, false)
              | None => ([], true)
              end)
    (fun _ _ => ([], false)).

(** A file of two records, a line that is not JSON, and a record whose
    class field ends in a dot. *)
Definition sample_lines : list string :=
  [object_line [("logtime", "2024-01-01 10:00:00"); ("level", "ERROR");
                ("class", "svcA.ClassX"); ("log", "boom")];
   object_line [("logtime", "2024-01-01 10:30:00"); ("level", "ERROR");
                ("class", "svcA.ClassX"); ("log", "boom2")];
   "not json";
   object_line [("level", "INFO"); ("class", "svcA."); ("log", "x")]].

Definition sample_tree : Storage := tree "/logs" [("/logs/a.gz", sample_lines)].

Definition plain_line : string :=
  object_line [("level", "ERROR"); ("class", "svcA.ClassX"); ("log", "boom")].

(** A folder whose first file fills one batch exactly, so that the loop
    reaches its [await] once, and a second file. *)
Definition two_files : Storage :=
  tree "/logs" [("/logs/a.gz", repeat plain_line 500); ("/logs/b.gz", sample_lines)].

(** A folder with one file of two batches: 500 records and 1 more. *)
Definition long_file : Storage := tree "/logs" [("/logs/a.gz", repeat plain_line 501)].

(** The folder of [sample_tree] with a second file whose reader raises
    after the lines it yields. *)
Definition failing_second : Storage :=
  Build_Storage
    (fun p => String.eqb p "/logs")
    (fun p => if String.eqb p "/logs" then ["/logs/a.gz"; "/logs/b.gz"] else [])
    (fun _ => Some false)
    (fun _ _ => Some [])
    (fun p => if String.eqb p "/logs/a.gz" then (sample_lines, false)
              else (sample_lines, true))
    (fun _ _ => ([], false)).

(** A job row and its in-memory state on a database. *)
Definition job_on (d : DB) (job_id folder : string) (s : Status) (processed total : nat)
    (reqs : list bool) : State :=
  let d' := set_jobs (insert job_id (mkJobRow folder s processed total "")) d in
  mkState d' [d'] (mkJobState folder s processed total) [] reqs.

#[local] Existing Instance Py.runtime.

(** [start_job] on a local folder of a fresh process, and the task it
    spawns run to its end. *)
Definition ingest `{Storage} (root start_time : string) : State * bool :=
  match start_job (mkRequest (Some root) None None None) start_time boot with
  | (st, OK, Some t) => run_task t st
  | (st, _, _) => (st, false)
  end.

(** [resume_job] and the task it spawns run to its end. *)
Definition resume `{Storage} (job_id : string) (st : State) : State * bool :=
  match resume_job job_id st with
  | (st1, OK, Some t) => run_task t st1
  | (st1, _, _) => (st1, false)
  end.

End Demo.

(** ** Sums over dict items and key lists *)

(** The counts that a list of items holds for one key, and for one job. *)
Fixpoint sum_at (key : Key) (items : list (Key * Z)) : Z :=
  match items with
  | [] => 0
  | (k, c) :: rest => (if decide (k = key) then c else 0) + sum_at key rest
  end.

Fixpoint sum_job (job_id : string) (items : list (Key * Z)) : Z :=
  match items with
  | [] => 0
  | (k, c) :: rest => (if decide (k.1.1 = job_id) then c else 0) + sum_job job_id rest
  end.

(** [d[k] = d.get(k, 0) + 1] for each key of a list in turn. *)
Definition incr_all (keys : list Key) (d : list (Key * Z)) : list (Key * Z) :=
  fold_left (fun d k => dict_incr k d) keys d.

(** The same for a key that a guard may have skipped. *)
Definition incr_opt (k : option Key) (d : list (Key * Z)) : list (Key * Z) :=
  match k with Some k => dict_incr k d | None => d end.

(** How often a key occurs in a list. *)
Definition occurrences (key : Key) (keys : list Key) : Z :=
  Z.of_nat (length (filter (fun k => k = key) keys)).

(** Table [t] is table [t0] with the keys of [keys], all of job [job_id],
    counted in. *)
Definition added (job_id : string) (keys : list Key) (t0 t : gmap Key Z) : Prop :=
  (forall key, count_of t key = count_of t0 key + occurrences key keys)
  /\ table_total job_id t = table_total job_id t0 + Z.of_nat (length keys).

Section Invariants.
Context `{Runtime}.

(** [strptime] is only ever handed a string. *)
Definition timestamp_ok (e : LogEntry) : Prop :=
  hour_key (e_logtime e) (e_level e) <> HourTypeError.

(** The four tables of [d] are those of [d0] with the entries [es] of a job
    counted in. *)
Definition tables_added (job_id : string) (es : list LogEntry) (d0 d : DB) : Prop :=
  added job_id (omap (key_class_level job_id) es) (class_level_counts d0) (class_level_counts d)
  /\ added job_id (omap (key_service_level job_id) es)
           (service_level_counts d0) (service_level_counts d)
  /\ added job_id (omap (key_class_service job_id) es)
           (class_service_counts d0) (class_service_counts d)
  /\ added job_id (omap (key_timeline job_id) es) (timeline_counts d0) (timeline_counts d).

(** The [jobs] table and the in-memory state, up to a pause of the job. *)
Definition jobs_like (job_id : string) (J0 J : gmap string JobRow) : Prop :=
  J = J0 \/ J = alter (set_row_status PAUSED) job_id J0.

Definition mem_like (m0 m : JobState) : Prop :=
  m = m0 \/ m = set_status PAUSED m0.

(** The ledgers of [d0] and [d] hold the same markers. *)
Definition same_markers (d0 d : DB) : Prop :=
  forall j f, marker j f ∈ job_metadata d <-> marker j f ∈ job_metadata d0.

(** [d] is [d0] after the items [its] of a file have been written: their
    rows appended, their entries counted, no marker added. *)
Definition flushed (job_id file_path : string) (d0 : DB) (its : list (nat * LogEntry))
    (d : DB) : Prop :=
  logs d = logs d0 ++ map (item_row job_id file_path) its
  /\ tables_added job_id (map snd its) d0 d
  /\ same_markers d0 d
  /\ jobs_like job_id (jobs d0) (jobs d).

(** What holds of the process at any point of the loop over the lines
    whose items so far are [its]: the job row and state are untouched but
    for a pause, no marker was written, and every state committed since
    the start holds a prefix of the file. *)
Definition loop_frame (job_id file_path : string) (st0 : State)
    (its : list (nat * LogEntry)) (st : State) : Prop :=
  jobs_like job_id (jobs (db st0)) (jobs (db st))
  /\ mem_like (mem st0) (mem st)
  /\ same_markers (db st0) (db st)
  /\ exists news, durable st = news ++ durable st0
       /\ Forall (fun d => exists pre, pre `prefix_of` its
                               /\ flushed job_id file_path (db st0) pre d) news.

(** What holds while every row so far can be bound: the database is the
    flushed part and the locals hold the rest. *)
Definition loop_good (job_id file_path : string) (st0 : State)
    (its : list (nat * LogEntry)) (loc : Locals) (st : State) : Prop :=
  exists done pend,
    its = done ++ pend
    /\ log_batch loc = map (item_row job_id file_path) pend
    /\ log_entries loc = map snd pend
    /\ flushed job_id file_path (db st0) done (db st).

Definition all_bindable (job_id file_path : string) (its : list (nat * LogEntry)) : bool :=
  forallb (fun it => bindable_row (item_row job_id file_path it)) its.

Definition loop_inv (job_id file_path : string) (st0 : State)
    (its : list (nat * LogEntry)) (ls : Locals * State) : Prop :=
  loop_frame job_id file_path st0 its ls.2
  /\ if all_bindable job_id file_path its
     then loop_good job_id file_path st0 its ls.1 ls.2
     else forallb bindable_row (log_batch ls.1) = false.

End Invariants.

(** [d] is [d0] with one batch written: rows appended, entries counted. *)
Definition batch_written `{Runtime} (job_id : string) (rows : list LogRow)
    (es : list LogEntry) (d0 d : DB) : Prop :=
  logs d = logs d0 ++ rows
  /\ tables_added job_id es d0 d
  /\ same_markers d0 d
  /\ jobs d = jobs d0.

(** [d] is [d0] after a whole file: its rows appended, its entries
    counted, its marker written. *)
Definition file_done `{Runtime} (job_id file_path : string) (d0 : DB)
    (its : list (nat * LogEntry)) (d : DB) : Prop :=
  logs d = logs d0 ++ map (item_row job_id file_path) its
  /\ tables_added job_id (map snd its) d0 d
  /\ (forall j f, marker j f ∈ job_metadata d
                  <-> marker j f ∈ job_metadata d0 \/ (j = job_id /\ f = file_path))
  /\ jobs_like job_id (jobs d0) (jobs d).

(** The hours [start], [start + 1h], ..., [n] of them. *)
Definition hours_from (start : Z) (n : nat) : list Z :=
  map (fun k => start + Z.of_nat k * hour_us) (seq 0 n).

(** The number of whole hours from [start_dt] to [end_dt], plus one. *)
Definition hour_count (start_dt end_dt : Z) : nat :=
  Z.to_nat ((end_dt - start_dt) / hour_us + 1).

Section JobInvariants.
Context `{Runtime} `{Storage}.

(** The items of a file as its reader gives them. *)
Definition read_items (is_bucket : bool) (file_path : string) : list (nat * LogEntry) :=
  match open_source is_bucket file_path with
  | Some source => parsed_items 0 source.1
  | None => []
  end.

Definition rows_of_files (job_id : string) (is_bucket : bool) (files : list string)
    : list LogRow :=
  flat_map (fun f => map (item_row job_id f) (read_items is_bucket f)) files.

Definition entries_of_files (is_bucket : bool) (files : list string) : list LogEntry :=
  flat_map (fun f => map snd (read_items is_bucket f)) files.

(** [d] is [d0] after the files [done], whole and marked, and the first
    items [pre] of file [f], unmarked. *)
Definition progress (job_id : string) (is_bucket : bool) (d0 : DB) (done : list string)
    (f : string) (pre : list (nat * LogEntry)) (d : DB) : Prop :=
  logs d = logs d0 ++ rows_of_files job_id is_bucket done ++ map (item_row job_id f) pre
  /\ tables_added job_id (entries_of_files is_bucket done ++ map snd pre) d0 d
  /\ (forall j g, marker j g ∈ job_metadata d
                  <-> marker j g ∈ job_metadata d0 \/ (j = job_id /\ g ∈ done))
  /\ (is_Some (jobs d !! job_id) <-> is_Some (jobs d0 !! job_id)).

(** A file the loop gets through: its reader ends normally and its rows
    can all be bound. *)
Definition file_ok (job_id : string) (is_bucket : bool) (f : string) : Prop :=
  exists lines, open_source is_bucket f = Some (lines, false)
                /\ all_bindable job_id f (parsed_items 0 lines) = true.

(** A state committed while the files [todo] are worked through: some of
    them whole, and a prefix of the next one. *)
Definition snapshot_ok (job_id : string) (is_bucket : bool) (d0 : DB) (todo : list string)
    (d : DB) : Prop :=
  exists done rest pre,
    todo = done ++ rest
    /\ pre `prefix_of` (match rest with f :: _ => read_items is_bucket f | [] => [] end)
    /\ progress job_id is_bucket d0 done (hd "" rest) pre d.

(** What the pause branch leaves. *)
Definition paused_at (job_id : string) (st : State) : Prop :=
  m_status (mem st) = PAUSED
  /\ (exists older, durable st = db st :: older)
  /\ forall row, jobs (db st) !! job_id = Some row ->
       j_status row = PAUSED /\ j_files_processed row = m_files_processed (mem st).

(** The counters of the job row. *)
Definition counters_of (job_id : string) (J : gmap string JobRow) : option (nat * nat) :=
  (fun r => (j_files_processed r, j_total_files r)) <$> J !! job_id.

(** The row and the in-memory state agree on the counters, and the row's
    counters are those last committed. *)
Definition synced (job_id : string) (st : State) : Prop :=
  (forall row, jobs (db st) !! job_id = Some row ->
     j_files_processed row = m_files_processed (mem st)
     /\ j_total_files row = m_total_files (mem st))
  /\ exists d older, durable st = d :: older
       /\ counters_of job_id (jobs d) = counters_of job_id (jobs (db st)).

End JobInvariants.

(** ** The back end as a whole

    The handlers [get_job_status], [get_processed_files] and [delete_job]
    and the hook [startup_event] work on the global [job_states], which
    has an entry for each job the process knows, and on the database file,
    that is, on what the connections have committed. *)

Record Backend : Type := mkBackend {
  database : DB;
  job_states : gmap string JobState;
  db_initialized : bool;
}.

(** An entry of [job_states], or a row of [jobs], that differs from
    another at most in its time stamps.  The model keeps neither
    [start_time] nor [last_updated], which [pause_job], [resume_job] and
    [process_job] write anew with the time of the day; where an entry or a
    row is said to be what another is, it is said of the fields below, one
    by one, and nothing is said of the stamps. *)
Definition same_entry (m m' : JobState) : Prop :=
  m_folder_path m' = m_folder_path m /\ m_status m' = m_status m
  /\ m_files_processed m' = m_files_processed m /\ m_total_files m' = m_total_files m.

Definition same_row (r r' : JobRow) : Prop :=
  j_folder_path r' = j_folder_path r /\ j_status r' = j_status r
  /\ j_files_processed r' = j_files_processed r /\ j_total_files r' = j_total_files r
  /\ j_current_file r' = j_current_file r.

(** The entry built from a row of [jobs] (lines 570-580). *)
Definition state_of_row (row : JobRow) : JobState :=
  mkJobState (j_folder_path row) (j_status row) (j_files_processed row) (j_total_files row).

(** [startup_event]: once in a process, [init_db] (which creates what is
    missing and leaves the rows alone) and then
    [for job in jobs: job_states[job_id] = {...}]. *)
Definition startup_event (b : Backend) : Backend :=
  if db_initialized b then b
  else
    mkBackend (database b)
      (map_fold (fun (job_id : string) (row : JobRow) (js : gmap string JobState) =>
                   <[job_id := state_of_row row]> js)
                (job_states b) (jobs (database b)))
      true.

(** A process that has just been started on a database file. *)
Definition new_process (d : DB) : Backend := mkBackend d ∅ false.

(** [get_job_status]: the entry of the job, or code 404. *)
Definition get_job_status (job_id : string) (b : Backend) : Response * option JobState :=
  match job_states b !! job_id with
  | None => (HTTPError 404, None)
  | Some s => (OK, Some s)
  end.

(** [get_processed_files]: the values of the markers of the job.  The
    query has no [ORDER BY]; the rows, distinct by the UNIQUE constraint,
    are kept as a set. *)
Definition get_processed_files (job_id : string) (b : Backend)
    : Response * option (gset string) :=
  match job_states b !! job_id with
  | None => (HTTPError 404, None)
  | Some _ => (OK, Some (ledger job_id (database b)))
  end.

(** The seven [DELETE FROM ... WHERE job_id = ?] of [delete_job]. *)
Definition delete_rows (job_id : string) (d : DB) : DB :=
  mkDB (delete job_id (jobs d))
       (filter (fun r => r_job_id r <> job_id) (logs d))
       (filter (fun k : Key => k.1.1 <> job_id) (job_metadata d))
       (filter (fun kc : Key * Z => kc.1.1.1 <> job_id) (class_level_counts d))
       (filter (fun kc : Key * Z => kc.1.1.1 <> job_id) (service_level_counts d))
       (filter (fun kc : Key * Z => kc.1.1.1 <> job_id) (timeline_counts d))
       (filter (fun kc : Key * Z => kc.1.1.1 <> job_id) (class_service_counts d)).

(** [delete_job]: code 404 for a job the process does not know; otherwise
    the rows of the job go, in one transaction, and then its entry. *)
Definition delete_job (job_id : string) (b : Backend) : Backend * Response :=
  match job_states b !! job_id with
  | None => (b, HTTPError 404)
  | Some _ =>
      (mkBackend (delete_rows job_id (database b)) (delete job_id (job_states b))
                 (db_initialized b), OK)
  end.

(** ** [get_job_metadata] ([analyzer/data_manager.py])

    The two queries of the body,
    [SELECT value FROM job_metadata WHERE job_id = ? AND type = ...] for
    the types [class] and [service]; [unique()] finds the rows distinct
    already, and no value is NULL.  The values are kept as a set. *)
Definition metadata_values (job_id type : string) (d : DB) : gset string :=
  set_omap (fun k : Key =>
              if decide (k.1.1 = job_id /\ k.1.2 = type) then Some k.2 else None)
           (job_metadata d).

Definition query_job_metadata (job_id : string) (d : DB) : gset string * gset string :=
  (metadata_values job_id "class" d, metadata_values job_id "service" d).

(** The function as it is declared, under [@st.cache_data]: Streamlit
    keeps the answer of a call under its argument and hands it out again
    at every later call with that argument, without running the body;
    nothing in [data_manager.py] clears the cache.  A call takes the
    database as it is then and the cache, and gives the answer and the
    cache after it. *)
Abbreviation MetadataCache := (gmap string (gset string * gset string)).

Definition get_job_metadata (job_id : string) (d : DB) (cache : MetadataCache)
    : (gset string * gset string) * MetadataCache :=
  match cache !! job_id with
  | Some answer => (answer, cache)
  | None =>
      let answer := query_job_metadata job_id d in
      (answer, <[job_id := answer]> cache)
  end.

(** ** What a job shares with the others, and what it lists *)

(** The rows, counts and metadata of every job but [job_id] are in [d]
    what they are in [d0]. *)
Definition other_jobs_same (job_id : string) (d0 d : DB) : Prop :=
  (forall j, j <> job_id -> jobs d !! j = jobs d0 !! j)
  /\ filter (fun r => r_job_id r <> job_id) (logs d)
     = filter (fun r => r_job_id r <> job_id) (logs d0)
  /\ (forall k : Key, k.1.1 <> job_id -> (k ∈ job_metadata d <-> k ∈ job_metadata d0))
  /\ forall k : Key, k.1.1 <> job_id ->
       class_level_counts d !! k = class_level_counts d0 !! k
       /\ service_level_counts d !! k = service_level_counts d0 !! k
       /\ timeline_counts d !! k = timeline_counts d0 !! k
       /\ class_service_counts d !! k = class_service_counts d0 !! k.

(** The same of a process: of the database as its connection sees it and
    of every state committed since [st0]. *)
Definition kept_apart (job_id : string) (st0 st : State) : Prop :=
  other_jobs_same job_id (db st0) (db st)
  /\ exists news, durable st = news ++ durable st0
       /\ Forall (other_jobs_same job_id (db st0)) news.

(** The classes and the services that the body of [get_job_metadata]
    finds for a job are those that occur in the rows of the job in
    [logs]. *)
Definition names_match (job_id : string) (d : DB) : Prop :=
  forall name,
    (name ∈ (query_job_metadata job_id d).1
     <-> exists r, r ∈ logs d /\ r_job_id r = job_id /\ r_class r = name)
    /\ (name ∈ (query_job_metadata job_id d).2
        <-> exists r, r ∈ logs d /\ r_job_id r = job_id /\ r_service r = name).

(** The same of the database as it will be once the batch the locals
    hold is flushed. *)
Definition names_pending (job_id : string) (loc : Locals) (d : DB) : Prop :=
  names_match job_id
    (set_logs (fun l => l ++ log_batch loc)
              (insert_names job_id (classes loc) (services loc) d)).

(** The two calls of [logger] that tell of a line that was skipped. *)
Definition line_event (file_path : string) (line_idx : nat) (ev : LogEvent) : Prop :=
  ev = WarnInvalidJSON file_path line_idx \/ ev = ErrorLine file_path line_idx.


(** A line that gives no record. *)
Definition no_record `{Runtime} (line : string) : Prop :=
  match parse_fields line with Entry _ _ _ => False | BadJSON | Failed _ => True end.

(** ** The wrappers of the S3 client

    [validate_customer_folder], [list_s3_files] and [stream_s3_log_file],
    over what the client answers.  The first two run under
    [@retry(stop_max_attempt_number=3, ...)]; the third is a generator,
    which the decorator hands out at the first call without running it,
    so nothing of it is ever retried. *)
Module S3.

(** An exception of the client: botocore's [ClientError] with
    [e.response['Error']['Code']], or any other. *)
Inductive Exception : Type :=
  | ClientError (code : string)
  | OtherException.

(** What one call of a wrapped function ends in: a value, or an
    [HTTPException] with its status code. *)
Inductive Outcome (A : Type) : Type :=
  | Return (a : A)
  | Raise (status_code : nat).

Arguments Return {A} a.
Arguments Raise {A} status_code.

(** The decorator: the call is made again as long as it raises, three
    times at most, and what the third call does is final.  [call n] is
    the n-th call. *)
Definition retry {A} (call : nat -> Outcome A) : Outcome A :=
  match call 1%nat with
  | Return a => Return a
  | Raise _ =>
      match call 2%nat with
      | Return a => Return a
      | Raise _ => call 3%nat
      end
  end.

(** The answer to [list_objects_v2(Bucket, Prefix, MaxKeys=1)]: whether
    the response has the keys ['Contents'] and ['CommonPrefixes']. *)
Inductive Listed : Type :=
  | Found (contents common_prefixes : bool)
  | NotListed (e : Exception).

(** What the paginator yields: the pages, each with its ['Contents'] (the
    keys of the objects) when it has any, and the exception that ends the
    iteration when one does. *)
Record Pages : Type := mkPages {
  page_contents : list (option (list string));
  page_error : option Exception;
}.

(** A line of the decompressed body: text, or bytes that are not UTF-8. *)
Inductive Chunk : Type :=
  | Line (text : string)
  | Undecodable.

(** How reading the body ends: at its end, on a corrupt archive, or on
    any other exception. *)
Inductive Ending : Type := EndOfFile | BadGzipFile | ReadError.

(** The answer to [get_object(Bucket, Key)]. *)
Inductive Object : Type :=
  | Body (chunks : list Chunk) (ending : Ending)
  | NoObject (e : Exception).

(** The service: its answer to the n-th call of a listing, and to a
    download. *)
Record Client : Type := mkClient {
  list_objects_v2 : string -> string -> nat -> Listed;
  paginate : string -> string -> nat -> Pages;
  get_object : string -> string -> Object;
}.

(** [s.endswith(suffix)] *)
Definition endswith (s suffix : string) : bool :=
  let n := String.length s in
  let k := String.length suffix in
  (k <=? n)%nat && String.eqb (String.substring (n - k) k s) suffix.

(** The body of [validate_customer_folder], once. *)
Definition validate_once (c : Client) (customer_folder : string) (attempt : nat)
    : Outcome bool :=
  match list_objects_v2 c "k8-customer-logs" (customer_folder +:+ "/") attempt with
  | Found contents common_prefixes => Return (contents || common_prefixes)
  | NotListed (ClientError code) =>
      if String.eqb code "NoSuchBucket" then Raise 400
      else if String.eqb code "AccessDenied" then Raise 403
      else Raise 500
  | NotListed OtherException => Raise 500
  end.

Definition validate_customer_folder (c : Client) (customer_folder : string) : Outcome bool :=
  retry (validate_once c customer_folder).

(** The body of [list_s3_files], once: the keys that end in [.gz], page
    by page; an exception drops what was collected. *)
Definition list_once (c : Client) (bucket_name prefix : string) (attempt : nat)
    : Outcome (list string) :=
  let pages := paginate c bucket_name prefix attempt in
  match page_error pages with
  | None =>
      Return (filter (fun key => endswith key ".gz" = true)
                     (concat (omap id (page_contents pages))))
  | Some (ClientError code) =>
      if String.eqb code "NoSuchKey" || String.eqb code "404" then Return []
      else if String.eqb code "AccessDenied" then Raise 403
      else Raise 500
  | Some OtherException => Raise 500
  end.

Definition list_s3_files (c : Client) (bucket_name prefix : string) : Outcome (list string) :=
  retry (list_once c bucket_name prefix).

(** [stream_s3_log_file]: the lines the generator yields and whether it
    then raises.  A line that does not decode is skipped; a corrupt
    archive, and any exception but a [ClientError], end the generator as
    the end of the file does; of the [ClientError]s, [NoSuchKey] ends it
    too and the others are raised. *)
Definition stream_s3_log_file (c : Client) (bucket_name key : string) : list string * bool :=
  match get_object c bucket_name key with
  | Body chunks _ =>
      (omap (fun ch => match ch with Line text => Some text | Undecodable => None end) chunks,
       false)
  | NoObject (ClientError code) => ([], negb (String.eqb code "NoSuchKey"))
  | NoObject OtherException => ([], false)
  end.


Definition value_of {A} (o : Outcome A) : option A :=
  match o with Return a => Some a | Raise _ => None end.

(** What [process_job] sees of a bucket (there is no local folder). *)
Definition storage (c : Client) : Storage :=
  Build_Storage
    (fun _ => false)
    (fun _ => [])
    (fun customer_folder => value_of (validate_customer_folder c customer_folder))
    (fun bucket_name prefix => value_of (list_s3_files c bucket_name prefix))
    (fun _ => ([], true))
    (stream_s3_log_file c).

End S3.

(** ** Buckets for the examples *)
Module Samples.

(** A bucket in which every customer folder is found and no prefix may
    be listed. *)
Definition locked : S3.Client :=
  S3.mkClient
    (fun _ _ _ => S3.Found true false)
    (fun _ _ _ => S3.mkPages [] (Some (S3.ClientError "AccessDenied")))
    (fun _ _ => S3.NoObject (S3.ClientError "AccessDenied")).

(** The folder [acme] with two objects under the hour 2024-01-01 00h: an
    archive that is corrupt after three lines, the second of which does
    not decode, and a text file.  The first listing of a prefix fails. *)
Definition acme : S3.Client :=
  S3.mkClient
    (fun _ prefix _ => S3.Found (String.eqb prefix "acme/") false)
    (fun _ prefix attempt =>
       if (attempt =? 1)%nat then S3.mkPages [] (Some S3.OtherException)
       else if String.eqb prefix "acme/20240101-00/"
       then S3.mkPages [Some ["acme/20240101-00/app.log.gz"]; None;
                        Some ["acme/20240101-00/notes.txt"]] None
       else S3.mkPages [None] None)
    (fun _ key =>
       if String.eqb key "acme/20240101-00/app.log.gz"
       then S3.Body [S3.Line Demo.plain_line; S3.Undecodable; S3.Line Demo.plain_line]
                    S3.BadGzipFile
       else S3.NoObject (S3.ClientError "NoSuchKey")).





(** A local folder with two small files. *)
Definition pair : Storage :=
  Demo.tree "/logs" [("/logs/a.gz", Demo.sample_lines);
                     ("/logs/b.gz", [Demo.plain_line; Demo.plain_line])].

#[local] Existing Instance Py.runtime.

(** A back end after two jobs on the same folder, started at [T0] and at
    [T1], have run to their end. *)
Definition two_jobs : Backend :=
  let st1 := (@Demo.ingest Demo.sample_tree "/logs" "T0").1 in
  match start_job (mkRequest (Some "/logs") None None None) "T1" st1 with
  | (st2, OK, Some t) =>
      let st3 := (@run_task Py.runtime Demo.sample_tree t st2).1 in
      mkBackend (db st3) (<["logs_T1" := mem st3]> {["logs_T0" := mem st1]}) true
  | _ => new_process empty_db
  end.

End Samples.

(** * Properties *)

(** Closing a goal by running the model. *)
Ltac by_running := vm_compute; reflexivity.

(** The row that [update_job] leaves under the job id. *)
Ltac updated_row :=
  unfold update_job; simpl; rewrite lookup_alter_eq;
  match goal with
  | |- context [jobs (db ?s) !! ?j] => destruct (jobs (db s) !! j)
  end;
  intros [= <-]; done.

Create HintDb pipeline.

(** ** Summary tables: upserts add up *)

Section Tables.

Lemma count_of_upsert (t : gmap Key Z) (k key : Key) (c : Z) :
  count_of (upsert_count t (k, c)) key = count_of t key + (if decide (k = key) then c else 0).
Proof.
  unfold count_of, upsert_count; simpl.
  destruct (t !! k) as [c0|] eqn:Hk.
  - destruct (decide (k = key)) as [->|Hne].
    + rewrite lookup_insert_eq, Hk. simpl. lia.
    + rewrite lookup_insert_ne by done. lia.
  - destruct (decide (k = key)) as [->|Hne].
    + rewrite lookup_insert_eq, Hk. simpl. lia.
    + rewrite lookup_insert_ne by done. lia.
Qed.

Lemma table_total_insert_fresh (j : string) (t : gmap Key Z) (k : Key) (c : Z) :
  t !! k = None ->
  table_total j (<[k := c]> t) = (if decide (k.1.1 = j) then c else 0) + table_total j t.
Proof.
  intros Hk. unfold table_total.
  rewrite map_fold_insert_L; [|intros; repeat case_decide; lia|done].
  case_decide; lia.
Qed.

Lemma table_total_insert (j : string) (t : gmap Key Z) (k : Key) (c : Z) :
  table_total j (<[k := c]> t)
  = table_total j t + (if decide (k.1.1 = j) then c - count_of t k else 0).
Proof.
  unfold count_of.
  destruct (t !! k) as [c0|] eqn:Hk; simpl.
  - rewrite <- (insert_delete_eq t k c).
    rewrite <- (insert_delete_id t k c0) at 2 by done.
    rewrite !table_total_insert_fresh by apply lookup_delete_eq.
    case_decide; lia.
  - rewrite table_total_insert_fresh by done. case_decide; lia.
Qed.

Lemma table_total_upsert (j : string) (t : gmap Key Z) (k : Key) (c : Z) :
  table_total j (upsert_count t (k, c))
  = table_total j t + (if decide (k.1.1 = j) then c else 0).
Proof.
  unfold upsert_count; simpl.
  destruct (t !! k) as [c0|] eqn:Hk; rewrite table_total_insert; unfold count_of; rewrite Hk;
    simpl; case_decide; lia.
Qed.

Lemma count_of_upsert_all (items : list (Key * Z)) (t : gmap Key Z) (key : Key) :
  count_of (upsert_all t items) key = count_of t key + sum_at key items.
Proof.
  unfold upsert_all. revert t.
  induction items as [|[k c] items IH]; intros t; simpl; [lia|].
  rewrite IH, count_of_upsert. lia.
Qed.

Lemma table_total_upsert_all (j : string) (items : list (Key * Z)) (t : gmap Key Z) :
  table_total j (upsert_all t items) = table_total j t + sum_job j items.
Proof.
  unfold upsert_all. revert t.
  induction items as [|[k c] items IH]; intros t; simpl; [lia|].
  rewrite IH, table_total_upsert. lia.
Qed.

Lemma sum_at_dict_incr (key k : Key) (d : list (Key * Z)) :
  sum_at key (dict_incr k d) = sum_at key d + (if decide (k = key) then 1 else 0).
Proof.
  induction d as [|[k' v] d IH]; simpl.
  - case_decide; lia.
  - destruct (decide (k' = k)) as [->|Hne]; simpl.
    + case_decide; lia.
    + rewrite IH. lia.
Qed.

Lemma sum_job_dict_incr (j : string) (k : Key) (d : list (Key * Z)) :
  sum_job j (dict_incr k d) = sum_job j d + (if decide (k.1.1 = j) then 1 else 0).
Proof.
  induction d as [|[k' v] d IH]; simpl.
  - case_decide; lia.
  - destruct (decide (k' = k)) as [->|Hne]; simpl.
    + case_decide; lia.
    + rewrite IH. lia.
Qed.

Lemma occurrences_cons (key k : Key) (keys : list Key) :
  occurrences key (k :: keys) = (if decide (k = key) then 1 else 0) + occurrences key keys.
Proof.
  unfold occurrences. rewrite filter_cons.
  destruct (decide (k = key)); simpl; lia.
Qed.

Lemma occurrences_app (key : Key) (l1 l2 : list Key) :
  occurrences key (l1 ++ l2) = occurrences key l1 + occurrences key l2.
Proof. unfold occurrences. rewrite filter_app, length_app. lia. Qed.

Lemma sum_at_incr_all (key : Key) (keys : list Key) (d : list (Key * Z)) :
  sum_at key (incr_all keys d) = sum_at key d + occurrences key keys.
Proof.
  unfold incr_all. revert d.
  induction keys as [|k keys IH]; intros d; simpl.
  - unfold occurrences. simpl. lia.
  - rewrite IH, sum_at_dict_incr, occurrences_cons. lia.
Qed.

Lemma sum_job_incr_all (j : string) (keys : list Key) (d : list (Key * Z)) :
  Forall (fun k : Key => k.1.1 = j) keys ->
  sum_job j (incr_all keys d) = sum_job j d + Z.of_nat (length keys).
Proof.
  unfold incr_all. revert d.
  induction keys as [|k keys IH]; intros d Hall; simpl; [lia|].
  inversion Hall as [|? ? Hk Hrest]; subst.
  rewrite IH, sum_job_dict_incr by done.
  rewrite decide_True by done. lia.
Qed.

(** Upserting the dict built from a list of keys counts them in. *)
Lemma added_upsert_incr (j : string) (keys : list Key) (t : gmap Key Z) :
  Forall (fun k : Key => k.1.1 = j) keys ->
  added j keys t (upsert_all t (incr_all keys [])).
Proof.
  intros Hall. split.
  - intros key. rewrite count_of_upsert_all, sum_at_incr_all. simpl. lia.
  - rewrite table_total_upsert_all, sum_job_incr_all by done. simpl. lia.
Qed.

Lemma added_refl (j : string) (t : gmap Key Z) : added j [] t t.
Proof. split; [intros key; unfold occurrences; simpl; lia | simpl; lia]. Qed.

Lemma added_trans (j : string) (k1 k2 : list Key) (t0 t1 t2 : gmap Key Z) :
  added j k1 t0 t1 -> added j k2 t1 t2 -> added j (k1 ++ k2) t0 t2.
Proof.
  intros [Hc1 Ht1] [Hc2 Ht2]. split.
  - intros key. rewrite Hc2, Hc1, occurrences_app. lia.
  - rewrite Ht2, Ht1, length_app. lia.
Qed.

End Tables.

#[export] Hint Resolve added_refl : pipeline.

(** ** [update_summary_tables] counts every entry under its keys *)

Section Summary.
Context `{Runtime}.

Lemma omap_snoc {A B} (f : A -> option B) (l : list A) (x : A) :
  omap f (l ++ [x]) = omap f l ++ match f x with Some y => [y] | None => [] end.
Proof. rewrite omap_app. simpl. destruct (f x); done. Qed.

Lemma incr_all_snoc (keys : list Key) (k : Key) (d : list (Key * Z)) :
  incr_all (keys ++ [k]) d = dict_incr k (incr_all keys d).
Proof. unfold incr_all. rewrite fold_left_app. done. Qed.

Lemma incr_all_cons_opt (k : option Key) (keys : list Key) (d : list (Key * Z)) :
  incr_all (match k with Some y => y :: keys | None => keys end) d
  = incr_all keys (incr_opt k d).
Proof. destruct k; done. Qed.

Lemma tally_entry_spec (job_id : string) (b : Batches) (e : LogEntry) :
  timestamp_ok e ->
  exists n,
    tally_entry job_id b e
    = Some (mkBatches (incr_opt (key_class_level job_id e) (class_level_batch b))
                      (incr_opt (key_service_level job_id e) (service_level_batch b))
                      (incr_opt (key_timeline job_id e) (timeline_batch b))
                      (incr_opt (key_class_service job_id e) (class_service_batch b)) n).
Proof.
  unfold timestamp_ok, tally_entry, key_class_level, key_service_level, key_class_service,
    key_timeline.
  intros Hts.
  destruct (hour_key (e_logtime e) (e_level e)); try done;
    destruct (nonempty (e_class e)), (nonempty (e_level e)), (nonempty (e_service e));
    simpl; eauto.
Qed.

Lemma tally_spec (job_id : string) (es : list LogEntry) (b : Batches) :
  Forall timestamp_ok es ->
  exists n,
    tally job_id b es
    = Some (mkBatches (incr_all (omap (key_class_level job_id) es) (class_level_batch b))
                      (incr_all (omap (key_service_level job_id) es) (service_level_batch b))
                      (incr_all (omap (key_timeline job_id) es) (timeline_batch b))
                      (incr_all (omap (key_class_service job_id) es) (class_service_batch b)) n).
Proof.
  revert b. induction es as [|e es IH]; intros b Hall.
  - destruct b. simpl. eauto.
  - inversion Hall as [|? ? He Hes]; subst.
    destruct (tally_entry_spec job_id b e He) as [n Hn].
    simpl. rewrite Hn.
    destruct (IH (mkBatches (incr_opt (key_class_level job_id e) (class_level_batch b))
                      (incr_opt (key_service_level job_id e) (service_level_batch b))
                      (incr_opt (key_timeline job_id e) (timeline_batch b))
                      (incr_opt (key_class_service job_id e) (class_service_batch b)) n) Hes)
      as [m Hm].
    rewrite Hm. simpl. exists m.
    rewrite <- !incr_all_cons_opt. done.
Qed.

Lemma key_class_level_job j e k : key_class_level j e = Some k -> k.1.1 = j.
Proof. unfold key_class_level. case_match; naive_solver. Qed.

Lemma key_service_level_job j e k : key_service_level j e = Some k -> k.1.1 = j.
Proof. unfold key_service_level. case_match; naive_solver. Qed.

Lemma key_class_service_job j e k : key_class_service j e = Some k -> k.1.1 = j.
Proof. unfold key_class_service. case_match; naive_solver. Qed.

Lemma key_timeline_job j e k : key_timeline j e = Some k -> k.1.1 = j.
Proof. unfold key_timeline. case_match; naive_solver. Qed.

Lemma omap_keys_job (f : string -> LogEntry -> option Key) (j : string) (es : list LogEntry) :
  (forall e k, f j e = Some k -> k.1.1 = j) ->
  Forall (fun k : Key => k.1.1 = j) (omap (f j) es).
Proof.
  intros Hf. apply Forall_forall. intros k Hk.
  apply list_elem_of_omap in Hk as (e & _ & He). eauto.
Qed.

(** The state after [update_summary_tables] on well-typed entries. *)
Lemma update_summary_tables_spec (job_id : string) (es : list LogEntry) (st : State) :
  Forall timestamp_ok es ->
  let st' := update_summary_tables job_id es st in
  jobs (db st') = jobs (db st)
  /\ logs (db st') = logs (db st)
  /\ job_metadata (db st') = job_metadata (db st)
  /\ tables_added job_id es (db st) (db st')
  /\ durable st' = db st' :: durable st
  /\ mem st' = mem st
  /\ requests st' = requests st.
Proof.
  intros Hall. unfold update_summary_tables.
  destruct (tally_spec job_id es empty_batches Hall) as [n ->].
  assert (Hgoal : let st1 := commit (with_db (apply_batches
            (mkBatches (incr_all (omap (key_class_level job_id) es) [])
                       (incr_all (omap (key_service_level job_id) es) [])
                       (incr_all (omap (key_timeline job_id) es) [])
                       (incr_all (omap (key_class_service job_id) es) []) n)) st) in
          jobs (db st1) = jobs (db st) /\ logs (db st1) = logs (db st)
          /\ job_metadata (db st1) = job_metadata (db st)
          /\ tables_added job_id es (db st) (db st1)
          /\ durable st1 = db st1 :: durable st /\ mem st1 = mem st
          /\ requests st1 = requests st).
  { simpl. split; [done|]. split; [done|]. split; [done|]. split; [|done].
    unfold tables_added; simpl.
    split; [|split; [|split]]; apply added_upsert_incr, omap_keys_job;
      eauto using key_class_level_job, key_service_level_job, key_class_service_job,
        key_timeline_job. }
  simpl in *. destruct (0 <? n)%nat; simpl; exact Hgoal.
Qed.

End Summary.

(** ** The loop of [process_log_file] *)

Section Loop.
Context `{Runtime}.

Lemma check_timestamp_ok (timestamp : json) (level : string) (invalid : bool) :
  check_timestamp timestamp = Some invalid -> hour_key timestamp level <> HourTypeError.
Proof.
  unfold check_timestamp, hour_key.
  destruct (truthy timestamp); simpl; [|done].
  destruct timestamp; try done.
  intros _. destruct (nonempty level); [|done]. by destruct (parse_timestamp s).
Qed.

Lemma parse_fields_timestamp_ok (line : string) (e : LogEntry) (m i : bool) :
  parse_fields line = Entry e m i -> timestamp_ok e.
Proof.
  unfold parse_fields, timestamp_ok.
  destruct (json_loads (strip line)) as [[]|]; try done.
  destruct (normalize_level _); [|done].
  destruct (extract_class _); try done;
    destruct (check_timestamp _) eqn:Hc; try done;
    intros [= <- <- <-]; simpl; eauto using check_timestamp_ok.
Qed.

Lemma parsed_items_timestamp_ok (lines : list string) (idx : nat) :
  Forall timestamp_ok (map snd (parsed_items idx lines)).
Proof.
  revert idx. induction lines as [|line lines IH]; intros idx; simpl; [constructor|].
  destruct (parse_fields line) eqn:Hp; simpl; auto.
  constructor; eauto using parse_fields_timestamp_ok.
Qed.

Lemma executemany_logs_ok (rows : list LogRow) (d : DB) :
  forallb bindable_row rows = true ->
  executemany_logs rows d
  = (mkDB (jobs d) (logs d ++ rows) (job_metadata d) (class_level_counts d)
          (service_level_counts d) (timeline_counts d) (class_service_counts d), true).
Proof.
  revert d. induction rows as [|r rows IH]; intros d; simpl.
  - intros _. rewrite app_nil_r. by destruct d.
  - intros [Hr Hrows]%andb_prop. rewrite Hr, IH by done. simpl.
    by rewrite <- app_assoc.
Qed.

Lemma executemany_logs_fail (rows : list LogRow) (d : DB) :
  forallb bindable_row rows = false ->
  let r := executemany_logs rows d in
  r.2 = false /\ jobs r.1 = jobs d /\ job_metadata r.1 = job_metadata d.
Proof.
  revert d. induction rows as [|r rows IH]; intros d; simpl; [done|].
  destruct (bindable_row r); simpl; [|done].
  intros Hrows. destruct (IH (set_logs (fun l => l ++ [r]) d) Hrows) as (? & ? & ?).
  done.
Qed.

Lemma same_markers_refl (d : DB) : same_markers d d.
Proof. by intros j f. Qed.

Lemma same_markers_trans (d0 d1 d2 : DB) :
  same_markers d0 d1 -> same_markers d1 d2 -> same_markers d0 d2.
Proof. unfold same_markers. intros H1 H2 j f. by rewrite H2, H1. Qed.

Lemma same_markers_eq (d0 d : DB) : job_metadata d = job_metadata d0 -> same_markers d0 d.
Proof. intros Heq j f. by rewrite Heq. Qed.

Lemma insert_names_markers (job_id : string) (cs ss : gset string) (d : DB) :
  same_markers d (insert_names job_id cs ss d).
Proof.
  intros j f. unfold insert_names, marker; simpl.
  rewrite !elem_of_union, !elem_of_map. split; [|tauto].
  intros [[?|(c & [=] & _)]|(s & [=] & _)]. done.
Qed.

(** A flush whose rows can all be bound. *)
Lemma flush_batch_ok (job_id : string) (loc : Locals) (st : State) :
  forallb bindable_row (log_batch loc) = true ->
  Forall timestamp_ok (log_entries loc) ->
  exists st' d1,
    flush_batch job_id loc st = (st', true)
    /\ batch_written job_id (log_batch loc) (log_entries loc) (db st) (db st')
    /\ batch_written job_id (log_batch loc) (log_entries loc) (db st) d1
    /\ durable st' = db st' :: d1 :: durable st
    /\ mem st' = mem st /\ requests st' = requests st.
Proof.
  intros Hb Hts. unfold flush_batch.
  rewrite executemany_logs_ok by done.
  set (st1 := with_db _ st).
  destruct (update_summary_tables_spec job_id (log_entries loc) st1 Hts)
    as (Hj & Hl & Hm & Ht & Hd & Hmem & Hreq).
  set (st2 := update_summary_tables job_id (log_entries loc) st1) in *.
  eexists _, (db st2). split; [done|].
  assert (Hw : batch_written job_id (log_batch loc) (log_entries loc) (db st) (db st2)).
  { split; [by rewrite Hl|]. split; [exact Ht|]. split; [|by rewrite Hj].
    apply same_markers_eq. by rewrite Hm. }
  split; [|split; [exact Hw|]].
  - destruct Hw as (Hw1 & Hw2 & Hw3 & Hw4).
    split; [done|]. split; [exact Hw2|]. split; [|done].
    eapply same_markers_trans; [exact Hw3|]. apply insert_names_markers.
  - simpl. rewrite Hd. done.
Qed.

(** A flush with a row that cannot be bound. *)
Lemma flush_batch_fail (job_id : string) (loc : Locals) (st : State) :
  forallb bindable_row (log_batch loc) = false ->
  let r := flush_batch job_id loc st in
  r.2 = false /\ jobs (db r.1) = jobs (db st) /\ job_metadata (db r.1) = job_metadata (db st)
  /\ durable r.1 = durable st /\ mem r.1 = mem st /\ requests r.1 = requests st
  /\ logger r.1 = logger st.
Proof.
  intros Hb. unfold flush_batch.
  destruct (executemany_logs_fail (log_batch loc) (db st) Hb) as (Hf & Hj & Hm).
  destruct (executemany_logs (log_batch loc) (db st)) as [d1 ok]. simpl in *. subst ok.
  done.
Qed.

Lemma set_row_status_idemp (s : Status) (J : gmap string JobRow) (job_id : string) :
  alter (set_row_status s) job_id (alter (set_row_status s) job_id J)
  = alter (set_row_status s) job_id J.
Proof.
  apply map_eq. intros i. destruct (decide (i = job_id)) as [->|Hne].
  - rewrite !lookup_alter_eq. by destruct (J !! job_id).
  - by rewrite !lookup_alter_ne.
Qed.

Lemma jobs_like_pause (job_id : string) (J0 J : gmap string JobRow) :
  jobs_like job_id J0 J -> jobs_like job_id J0 (alter (set_row_status PAUSED) job_id J).
Proof. intros [->| ->]; right; [done|]. apply set_row_status_idemp. Qed.

Lemma mem_like_pause (m0 m : JobState) : mem_like m0 m -> mem_like m0 (set_status PAUSED m).
Proof. intros [->| ->]; right; done. Qed.

(** An [await]: at most a pause of the job, committed at once. *)
Lemma yield_point_spec (job_id : string) (st : State) :
  let st' := yield_point job_id st in
  logs (db st') = logs (db st) /\ job_metadata (db st') = job_metadata (db st)
  /\ class_level_counts (db st') = class_level_counts (db st)
  /\ service_level_counts (db st') = service_level_counts (db st)
  /\ timeline_counts (db st') = timeline_counts (db st)
  /\ class_service_counts (db st') = class_service_counts (db st)
  /\ logger st' = logger st
  /\ ((jobs (db st') = jobs (db st) /\ mem st' = mem st /\ durable st' = durable st)
      \/ (jobs (db st') = alter (set_row_status PAUSED) job_id (jobs (db st))
          /\ mem st' = set_status PAUSED (mem st)
          /\ durable st' = db st' :: durable st)).
Proof.
  unfold yield_point. destruct (requests st) as [|[] rest]; simpl; try tauto.
  unfold pause_job; simpl. case_decide; simpl; tauto.
Qed.

End Loop.

#[export] Hint Resolve same_markers_refl : pipeline.

Section LoopInvariant.
Context `{Runtime}.
Variables (job_id file_path : string) (st0 : State).

Lemma tables_added_refl (d : DB) : tables_added job_id [] d d.
Proof. unfold tables_added; simpl. split; [|split; [|split]]; auto with pipeline. Qed.

#[local] Hint Resolve tables_added_refl : pipeline.

Lemma tables_added_trans (es1 es2 : list LogEntry) (d0 d1 d2 : DB) :
  tables_added job_id es1 d0 d1 -> tables_added job_id es2 d1 d2 ->
  tables_added job_id (es1 ++ es2) d0 d2.
Proof.
  intros (A1 & A2 & A3 & A4) (B1 & B2 & B3 & B4).
  unfold tables_added. rewrite !omap_app.
  split; [|split; [|split]]; eapply added_trans; eassumption.
Qed.

Lemma flushed_start : flushed job_id file_path (db st0) [] (db st0).
Proof.
  split; [simpl; by rewrite app_nil_r|]. split; [auto with pipeline|].
  split; [auto with pipeline|by left].
Qed.

Lemma flushed_batch (done pend : list (nat * LogEntry)) (d d' : DB) :
  flushed job_id file_path (db st0) done d ->
  batch_written job_id (map (item_row job_id file_path) pend) (map snd pend) d d' ->
  flushed job_id file_path (db st0) (done ++ pend) d'.
Proof.
  intros (Hl & Ht & Hm & Hj) (Hl' & Ht' & Hm' & Hj').
  split; [by rewrite Hl', Hl, map_app, app_assoc|].
  split; [rewrite map_app; eauto using tables_added_trans|].
  split; [eauto using same_markers_trans|by rewrite Hj'].
Qed.

Lemma flushed_yield (its : list (nat * LogEntry)) (st : State) :
  flushed job_id file_path (db st0) its (db st) ->
  flushed job_id file_path (db st0) its (db (yield_point job_id st)).
Proof.
  intros (Hl & Ht & Hm & Hj).
  destruct (yield_point_spec job_id st) as (Y1 & Y2 & Y3 & Y4 & Y5 & Y6 & _ & Y7).
  split; [by rewrite Y1|]. split.
  - unfold tables_added in *. by rewrite Y3, Y4, Y5, Y6.
  - split; [intros j f; rewrite Y2; apply Hm|].
    destruct Y7 as [(-> & _)|(-> & _)]; [done|by apply jobs_like_pause].
Qed.

Lemma loop_frame_mono (its its' : list (nat * LogEntry)) (st : State) :
  its `prefix_of` its' ->
  loop_frame job_id file_path st0 its st -> loop_frame job_id file_path st0 its' st.
Proof.
  intros Hpre (Hj & Hm & Hmk & news & Hd & Hall).
  split; [done|]. split; [done|]. split; [done|].
  exists news. split; [done|].
  eapply Forall_impl; [exact Hall|].
  intros d (pre & Hp & Hf). exists pre. split; [by etrans|done].
Qed.

Lemma loop_frame_same (its : list (nat * LogEntry)) (st st' : State) :
  jobs (db st') = jobs (db st) -> job_metadata (db st') = job_metadata (db st) ->
  durable st' = durable st -> mem st' = mem st ->
  loop_frame job_id file_path st0 its st -> loop_frame job_id file_path st0 its st'.
Proof.
  intros Ej Em Ed Emem (Hj & Hm & Hmk & news & Hd & Hall).
  split; [by rewrite Ej|]. split; [by rewrite Emem|].
  split; [intros j f; rewrite Em; apply Hmk|].
  exists news. by rewrite Ed.
Qed.

Lemma all_bindable_app (l1 l2 : list (nat * LogEntry)) :
  all_bindable job_id file_path (l1 ++ l2)
  = all_bindable job_id file_path l1 && all_bindable job_id file_path l2.
Proof. unfold all_bindable. apply forallb_app. Qed.

Lemma all_bindable_rows (its : list (nat * LogEntry)) :
  forallb bindable_row (map (item_row job_id file_path) its) = all_bindable job_id file_path its.
Proof. unfold all_bindable. induction its; simpl; [done|]. by rewrite IHits. Qed.

(** One line keeps the invariant. *)
Lemma line_body_inv (its : list (nat * LogEntry)) (idx : nat) (line : string)
    (ls : Locals * State) :
  Forall timestamp_ok (map snd its) ->
  loop_inv job_id file_path st0 its ls ->
  loop_inv job_id file_path st0
    (its ++ match parse_fields line with Entry e _ _ => [(idx, e)] | _ => [] end)
    (line_body file_path job_id (dirname file_path) (basename file_path) idx line ls).
Proof.
  intros Hts [Hframe Hgb]. destruct ls as [loc st]. simpl in Hframe, Hgb.
  unfold line_body.
  destruct (parse_fields line) as [|missing|e missing invalid] eqn:Hparse.
  - rewrite app_nil_r. split; [|done].
    eapply loop_frame_same; [..|exact Hframe]; done.
  - rewrite app_nil_r. split.
    + eapply loop_frame_same; [..|exact Hframe]; done.
    + simpl. destruct (all_bindable _ _ its); [|done].
      destruct Hgb as (done & pend & ? & ? & ? & ?). by exists done, pend.
  - set (it := (idx, e)).
    set (loc1 := append_entry _ e missing invalid loc).
    assert (Hlb : log_batch loc1 = log_batch loc ++ [item_row job_id file_path it]) by done.
    assert (Hle : log_entries loc1 = log_entries loc ++ [e]) by done.
    assert (Hpre : its `prefix_of` its ++ [it]) by apply prefix_app_r, reflexivity.
    (* the rows of the batch can be bound exactly when all rows so far can *)
    assert (Hbind : forallb bindable_row (log_batch loc1) = all_bindable job_id file_path (its ++ [it])).
    { rewrite Hlb, forallb_app, all_bindable_app. simpl.
      destruct (all_bindable _ _ its) eqn:Hall.
      - destruct Hgb as (done & pend & -> & -> & _).
        rewrite all_bindable_app in Hall. apply andb_prop in Hall as [_ Hp].
        rewrite all_bindable_rows, Hp. done.
      - rewrite Hgb. done. }
    destruct (batch_size <=? length (log_batch loc1))%nat eqn:Hfull.
    + destruct (all_bindable _ _ (its ++ [it])) eqn:Hall'.
      * (* the flush succeeds *)
        assert (Hall : all_bindable job_id file_path its = true).
        { rewrite all_bindable_app in Hall'. by apply andb_prop in Hall' as [? _]. }
        rewrite Hall in Hgb. destruct Hgb as (done & pend & Hits & Hpb & Hpe & Hfl).
        assert (Hts1 : Forall timestamp_ok (log_entries loc1)).
        { rewrite Hle, Hpe. apply Forall_app. split.
          - rewrite Hits, map_app in Hts. by apply Forall_app in Hts as [_ ?].
          - repeat constructor. eauto using parse_fields_timestamp_ok. }
        destruct (flush_batch_ok job_id loc1 st Hbind Hts1)
          as (st1 & d1 & -> & Hw & Hw1 & Hd1 & Hm1 & Hr1).
        assert (Hrows : log_batch loc1 = map (item_row job_id file_path) (pend ++ [it])).
        { by rewrite Hlb, Hpb, map_app. }
        assert (Hents : log_entries loc1 = map snd (pend ++ [it])).
        { by rewrite Hle, Hpe, map_app. }
        rewrite Hrows, Hents in Hw, Hw1.
        assert (Hf1 : flushed job_id file_path (db st0) (its ++ [it]) (db st1)).
        { rewrite Hits, <- app_assoc. eapply flushed_batch; eauto. }
        assert (Hfd : flushed job_id file_path (db st0) (its ++ [it]) d1).
        { rewrite Hits, <- app_assoc. eapply flushed_batch; eauto. }
        pose proof (flushed_yield _ _ Hf1) as Hfy.
        destruct (yield_point_spec job_id st1) as (Y1 & Y2 & Y3 & Y4 & Y5 & Y6 & _ & Y7).
        destruct Hframe as (Hj & Hm & Hmk & news & Hd & Hnews).
        split; simpl.
        -- split; [apply Hfy|]. split.
           { destruct Y7 as [(_ & -> & _)|(_ & -> & _)]; rewrite Hm1;
               [done|by apply mem_like_pause]. }
           split; [apply Hfy|].
           assert (Hold : Forall (fun d => exists pre, pre `prefix_of` its ++ [it]
                     /\ flushed job_id file_path (db st0) pre d) news).
           { eapply Forall_impl; [exact Hnews|].
             intros d (pre & Hp & Hf). exists pre. split; [by etrans|done]. }
           destruct Y7 as [(_ & _ & ->)|(_ & _ & ->)]; rewrite Hd1, Hd.
           ++ exists (db st1 :: d1 :: news). split; [done|].
              repeat constructor; eauto.
           ++ exists (db (yield_point job_id st1) :: db st1 :: d1 :: news). split; [done|].
              repeat constructor; eauto.
        -- rewrite Hall'. exists (its ++ [it]), []. rewrite app_nil_r. done.
      * (* the flush fails *)
        destruct (flush_batch_fail job_id loc1 st Hbind) as (Hf & Fj & Fm & Fd & Fmem & _).
        destruct (flush_batch job_id loc1 st) as [st1 ok]. simpl in *. subst ok.
        split; simpl.
        -- eapply loop_frame_mono; [exact Hpre|].
           eapply loop_frame_same; [..|exact Hframe]; done.
        -- by rewrite Hall'.
    + split; simpl.
      * by eapply loop_frame_mono.
      * destruct (all_bindable _ _ (its ++ [it])) eqn:Hall'; [|done].
        assert (Hall : all_bindable job_id file_path its = true).
        { rewrite all_bindable_app in Hall'. by apply andb_prop in Hall' as [? _]. }
        rewrite Hall in Hgb. destruct Hgb as (done & pend & Hits & Hpb & Hpe & Hfl).
        exists done, (pend ++ [it]).
        rewrite Hits, <- app_assoc, Hlb, Hle, Hpb, Hpe, !map_app. done.
Qed.

Lemma parsed_items_cons (idx : nat) (line : string) (lines : list string) :
  parsed_items idx (line :: lines)
  = match parse_fields line with Entry e _ _ => [(idx, e)] | _ => [] end
    ++ parsed_items (S idx) lines.
Proof. simpl. by destruct (parse_fields line). Qed.

(** The whole loop keeps the invariant. *)
Lemma for_lines_inv (lines : list string) (its : list (nat * LogEntry)) (idx : nat)
    (ls : Locals * State) :
  Forall timestamp_ok (map snd its) ->
  loop_inv job_id file_path st0 its ls ->
  loop_inv job_id file_path st0 (its ++ parsed_items idx lines)
    (for_lines file_path job_id (dirname file_path) (basename file_path) idx lines ls).
Proof.
  revert its idx ls. induction lines as [|line lines IH]; intros its idx ls Hts Hinv.
  - simpl. by rewrite app_nil_r.
  - rewrite parsed_items_cons, app_assoc. simpl for_lines. apply IH.
    + rewrite map_app. apply Forall_app. split; [done|].
      destruct (parse_fields line) eqn:Hp; simpl; repeat constructor.
      eauto using parse_fields_timestamp_ok.
    + by apply line_body_inv.
Qed.

Lemma loop_inv_start : loop_inv job_id file_path st0 [] (init_locals, st0).
Proof.
  split; simpl.
  - split; [by left|]. split; [by left|]. split; [apply same_markers_refl|].
    exists []. split; [done|constructor].
  - exists [], []. split; [done|]. split; [done|]. split; [done|]. apply flushed_start.
Qed.

End LoopInvariant.

(** ** [process_log_file] as a whole *)

Section File.
Context `{Runtime}.

(** The function returns exactly when the reader ends normally, every row
    can be bound and the marker is new; then the database holds the whole
    file and its marker, and that state is the last one committed.  In any
    case the states committed on the way hold a prefix of the file and no
    marker of it. *)
Lemma process_log_file_spec (file_path job_id : string) (lines : list string)
    (broken : bool) (st : State) :
  let its := parsed_items 0 lines in
  let r := process_log_file file_path job_id (lines, broken) st in
  mem_like (mem st) (mem r.1)
  /\ jobs_like job_id (jobs (db st)) (jobs (db r.1))
  /\ (r.2 = true <-> broken = false /\ all_bindable job_id file_path its = true
                     /\ marker job_id file_path ∉ job_metadata (db st))
  /\ exists mids,
       Forall (fun d => exists pre, pre `prefix_of` its
                          /\ flushed job_id file_path (db st) pre d) mids
       /\ if r.2
          then durable r.1 = db r.1 :: mids ++ durable st
               /\ file_done job_id file_path (db st) its (db r.1)
          else durable r.1 = mids ++ durable st.
Proof.
  intros its r. subst r. unfold process_log_file. simpl fst; simpl snd.
  pose proof (for_lines_inv job_id file_path st lines [] 0 (init_locals, st)
                (Forall_nil_2 _) (loop_inv_start job_id file_path st)) as Hinv.
  simpl app in Hinv. fold its in Hinv.
  destruct (for_lines _ _ _ _ 0 lines (init_locals, st)) as [loc st1].
  destruct Hinv as [(Hj & Hm & Hmk & news & Hd & Hnews) Hgb]. simpl in Hj, Hm, Hmk, Hd, Hgb.
  destruct broken.
  { simpl. split; [done|]. split; [done|]. split; [intuition congruence|]. by exists news. }
  destruct (all_bindable job_id file_path its) eqn:Hall.
  - (* every row can be bound *)
    destruct Hgb as (done & pend & Hits & Hpb & Hpe & Hfl).
    assert (Hflush : exists st2 extra,
               (match log_batch loc with
                | [] => (st1, true)
                | _ :: _ => flush_batch job_id loc st1
                end) = (st2, true)
               /\ flushed job_id file_path (db st) its (db st2)
               /\ mem st2 = mem st1
               /\ durable st2 = extra ++ durable st1
               /\ Forall (fun d => flushed job_id file_path (db st) its d) extra).
    { destruct pend as [|p pend].
      - rewrite Hpb. simpl. exists st1, []. rewrite app_nil_r in Hits. subst done.
        split; [done|]. split; [exact Hfl|]. split; [done|]. split; [done|constructor].
      - assert (Hb : forallb bindable_row (log_batch loc) = true).
        { rewrite Hpb, all_bindable_rows. rewrite Hits, all_bindable_app in Hall.
          by apply andb_prop in Hall as [_ ?]. }
        assert (Hts : Forall timestamp_ok (log_entries loc)).
        { rewrite Hpe. pose proof (parsed_items_timestamp_ok lines 0) as Hp.
          fold its in Hp. rewrite Hits, map_app in Hp. by apply Forall_app in Hp as [_ ?]. }
        destruct (flush_batch_ok job_id loc st1 Hb Hts)
          as (st2 & d1 & Hfb & Hw & Hw1 & Hd2 & Hm2 & _).
        rewrite Hpb, Hpe in Hw, Hw1.
        destruct (log_batch loc) eqn:Hlb; [done|]. rewrite Hfb.
        exists st2, [db st2; d1]. rewrite Hits.
        split; [done|]. split; [eapply flushed_batch; eauto|]. split; [done|].
        split; [done|].
        constructor; [eapply flushed_batch; eauto|].
        constructor; [eapply flushed_batch; eauto|constructor]. }
    destruct Hflush as (st2 & extra & -> & Hf2 & Hm2 & Hd2 & Hextra).
    assert (Hmk2 : marker job_id file_path ∈ job_metadata (db st2)
                   <-> marker job_id file_path ∈ job_metadata (db st)).
    { destruct Hf2 as (_ & _ & Hs & _). apply Hs. }
    assert (Hmids : Forall (fun d => exists pre, pre `prefix_of` its
                              /\ flushed job_id file_path (db st) pre d) (extra ++ news)).
    { apply Forall_app. split; [|done].
      eapply Forall_impl; [exact Hextra|]. intros d Hf. by exists its. }
    destruct (decide (marker job_id file_path ∈ job_metadata (db st2))) as [Hin|Hnin]; simpl.
    + split; [by rewrite Hm2|]. split; [apply Hf2|]. split; [intuition congruence|].
      exists (extra ++ news). split; [done|]. by rewrite Hd2, Hd, app_assoc.
    + split; [by rewrite Hm2|]. split; [apply Hf2|]. split; [intuition congruence|].
      exists (extra ++ news). split; [done|]. split; [by rewrite Hd2, Hd, app_assoc|].
      destruct Hf2 as (Hl & Ht & Hs & Hjl).
      split; [done|]. split; [done|]. split; [|done].
      intros j f. simpl. rewrite elem_of_union, elem_of_singleton, (Hs j f). unfold marker.
      split; [intros [?|[= -> ->]]; auto|intros [?|[-> ->]]; auto].
  - (* some row cannot be bound: the last flush raises *)
    destruct (flush_batch_fail job_id loc st1 Hgb) as (Hf & Fj & Fm & Fd & Fmem & _).
    destruct (log_batch loc) as [|r0 rest] eqn:Hlb; [done|].
    destruct (flush_batch job_id loc st1) as [st2 ok]. simpl in *. subst ok. simpl.
    split; [by rewrite Fmem|]. split; [by rewrite Fj|]. split; [intuition congruence|].
    exists news. split; [done|]. by rewrite Fd.
Qed.

End File.

(** ** The loop over the files *)

Section Files.
Context `{Runtime} `{Storage}.
Variables (job_id : string) (is_bucket : bool).

Lemma jobs_like_is_Some (J0 J : gmap string JobRow) :
  jobs_like job_id J0 J -> (is_Some (J !! job_id) <-> is_Some (J0 !! job_id)).
Proof.
  intros [->| ->]; [done|]. rewrite lookup_alter_eq. by rewrite fmap_is_Some.
Qed.

Lemma jobs_like_counters (J0 J : gmap string JobRow) :
  jobs_like job_id J0 J -> counters_of job_id J = counters_of job_id J0.
Proof.
  intros [->| ->]; [done|]. unfold counters_of. rewrite lookup_alter_eq.
  by destruct (J0 !! job_id).
Qed.

Lemma rows_of_files_app (l1 l2 : list string) :
  rows_of_files job_id is_bucket (l1 ++ l2)
  = rows_of_files job_id is_bucket l1 ++ rows_of_files job_id is_bucket l2.
Proof. unfold rows_of_files. apply flat_map_app. Qed.

Lemma entries_of_files_app (l1 l2 : list string) :
  entries_of_files is_bucket (l1 ++ l2)
  = entries_of_files is_bucket l1 ++ entries_of_files is_bucket l2.
Proof. unfold entries_of_files. apply flat_map_app. Qed.

Lemma progress_refl (d0 : DB) (f : string) : progress job_id is_bucket d0 [] f [] d0.
Proof.
  split; [simpl; by rewrite app_nil_r|]. split; [apply tables_added_refl|].
  split; [|done]. intros j g. split; [auto|]. intros [?|[_ Hg]]; [done|].
  by apply elem_of_nil in Hg.
Qed.

(** Writes to the [jobs] row of the job do not matter to [progress]. *)
Lemma progress_update_job (d0 d : DB) (done : list string) (f : string)
    (pre : list (nat * LogEntry)) (g : JobRow -> JobRow) :
  progress job_id is_bucket d0 done f pre d ->
  progress job_id is_bucket d0 done f pre (update_job job_id g d).
Proof.
  intros (Hl & Ht & Hm & Hj). split; [done|]. split; [done|]. split; [done|].
  simpl. rewrite lookup_alter_eq, fmap_is_Some. done.
Qed.

Lemma progress_of_flushed (d0 d : DB) (f : string) (pre : list (nat * LogEntry)) :
  flushed job_id f d0 pre d -> progress job_id is_bucket d0 [] f pre d.
Proof.
  intros (Hl & Ht & Hm & Hj). split; [done|]. split; [done|].
  split; [|by apply jobs_like_is_Some].
  intros j g. rewrite (Hm j g). split; [auto|]. intros [?|[_ Hg]]; [done|].
  by apply elem_of_nil in Hg.
Qed.

Lemma progress_of_file_done (d0 d : DB) (f g : string) :
  file_done job_id f d0 (read_items is_bucket f) d ->
  progress job_id is_bucket d0 [f] g [] d.
Proof.
  intros (Hl & Ht & Hm & Hj).
  split; [simpl; by rewrite !app_nil_r|].
  split; [unfold entries_of_files; simpl; by rewrite !app_nil_r|].
  split; [|by apply jobs_like_is_Some].
  intros j k. rewrite (Hm j k), list_elem_of_singleton. done.
Qed.

(** Progress after a first file and progress from there add up. *)
Lemma progress_shift (d0 d1 d : DB) (f f1 g : string) (done : list string)
    (pre : list (nat * LogEntry)) :
  progress job_id is_bucket d0 [f] f1 [] d1 ->
  progress job_id is_bucket d1 done g pre d ->
  progress job_id is_bucket d0 (f :: done) g pre d.
Proof.
  intros (Hl1 & Ht1 & Hm1 & Hj1) (Hl & Ht & Hm & Hj).
  split.
  { rewrite Hl, Hl1. change (f :: done) with ([f] ++ done).
    rewrite rows_of_files_app. simpl. by rewrite !app_nil_r, <- !app_assoc. }
  split.
  { change (f :: done) with ([f] ++ done). rewrite entries_of_files_app, <- app_assoc.
    simpl in Ht1. rewrite app_nil_r in Ht1. eapply tables_added_trans; eassumption. }
  split; [|by rewrite Hj, Hj1].
  intros j k. rewrite (Hm j k), (Hm1 j k), list_elem_of_singleton, elem_of_cons. tauto.
Qed.

End Files.

Section FilesLoop.
Context `{Runtime} `{Storage}.
Variables (job_id : string) (is_bucket : bool).

Lemma progress_no_items (d0 d : DB) (done : list string) (f g : string) :
  progress job_id is_bucket d0 done f [] d -> progress job_id is_bucket d0 done g [] d.
Proof. intros Hp. exact Hp. Qed.

Lemma snapshot_ok_shift (d0 d1 d : DB) (f f1 : string) (todo : list string) :
  progress job_id is_bucket d0 [f] f1 [] d1 ->
  snapshot_ok job_id is_bucket d1 todo d ->
  snapshot_ok job_id is_bucket d0 (f :: todo) d.
Proof.
  intros Hp (done & rest & pre & -> & Hpre & Hprog).
  exists (f :: done), rest, pre. split; [done|]. split; [done|].
  eapply progress_shift; eassumption.
Qed.

Lemma read_items_open (f : string) (lines : list string) (broken : bool) :
  open_source is_bucket f = Some (lines, broken) ->
  read_items is_bucket f = parsed_items 0 lines.
Proof. intros Ho. unfold read_items. by rewrite Ho. Qed.

(** The loop, from any state: the files it got through, the states it
    committed, the counters, and what each exit leaves. *)
Lemma process_files_spec (processed : gset string) (log_files : list string)
    (st st' : State) (exit : LoopExit) :
  process_files job_id is_bucket processed log_files st = (st', exit) ->
  exists done rest news,
    filter (fun f => f ∉ processed) log_files = done ++ rest
    /\ durable st' = news ++ durable st
    /\ Forall (snapshot_ok job_id is_bucket (db st)
                 (filter (fun f => f ∉ processed) log_files)) news
    /\ m_files_processed (mem st') = (m_files_processed (mem st) + length done)%nat
    /\ m_total_files (mem st') = m_total_files (mem st)
    /\ Forall (file_ok job_id is_bucket) done
    /\ (forall f, f ∈ done -> marker job_id f ∉ job_metadata (db st))
    /\ NoDup done
    /\ match exit with
       | LoopDone => rest = [] /\ progress job_id is_bucket (db st) done "" [] (db st')
       | LoopPaused => rest <> [] /\ progress job_id is_bucket (db st) done "" [] (db st')
                       /\ paused_at job_id st'
       | LoopRaised => rest <> []
       end.
Proof.
  revert st. induction log_files as [|f files IH]; intros st Hrun.
  { injection Hrun as <- <-. exists [], [], []. simpl.
    split; [done|]. split; [done|]. split; [constructor|]. split; [lia|]. split; [done|].
    split; [constructor|]. split; [intros g Hg; by apply elem_of_nil in Hg|].
    split; [constructor|]. split; [done|apply progress_refl]. }
  simpl in Hrun. rewrite filter_cons.
  destruct (decide (f ∈ processed)) as [Hin|Hnin].
  { rewrite decide_False by (intros Hn; by apply Hn). by apply IH. }
  rewrite decide_True by done.
  set (todo := filter (fun f => f ∉ processed) files) in *.
  destruct (decide (m_status (mem st) = PAUSED)) as [Hp|Hnp].
  { (* the pause check *)
    injection Hrun as <- <-. exists [], (f :: todo). eexists [_]. simpl.
    split; [done|]. split; [done|]. split.
    { constructor; [|constructor]. exists [], (f :: todo), []. split; [done|].
      split; [apply prefix_nil|]. apply progress_update_job, progress_refl. }
    split; [lia|]. split; [done|]. split; [constructor|].
    split; [intros g Hg; by apply elem_of_nil in Hg|]. split; [constructor|].
    split; [done|]. split; [apply progress_update_job, progress_refl|].
    split; [done|]. split; [by eexists|].
    intros row. updated_row. }
  destruct (open_source is_bucket f) as [[lines broken]|] eqn:Hopen.
  2:{ injection Hrun as <- <-. exists [], (f :: todo), []. simpl.
      split; [done|]. split; [done|]. split; [constructor|]. split; [lia|]. split; [done|].
      split; [constructor|]. split; [intros g Hg; by apply elem_of_nil in Hg|].
      split; [constructor|done]. }
  destruct (process_log_file_spec f job_id lines broken st)
    as (Hmem & Hjobs & Hok & mids & Hmids & Hres).
  destruct (process_log_file f job_id (lines, broken) st) as [st1 ok] eqn:Hfile.
  simpl in Hmem, Hjobs, Hok, Hres.
  assert (Hsnap : Forall (snapshot_ok job_id is_bucket (db st) (f :: todo)) mids).
  { eapply Forall_impl; [exact Hmids|]. intros d (pre & Hpre & Hfl).
    exists [], (f :: todo), pre. split; [done|].
    split; [simpl; by rewrite (read_items_open _ _ _ Hopen)|].
    by apply progress_of_flushed. }
  assert (Hcount : m_files_processed (mem st1) = m_files_processed (mem st)
                   /\ m_total_files (mem st1) = m_total_files (mem st)).
  { by destruct Hmem as [->| ->]. }
  destruct ok.
  2:{ (* the file raised *)
      injection Hrun as <- <-. exists [], (f :: todo), mids. simpl.
      split; [done|]. split; [done|]. split; [done|]. split; [lia|]. split; [tauto|].
      split; [constructor|]. split; [intros g Hg; by apply elem_of_nil in Hg|].
      split; [constructor|done]. }
  (* the file is done *)
  destruct Hres as [Hd1 Hdone].
  destruct Hok as [Hok _]. destruct (Hok eq_refl) as (-> & Hbind & Hfresh).
  rewrite <- (read_items_open _ _ _ Hopen) in Hdone.
  set (st3 := commit (with_db _ (with_mem _ st1))) in Hrun.
  assert (Hp1 : progress job_id is_bucket (db st) [f] "" [] (db st1))
    by by apply progress_of_file_done.
  assert (Hp3 : progress job_id is_bucket (db st) [f] "" [] (db st3))
    by apply progress_update_job, Hp1.
  destruct (IH st3 Hrun)
    as (done & rest & news & Htodo & Hd & Hnews & Hfp & Htot & Hfok & Hfr & Hnd & Hexit).
  fold todo in Htodo, Hnews.
  assert (Hmark3 : marker job_id f ∈ job_metadata (db st3)).
  { destruct Hp3 as (_ & _ & Hm & _). apply Hm. right. split; [done|]. by left. }
  exists (f :: done), rest, (news ++ db st3 :: db st1 :: mids).
  split; [simpl; by rewrite Htodo|].
  split; [rewrite Hd; simpl; rewrite Hd1, <- !app_assoc; done|].
  split.
  { apply Forall_app. split.
    - eapply Forall_impl; [exact Hnews|]. intros d. by apply snapshot_ok_shift with (f1 := "").
    - constructor; [|constructor; [|done]].
      + exists [f], todo, []. split; [done|]. split; [apply prefix_nil|].
        exact (progress_no_items _ _ _ _ _ Hp3).
      + exists [f], todo, []. split; [done|]. split; [apply prefix_nil|].
        exact (progress_no_items _ _ _ _ _ Hp1). }
  split; [rewrite Hfp; simpl; lia|].
  split; [rewrite Htot; simpl; tauto|].
  split; [constructor; [by exists lines|done]|].
  assert (Hold : forall g, g ∈ done -> g <> f /\ marker job_id g ∉ job_metadata (db st)).
  { intros g Hg. pose proof (Hfr g Hg) as Hng. split.
    - intros ->. done.
    - intros Hin. apply Hng. destruct Hp3 as (_ & _ & Hm & _). apply Hm. by left. }
  split.
  { intros g [->|Hg]%elem_of_cons; [done|]. by apply Hold. }
  split.
  { constructor; [|done]. intros Hf. by destruct (Hold f Hf). }
  destruct exit.
  - destruct Hexit as [-> Hpr]. split; [done|]. eapply progress_shift; eassumption.
  - destruct Hexit as (Hne & Hpr & Hpa). split; [done|]. split; [|done].
    eapply progress_shift; eassumption.
  - done.
Qed.

End FilesLoop.

(** ** Frames: what a file leaves alone *)

Section Frames.
Context `{Runtime} `{Storage}.
Variables (job_id : string) (is_bucket : bool).

Lemma flush_batch_quiet (loc : Locals) (st : State) :
  mem (flush_batch job_id loc st).1 = mem st
  /\ requests (flush_batch job_id loc st).1 = requests st.
Proof.
  unfold flush_batch. destruct (executemany_logs _ _) as [d1 []]; simpl; [|done].
  unfold update_summary_tables. destruct (tally _ _ _); simpl; [|done].
  by destruct (0 <? _)%nat.
Qed.

Lemma line_body_quiet (file_path folder file_name : string) (idx : nat) (line : string)
    (ls : Locals * State) :
  requests ls.2 = [] ->
  let ls' := line_body file_path job_id folder file_name idx line ls in
  requests ls'.2 = [] /\ mem ls'.2 = mem ls.2.
Proof.
  destruct ls as [loc st]. cbn [fst snd]. intros Hq. unfold line_body.
  destruct (parse_fields line) as [|missing|e missing invalid]; cbn [fst snd]; try done.
  set (loc1 := append_entry _ e missing invalid loc).
  destruct (batch_size <=? length (log_batch loc1))%nat; cbn [fst snd]; [|done].
  pose proof (flush_batch_quiet loc1 st) as [Hm Hr].
  destruct (flush_batch job_id loc1 st) as [st1 []]; cbn [fst snd] in *.
  - unfold yield_point. rewrite Hr, Hq. by rewrite Hr, Hq.
  - simpl. by rewrite Hr, Hm.
Qed.

Lemma for_lines_quiet (file_path folder file_name : string) (lines : list string)
    (idx : nat) (ls : Locals * State) :
  requests ls.2 = [] ->
  let ls' := for_lines file_path job_id folder file_name idx lines ls in
  requests ls'.2 = [] /\ mem ls'.2 = mem ls.2.
Proof.
  revert idx ls. induction lines as [|line lines IH]; intros idx ls Hq; simpl; [done|].
  destruct (line_body_quiet file_path folder file_name idx line ls Hq) as [Hq1 Hm1].
  destruct (IH (S idx) _ Hq1) as [Hq2 Hm2]. by rewrite Hm2.
Qed.

(** With no request pending, a file leaves the in-memory state alone. *)
Lemma process_log_file_quiet (file_path : string) (source : list string * bool)
    (st : State) :
  requests st = [] ->
  let r := process_log_file file_path job_id source st in
  requests r.1 = [] /\ mem r.1 = mem st.
Proof.
  intros Hq. unfold process_log_file.
  pose proof (for_lines_quiet file_path (dirname file_path) (basename file_path)
                source.1 0 (init_locals, st) Hq) as Hl.
  destruct (for_lines _ _ _ _ _ _ _) as [loc st1]. simpl in Hl. destruct Hl as [Hq1 Hm1].
  destruct source.2; simpl; [done|].
  assert (Hf : let x := match log_batch loc with
                        | [] => (st1, true)
                        | _ :: _ => flush_batch job_id loc st1
                        end in requests x.1 = [] /\ mem x.1 = mem st).
  { destruct (log_batch loc); simpl; [done|].
    destruct (flush_batch_quiet loc st1) as [-> ->]. done. }
  destruct (match log_batch loc with [] => _ | _ => _ end) as [st2 []]; simpl in *; [|done].
  by destruct (decide _).
Qed.

(** The counters of the row and of the in-memory state stay in step, and
    committed, across a file, whatever its outcome. *)
Lemma process_log_file_synced (file_path : string) (lines : list string) (broken : bool)
    (st : State) :
  synced job_id st ->
  synced job_id (process_log_file file_path job_id (lines, broken) st).1.
Proof.
  intros [Hrow (d & older & Hd & Hc)].
  destruct (process_log_file_spec file_path job_id lines broken st)
    as (Hmem & Hjobs & _ & mids & Hmids & Hres).
  set (r := process_log_file file_path job_id (lines, broken) st) in *.
  pose proof (jobs_like_counters job_id _ _ Hjobs) as Hcnt.
  split.
  - intros row Hr. unfold counters_of in Hcnt. rewrite Hr in Hcnt. simpl in Hcnt.
    destruct (jobs (db st) !! job_id) as [row0|] eqn:Hr0; [|done].
    injection Hcnt as H1 H2. destruct (Hrow row0 eq_refl) as [H3 H4].
    destruct Hmem as [->| ->]; simpl; split; congruence.
  - destruct r.2.
    + destruct Hres as [-> _]. by eexists _, _.
    + rewrite Hres. destruct mids as [|m mids]; simpl.
      * exists d, older. split; [done|]. by rewrite Hcnt.
      * exists m, (mids ++ durable st). split; [done|].
        apply Forall_cons_1 in Hmids as [(pre & _ & _ & _ & _ & Hj) _].
        rewrite Hcnt. by apply jobs_like_counters.
Qed.

Lemma process_files_synced (processed : gset string) (log_files : list string)
    (st st' : State) (exit : LoopExit) :
  synced job_id st ->
  process_files job_id is_bucket processed log_files st = (st', exit) ->
  synced job_id st'.
Proof.
  revert st. induction log_files as [|f files IH]; intros st Hs Hrun; simpl in Hrun.
  { by injection Hrun as <- <-. }
  destruct (decide (f ∈ processed)); [by eapply IH|].
  destruct (decide (m_status (mem st) = PAUSED)).
  { injection Hrun as <- <-. destruct Hs as [Hrow _]. split.
    - intros row. unfold update_job; simpl. rewrite lookup_alter_eq.
      destruct (jobs (db st) !! job_id) as [row0|] eqn:Hr0; intros [= <-]; simpl.
      destruct (Hrow row0 eq_refl). done.
    - by eexists _, _. }
  destruct (open_source is_bucket f) as [[lines broken]|]; [|by injection Hrun as <- <-].
  pose proof (process_log_file_synced f lines broken st Hs) as Hs1.
  destruct (process_log_file f job_id (lines, broken) st) as [st1 []]; simpl in Hs1;
    [|by injection Hrun as <- <-].
  eapply IH; [|exact Hrun]. destruct Hs1 as [Hrow _]. split.
  - intros row. unfold update_job; simpl. rewrite lookup_alter_eq.
    destruct (jobs (db st1) !! job_id) as [row0|] eqn:Hr0; intros [= <-]; simpl.
    destruct (Hrow row0 eq_refl). done.
  - by eexists _, _.
Qed.

(** With no request pending and the job not paused, the loop gets through
    every file that can be processed and whose marker is new. *)
Lemma process_files_completes (processed : gset string) (log_files : list string)
    (st : State) :
  requests st = [] ->
  m_status (mem st) <> PAUSED ->
  Forall (file_ok job_id is_bucket) (filter (fun f => f ∉ processed) log_files) ->
  NoDup (filter (fun f => f ∉ processed) log_files) ->
  (forall f, f ∈ filter (fun f => f ∉ processed) log_files ->
             marker job_id f ∉ job_metadata (db st)) ->
  exists st', process_files job_id is_bucket processed log_files st = (st', LoopDone).
Proof.
  revert st. induction log_files as [|f files IH]; intros st Hq Hnp Hok Hnd Hfresh; simpl.
  { by eexists. }
  rewrite filter_cons in Hok, Hnd, Hfresh.
  destruct (decide (f ∈ processed)) as [Hin|Hnin].
  { rewrite decide_False in Hok, Hnd, Hfresh by (intros Hn; by apply Hn). by apply IH. }
  rewrite decide_True in Hok, Hnd, Hfresh by done.
  rewrite decide_False by done.
  apply Forall_cons_1 in Hok as [(lines & Hopen & Hbind) Hok].
  apply NoDup_cons in Hnd as [Hnf Hnd].
  rewrite Hopen.
  destruct (process_log_file_spec f job_id lines false st) as (_ & _ & Hiff & mids & _ & Hres).
  destruct (process_log_file_quiet f (lines, false) st Hq) as [Hq1 Hm1].
  destruct (process_log_file f job_id (lines, false) st) as [st1 ok]. simpl in *.
  assert (ok = true) as ->.
  { apply Hiff. split; [done|]. split; [done|]. apply Hfresh. by left. }
  destruct Hres as [_ (_ & _ & Hm & _)].
  apply IH; simpl; try done.
  - by rewrite Hm1.
  - intros g Hg Hin. apply (Hm job_id g) in Hin as [Hin|[_ ->]]; [|done].
    revert Hin. apply Hfresh. by right.
Qed.

End Frames.

(** ** Ledger and round trip *)

Section Ledger.
Context `{Runtime} `{Storage}.
Variables (job_id : string) (is_bucket : bool).

Lemma elem_of_ledger (d : DB) (f : string) :
  f ∈ ledger job_id d <-> marker job_id f ∈ job_metadata d.
Proof.
  unfold ledger, marker. rewrite elem_of_set_omap. split.
  - intros ([[j t] v] & Hin & Hk). simpl in Hk.
    destruct (decide (j = job_id /\ t = "processed_file")) as [[-> ->]|]; [|done].
    by injection Hk as ->.
  - intros Hin. exists (job_id, "processed_file", f). split; [done|]. simpl.
    by rewrite decide_True.
Qed.

(** The ledger after some files is the ledger before with these files. *)
Lemma progress_ledger (d0 d : DB) (done : list string) (f : string)
    (pre : list (nat * LogEntry)) :
  progress job_id is_bucket d0 done f pre d ->
  NoDup done ->
  (forall g, g ∈ done -> marker job_id g ∉ job_metadata d0) ->
  (forall g, g ∈ ledger job_id d <-> g ∈ ledger job_id d0 \/ g ∈ done)
  /\ size (ledger job_id d) = (size (ledger job_id d0) + length done)%nat.
Proof.
  intros (_ & _ & Hm & _) Hnd Hfresh.
  assert (Hiff : forall g, g ∈ ledger job_id d <-> g ∈ ledger job_id d0 \/ g ∈ done).
  { intros g. rewrite !elem_of_ledger, (Hm job_id g). tauto. }
  split; [done|].
  assert (Heq : ledger job_id d = ledger job_id d0 ∪ list_to_set done).
  { apply set_eq. intros g. rewrite Hiff, elem_of_union, elem_of_list_to_set. done. }
  rewrite Heq, size_union, size_list_to_set by
    (try done; intros g Hg Hd%elem_of_list_to_set; apply elem_of_ledger in Hg;
     by apply (Hfresh g)).
  done.
Qed.

Lemma entry_of_item_row (f : string) (it : nat * LogEntry) :
  entry_of_row (item_row job_id f it) = it.2.
Proof. by destruct it as [i []]. Qed.

Lemma counted_app (key : string -> LogEntry -> option Key) (l1 l2 : list LogRow) :
  counted key job_id (l1 ++ l2) = counted key job_id l1 + counted key job_id l2.
Proof. unfold counted. rewrite filter_app, length_app. lia. Qed.

Lemma counted_items (key : string -> LogEntry -> option Key) (f : string)
    (its : list (nat * LogEntry)) :
  counted key job_id (map (item_row job_id f) its)
  = Z.of_nat (length (omap (key job_id) (map snd its))).
Proof.
  unfold counted. f_equal.
  induction its as [|it its IH]; [done|].
  cbn [map omap list_omap]. rewrite filter_cons, entry_of_item_row.
  destruct (key job_id it.2) eqn:Hk.
  - rewrite decide_True by (split; [done|by eexists]). simpl. by rewrite IH.
  - rewrite decide_False by (intros [_ [? ?]]; done). done.
Qed.

Lemma counted_files (key : string -> LogEntry -> option Key) (files : list string) :
  counted key job_id (rows_of_files job_id is_bucket files)
  = Z.of_nat (length (omap (key job_id) (entries_of_files is_bucket files))).
Proof.
  induction files as [|f files IH]; [done|].
  unfold rows_of_files, entries_of_files in *. simpl.
  rewrite counted_app, omap_app, length_app, IH, counted_items. lia.
Qed.

(** The round trip holds after whole files if it held before. *)
Lemma progress_round_trip (d0 d : DB) (done : list string) (f : string) :
  progress job_id is_bucket d0 done f [] d ->
  round_trip job_id d0 -> round_trip job_id d.
Proof.
  intros (Hl & (T1 & T2 & T3 & T4) & _) (R1 & R2 & R3 & R4).
  simpl in Hl. rewrite !app_nil_r in *.
  unfold round_trip. rewrite Hl, !counted_app, !counted_files.
  destruct T1 as [_ ->], T2 as [_ ->], T3 as [_ ->], T4 as [_ ->].
  rewrite R1, R2, R3, R4. done.
Qed.

Lemma round_trip_same (d0 d : DB) :
  logs d = logs d0 -> class_level_counts d = class_level_counts d0 ->
  service_level_counts d = service_level_counts d0 ->
  class_service_counts d = class_service_counts d0 ->
  timeline_counts d = timeline_counts d0 ->
  round_trip job_id d0 -> round_trip job_id d.
Proof. unfold round_trip. by intros -> -> -> -> ->. Qed.

End Ledger.

(** ** A second run over the files *)

Section Rerun.
Context `{Runtime} `{Storage}.
Variables (job_id : string) (is_bucket : bool).

Lemma filter_none {A} (P : A -> Prop) `{forall x, Decision (P x)} (l : list A) :
  (forall x, x ∈ l -> ~ P x) -> filter P l = [].
Proof.
  induction l as [|x l IH]; intros Hall; [done|].
  rewrite filter_cons, decide_False by (apply Hall; by left).
  apply IH. intros y Hy. apply Hall. by right.
Qed.

Lemma filter_all {A} (P : A -> Prop) `{forall x, Decision (P x)} (l : list A) :
  (forall x, x ∈ l -> P x) -> filter P l = l.
Proof.
  induction l as [|x l IH]; intros Hall; [done|].
  rewrite filter_cons, decide_True by (apply Hall; by left).
  f_equal. apply IH. intros y Hy. apply Hall. by right.
Qed.

(** The files a second run has to do are those the first had not
    finished. *)
Lemma filter_ledger_rest (L L' : gset string) (log_files done rest : list string) :
  (forall f, f ∈ L' <-> f ∈ L \/ f ∈ done) ->
  filter (fun f => f ∉ L) log_files = done ++ rest ->
  NoDup (done ++ rest) ->
  filter (fun f => f ∉ L') log_files = rest.
Proof.
  intros HL Htodo Hnd.
  rewrite (list_filter_iff _ (fun f => (f ∉ done) /\ (f ∉ L))).
  2:{ intros f. rewrite HL. tauto. }
  rewrite <- list_filter_filter, Htodo, filter_app.
  apply NoDup_app in Hnd as (_ & Hdis & _).
  rewrite filter_none, filter_all; [done| |].
  - intros f Hf Hd. by apply (Hdis f).
  - intros f Hf Hn. done.
Qed.

End Rerun.

(** The commits of a task come on top of those before it. *)
Lemma process_job_durable `{Runtime} `{Storage} (job_id : string)
    (folder_path customer_folder start_datetime end_datetime : option string)
    (st : State) :
  exists news,
    durable (process_job job_id folder_path customer_folder start_datetime end_datetime st).1
    = news ++ durable st.
Proof.
  unfold process_job.
  destruct (enumerate_files _ _ _ _) as [name| |log_files display b].
  - by exists [update_job job_id (set_row_counters ERROR 0 0) (db st)].
  - by eexists [_].
  - destruct (length log_files =? 0)%nat; [by eexists [_]|].
    set (st2 := with_mem _ (commit (with_db _ st))).
    destruct (process_files job_id b (ledger job_id (db st)) log_files st2)
      as [st3 exit] eqn:Hrun.
    destruct (process_files_spec job_id b _ _ _ _ _ Hrun) as (_ & _ & news & _ & Hd & _).
    destruct exit; simpl; rewrite Hd.
    + eexists (_ :: news ++ [_]). simpl. by rewrite <- app_assoc.
    + eexists (news ++ [_]). by rewrite <- app_assoc.
    + eexists (_ :: news ++ [_]). simpl. by rewrite <- app_assoc.
Qed.

(** * The claims *)

(** ** The record parser *)

Section ParserFacts.
Context `{Runtime}.

(** [split_first_dot] cuts at the first dot. *)
Lemma split_first_dot_spec (s a b : string) :
  split_first_dot s = Some (a, b) ->
  s = a +:+ "." +:+ b /\ forall c, c ∈ list_ascii_of_string a -> c <> "."%char.
Proof.
  revert a. induction s as [|c s IH]; intros a; simpl; [done|].
  destruct (Ascii.eqb_spec c "."%char) as [->|Hc].
  - intros [= <- <-]. split; [done|]. simpl. intros c Hin. by apply elem_of_nil in Hin.
  - destruct (split_first_dot s) as [[a' b']|]; [|done].
    intros [= <- <-]. destruct (IH a' eq_refl) as [-> Hno].
    split; [done|]. simpl. intros c' [->|Hin]%elem_of_cons; auto.
Qed.

(** What the parser of [process_log_file] puts in a record: the level is
    a configured one or [UNKNOWN], and the class field is cut at its first
    dot or replaced by [Unknown] twice. *)
Lemma parse_fields_record (line : string) (o : list (string * json)) (e : LogEntry)
    (missing invalid : bool) :
  json_loads (strip line) = Some (JObj o) ->
  parse_fields line = Entry e missing invalid ->
  e_level e = match dict_get o "level" (JStr "UNKNOWN") with
              | JStr s => if bool_decide (s ∈ valid_levels) then s else "UNKNOWN"
              | _ => "UNKNOWN"
              end
  /\ match dict_get o "class" JNull with
     | JStr cf =>
         match split_first_dot cf with
         | Some (service, class_name) =>
             e_service e = service /\ e_class e = class_name /\ missing = false
         | None => e_service e = "Unknown" /\ e_class e = "Unknown" /\ missing = true
         end
     | JNull | JBool _ | JInt _ | JFloat _ | JArr _ | JObj _ =>
         e_service e = "Unknown" /\ e_class e = "Unknown" /\ missing = true
     end.
Proof.
  intros Hload. unfold parse_fields. rewrite Hload.
  destruct (dict_get o "level" (JStr "UNKNOWN")) as [| | | |lv| |] eqn:Hlevel; simpl; try done;
    unfold extract_class;
    destruct (dict_get o "class" JNull) as [|[]|?|?|cf|?|?] eqn:Hclass; simpl;
    repeat match goal with
      | |- context [negb ?b] => destruct b eqn:?; simpl
      | |- context [split_first_dot ?s] => destruct (split_first_dot s) as [[? ?]|] eqn:?; simpl
      | |- context [check_timestamp ?t] => destruct (check_timestamp t); simpl
      | |- context [existsb ?f ?l] => destruct (existsb f l); simpl
      | |- context [match ?l with [] => _ | _ :: _ => _ end] => destruct l; simpl
      end;
    try done; intros [= <- <- <-]; simpl; try done.
  all: match goal with
       | Hb : String.eqb _ "" = true |- _ => apply String.eqb_eq in Hb; subst; simpl in *; done
       end.
Qed.

(** A line without a [class] key: both names are [Unknown]. *)
Lemma parse_fields_no_class (line : string) (o : list (string * json)) (e : LogEntry)
    (missing invalid : bool) :
  json_loads (strip line) = Some (JObj o) ->
  dict_get o "class" JNull = JNull ->
  parse_fields line = Entry e missing invalid ->
  e_class e = "Unknown" /\ e_service e = "Unknown".
Proof.
  intros Hload Hclass Hp.
  destruct (parse_fields_record line o e missing invalid Hload Hp) as [_ Hc].
  rewrite Hclass in Hc. tauto.
Qed.


End ParserFacts.

#[local] Existing Instance Py.runtime.

(** [LogProcessor.parse_log_line], which nothing in the repository calls
    and which has no configured level set, hands the level on as it came:
    on a line with level BOGUS it returns BOGUS, where the parser of
    [process_log_file] gives UNKNOWN. *)
Theorem parse_log_line_keeps_unlisted_level :
  let line := Demo.object_line [("level", "BOGUS"); ("class", "svcA.ClassX"); ("log", "x")] in
  ("BOGUS" ∉ valid_levels)
  /\ parse_log_line line
     = Some (mkParsedLine (JStr "") (JStr "BOGUS") "ClassX" "svcA" (JStr "x"))
  /\ parse_fields line
     = Entry (mkEntry (JStr "") "UNKNOWN" "ClassX" "svcA" (JStr "x")) false false.
Proof.
  split; [|split]; [|by_running..].
  unfold valid_levels; simpl. intros Hin.
  repeat (apply elem_of_union in Hin as [Hin|Hin]; [apply elem_of_singleton in Hin; discriminate|]).
  by apply elem_of_empty in Hin.
Qed.




(** ** [generate_s3_paths] *)

Section PathFacts.
Context `{Runtime}.

Lemma hours_from_S (start : Z) (n : nat) :
  hours_from start (S n) = start :: hours_from (start + hour_us) n.
Proof.
  unfold hours_from. simpl. f_equal; [lia|].
  rewrite <- seq_shift, map_map. apply map_ext. intros k. lia.
Qed.

Lemma hour_count_step (current_dt end_dt : Z) :
  current_dt <= end_dt ->
  hour_count current_dt end_dt = S (hour_count (current_dt + hour_us) end_dt).
Proof.
  intros Hle. unfold hour_count.
  assert (Hd : (end_dt - (current_dt + hour_us)) / hour_us = (end_dt - current_dt) / hour_us - 1).
  { replace (end_dt - (current_dt + hour_us)) with (end_dt - current_dt + (-1) * hour_us) by lia.
    rewrite Z.div_add by (unfold hour_us; lia). lia. }
  assert (0 <= (end_dt - current_dt) / hour_us) by (apply Z.div_pos; unfold hour_us; lia).
  rewrite Hd. lia.
Qed.

Lemma hour_count_past (current_dt end_dt : Z) :
  end_dt < current_dt -> current_dt <= end_dt + hour_us -> hour_count current_dt end_dt = O.
Proof.
  intros Hlt Hle. unfold hour_count.
  assert ((end_dt - current_dt) / hour_us = -1).
  { symmetry. apply (Z.div_unique_pos _ _ _ (end_dt - current_dt + hour_us));
      unfold hour_us in *; lia. }
  lia.
Qed.

(** The loop, when no addition overflows: one prefix per hour, in order. *)
Lemma while_hours_paths (n : nat) (customer_folder : string) (end_dt current_dt : Z)
    (paths : list string) :
  hour_count current_dt end_dt = n ->
  current_dt <= end_dt + hour_us ->
  end_dt + hour_us <= datetime_max ->
  while_hours customer_folder end_dt current_dt paths
  = Some (paths ++ map (s3_path customer_folder) (hours_from current_dt n)).
Proof.
  revert current_dt paths.
  induction n as [|n IH]; intros current_dt paths Hn Hlo Hmax;
    [|rewrite hours_from_S]; simp while_hours.
  - destruct (decide (current_dt <= end_dt)) as [Hle|Hgt]; simpl.
    + rewrite hour_count_step in Hn by done. discriminate.
    + by rewrite app_nil_r.
  - destruct (decide (current_dt <= end_dt)) as [Hle|Hgt]; simpl.
    + destruct (decide (current_dt + hour_us <= datetime_max)) as [Hok|Hbad]; simpl; [|lia].
      rewrite hour_count_step in Hn by done. injection Hn as Hn.
      rewrite (IH _ _ Hn) by lia. simpl. by rewrite <- app_assoc.
    + rewrite hour_count_past in Hn by lia. discriminate.
Qed.

(** The function on a well-formed range that ends before the last hour
    [datetime] can hold: the prefixes of the hours [start], [start + 1h],
    ... up to [end], as many as the hour difference plus one. *)
Lemma generate_s3_paths_range (customer_folder start_datetime end_datetime : string)
    (start_dt end_dt : Z) :
  strptime start_datetime "%Y%m%d-%H" = Some start_dt ->
  strptime end_datetime "%Y%m%d-%H" = Some end_dt ->
  start_dt <= end_dt ->
  end_dt + hour_us <= datetime_max ->
  generate_s3_paths customer_folder start_datetime end_datetime
  = Paths (map (s3_path customer_folder)
               (hours_from start_dt (hour_count start_dt end_dt))).
Proof.
  intros Hs He Hle Hmax. unfold generate_s3_paths. rewrite Hs, He.
  destruct (decide (start_dt > end_dt)); [lia|].
  rewrite (while_hours_paths (hour_count start_dt end_dt)) by (unfold hour_us in *; lia). done.
Qed.

(** A malformed datetime or an inverted range is refused with code 400. *)
Lemma generate_s3_paths_refused (customer_folder start_datetime end_datetime : string) :
  (strptime start_datetime "%Y%m%d-%H" = None
   \/ strptime end_datetime "%Y%m%d-%H" = None
   \/ exists start_dt end_dt,
        strptime start_datetime "%Y%m%d-%H" = Some start_dt
        /\ strptime end_datetime "%Y%m%d-%H" = Some end_dt /\ start_dt > end_dt) ->
  generate_s3_paths customer_folder start_datetime end_datetime = HTTP400.
Proof.
  unfold generate_s3_paths.
  intros [->|[He|(a & b & -> & -> & Hgt)]]; [done| |].
  - rewrite He. by destruct (strptime start_datetime _).
  - by destruct (decide (a > b)).
Qed.

(** The loop on a range of whole hours whose last hour is the last one a
    [datetime] can hold: the addition after the last prefix overflows. *)
Lemma while_hours_overflow (n : nat) (customer_folder : string) (end_dt current_dt : Z)
    (paths : list string) :
  end_dt = current_dt + Z.of_nat n * hour_us ->
  end_dt + hour_us > datetime_max ->
  while_hours customer_folder end_dt current_dt paths = None.
Proof.
  revert current_dt paths.
  induction n as [|n IH]; intros current_dt paths Hend Hmax; simp while_hours.
  - destruct (decide (current_dt <= end_dt)) as [Hle|Hgt]; simpl; [|lia].
    destruct (decide (current_dt + hour_us <= datetime_max)); simpl; [lia|done].
  - destruct (decide (current_dt <= end_dt)) as [Hle|Hgt]; simpl;
      [|unfold hour_us in *; lia].
    destruct (decide (current_dt + hour_us <= datetime_max)); simpl; [|done].
    apply IH; lia.
Qed.

Lemma generate_s3_paths_overflow (customer_folder start_datetime end_datetime : string)
    (start_dt : Z) (n : nat) :
  strptime start_datetime "%Y%m%d-%H" = Some start_dt ->
  strptime end_datetime "%Y%m%d-%H" = Some (start_dt + Z.of_nat n * hour_us) ->
  start_dt + Z.of_nat n * hour_us + hour_us > datetime_max ->
  generate_s3_paths customer_folder start_datetime end_datetime = HTTP500.
Proof.
  intros Hs He Hmax. unfold generate_s3_paths. rewrite Hs, He.
  destruct (decide _) as [Hgt|_]; [unfold hour_us in *; lia|].
  by rewrite (while_hours_overflow n).
Qed.

(** The bucket branch of [process_job]: the files are listed prefix by
    prefix, in the order of the prefixes; when the range is refused nothing
    is listed and the task fails. *)
Lemma enumerate_files_bucket `{Storage} (customer_folder start_datetime end_datetime : string)
    (s3_paths : list string) :
  validate_customer_folder customer_folder = Some true ->
  generate_s3_paths customer_folder start_datetime end_datetime = Paths s3_paths ->
  enumerate_files None (Some customer_folder) (Some start_datetime) (Some end_datetime)
  = Files (list_bucket s3_paths) ("s3://" +:+ bucket_name +:+ "/" +:+ customer_folder) true.
Proof. intros Hv Hg. unfold enumerate_files. simpl. by rewrite Hv, Hg. Qed.

Lemma enumerate_files_refused `{Storage}
    (customer_folder start_datetime end_datetime : string) :
  validate_customer_folder customer_folder = Some true ->
  generate_s3_paths customer_folder start_datetime end_datetime = HTTP400 ->
  enumerate_files None (Some customer_folder) (Some start_datetime) (Some end_datetime)
  = EnumRaised.
Proof. intros Hv Hg. unfold enumerate_files. simpl. by rewrite Hv, Hg. Qed.

End PathFacts.

(** C9: for every well-formed range with start <= end the function returns
    one prefix per hour.  On the range that ends at 9999-12-31 23h it does
    not: after the last prefix the loop adds one hour to the last datetime
    there is, the [OverflowError] lands in [except Exception], and the
    caller gets code 500 and no list.  (One hour earlier it works.) *)
Theorem generate_s3_paths_last_hour :
  generate_s3_paths "acme" "99991231-22" "99991231-23" = HTTP500
  /\ generate_s3_paths "acme" "99991231-21" "99991231-22"
     = Paths ["acme/99991231-21/"; "acme/99991231-22/"].
Proof. split; by_running. Qed.

(** ** [resume_job] on a bucket job *)





(** ** The marker of a file *)

Section Flush.
Context `{Runtime}.

Lemma flush_batch_returns (job_id : string) (loc : Locals) (st : State) :
  forallb bindable_row (log_batch loc) = true -> (flush_batch job_id loc st).2 = true.
Proof. intros Hb. unfold flush_batch. by rewrite executemany_logs_ok. Qed.

End Flush.

Section BeforeTheMarker.
Context `{Runtime}.
Variables (job_id file_path : string) (st0 : State).






End BeforeTheMarker.





(** ** Lines that are not JSON *)

Section BadLines.
Context `{Runtime}.

Lemma parsed_items_app (l1 l2 : list string) (idx : nat) :
  parsed_items idx (l1 ++ l2) = parsed_items idx l1 ++ parsed_items (idx + length l1) l2.
Proof.
  revert idx. induction l1 as [|line l1 IH]; intros idx; simpl.
  - by rewrite Nat.add_0_r.
  - rewrite IH. replace (S idx + length l1)%nat with (idx + S (length l1))%nat by lia.
    by destruct (parse_fields line).
Qed.

Lemma parsed_items_bounds (lines : list string) (idx : nat) (it : nat * LogEntry) :
  it ∈ parsed_items idx lines -> (idx <= it.1 < idx + length lines)%nat.
Proof.
  revert idx. induction lines as [|line lines IH]; intros idx; simpl.
  - intros Hin. by apply elem_of_nil in Hin.
  - destruct (parse_fields line).
    + intros Hin%IH. lia.
    + intros Hin%IH. lia.
    + intros [->|Hin%IH]%elem_of_cons; simpl; lia.
Qed.

Lemma parse_fields_bad_json (line : string) :
  json_loads (strip line) = None -> parse_fields line = BadJSON.
Proof. intros Hbad. unfold parse_fields. by rewrite Hbad. Qed.

End BadLines.

(** C8, as stated, fails on "counted": the line below is not JSON;
    [process_log_file] skips it and logs a warning, and neither of its two
    counters moves (the summary it logs at the end reports 0 and 0). *)
Lemma invalid_json_is_not_counted :
  let ls := line_body "/logs/a.gz" "job" "/logs" "a.gz" 0 "not json" (init_locals, boot) in
  json_loads (strip "not json") = None
  /\ (missing_class_count ls.1, invalid_timestamp_count ls.1) = (O, O)
  /\ log_batch ls.1 = []
  /\ logger ls.2 = [WarnInvalidJSON "/logs/a.gz" 0]
  /\ logger (process_log_file "/logs/a.gz" "job" (["not json"], false) boot).1
     = [WarnInvalidJSON "/logs/a.gz" 0; InfoProcessed "/logs/a.gz" "job" 0 0].
Proof. repeat split; by_running. Qed.

(** C8, amended: a line that is not JSON writes no row and is logged as a
    warning, and the loop goes on with the locals and the database as they
    were; a file with such lines is recorded as processed like any other,
    with the rows of its other lines. *)
Theorem invalid_json_line_is_skipped `{Runtime} (file_path job_id : string)
    (before after : list string) (bad : string) (st : State) :
  json_loads (strip bad) = None ->
  let lines := before ++ bad :: after in
  (forall (loc : Locals) (s : State) (idx : nat),
      line_body file_path job_id (dirname file_path) (basename file_path) idx bad (loc, s)
      = (loc, log_event (WarnInvalidJSON file_path idx) s))
  /\ (forall r, r ∈ file_rows job_id file_path lines -> r_line_idx r <> length before)
  /\ (all_bindable job_id file_path (parsed_items 0 lines) = true ->
      marker job_id file_path ∉ job_metadata (db st) ->
      let r := process_log_file file_path job_id (lines, false) st in
      r.2 = true
      /\ marker job_id file_path ∈ job_metadata (db r.1)
      /\ logs (db r.1) = logs (db st) ++ file_rows job_id file_path lines).
Proof.
  intros Hbad lines. split; [|split].
  - intros loc s idx. unfold line_body. by rewrite parse_fields_bad_json.
  - intros r Hr. unfold file_rows, lines in Hr.
    rewrite parsed_items_app in Hr. simpl in Hr. rewrite parse_fields_bad_json in Hr by done.
    apply list_elem_of_fmap in Hr as (it & -> & Hit). simpl.
    apply elem_of_app in Hit as [Hit|Hit]; apply parsed_items_bounds in Hit; lia.
  - intros Hall Hfresh r.
    destruct (process_log_file_spec file_path job_id lines false st)
      as (_ & _ & Hok & mids & _ & Hres).
    fold r in Hok, Hres.
    assert (Hr : r.2 = true) by (apply Hok; done).
    rewrite Hr in Hres. destruct Hres as [_ (Hl & _ & Hm & _)].
    split; [done|]. split; [|done].
    apply Hm. by right.
Qed.

Lemma invalid_json_line_is_skipped_witness :
  json_loads (strip "not json") = None
  /\ (forall r, r ∈ file_rows "job" "/logs/a.gz" Demo.sample_lines -> r_line_idx r <> 2%nat)
  /\ let r := process_log_file "/logs/a.gz" "job" (Demo.sample_lines, false) boot in
     r.2 = true
     /\ marker "job" "/logs/a.gz" ∈ job_metadata (db r.1)
     /\ logs (db r.1) = logs (db boot) ++ file_rows "job" "/logs/a.gz" Demo.sample_lines.
Proof.
  assert (Hbad : json_loads (strip "not json") = None) by (by_running).
  assert (Hfresh : marker "job" "/logs/a.gz" ∉ job_metadata (db boot)).
  { intros Hin. exact (not_elem_of_empty _ Hin). }
  destruct (invalid_json_line_is_skipped "/logs/a.gz" "job" (take 2 Demo.sample_lines)
              (drop 3 Demo.sample_lines) "not json" boot Hbad) as (_ & Hrows & Hfile).
  split; [exact Hbad|]. split; [exact Hrows|].
  apply Hfile; [by_running|exact Hfresh].
Defined.

(** ** A class field with an empty side *)

Section EmptySide.
Context `{Runtime}.

(** An entry with an empty class or service leaves the dicts keyed by that
    field as they were, whatever the batch built so far. *)
Lemma tally_entry_empty_side (job_id : string) (b b' : Batches) (e : LogEntry) :
  tally_entry job_id b e = Some b' ->
  (e_class e = "" ->
   class_level_batch b' = class_level_batch b /\ class_service_batch b' = class_service_batch b)
  /\ (e_service e = "" ->
      service_level_batch b' = service_level_batch b
      /\ class_service_batch b' = class_service_batch b).
Proof.
  unfold tally_entry. intros Ht.
  split; intros Hempty; rewrite Hempty in Ht; simpl in Ht;
    destruct (hour_key _ _); try done; injection Ht as <-; simpl;
    rewrite ?andb_false_r; done.
Qed.

End EmptySide.

Section EmptySideInFile.
Context `{Runtime}.

(** The entries of a list of lines do not depend on where the count of
    the lines starts. *)
Lemma parsed_items_entries (lines : list string) (i j : nat) :
  map snd (parsed_items i lines) = map snd (parsed_items j lines).
Proof.
  revert i j. induction lines as [|line lines IH]; intros i j; simpl; [done|].
  destruct (parse_fields line); simpl; [apply IH|apply IH|].
  f_equal. apply IH.
Qed.

(** The entries of a file around one of its records. *)
Lemma file_entries_around (before after : list string) (line : string) (e : LogEntry)
    (missing invalid : bool) :
  parse_fields line = Entry e missing invalid ->
  file_entries (before ++ line :: after)
  = file_entries before ++ e :: file_entries after
  /\ file_entries (before ++ after) = file_entries before ++ file_entries after.
Proof.
  intros Hp. unfold file_entries. rewrite !parsed_items_app, !map_app. simpl.
  rewrite Hp. simpl.
  split; [do 2 f_equal|f_equal]; apply parsed_items_entries.
Qed.

(** What a flush logs. *)
Lemma flush_batch_logger (job_id : string) (loc : Locals) (st : State) (ev : LogEvent) :
  ev ∈ logger (flush_batch job_id loc st).1 ->
  ev ∈ logger st \/ ev = ErrorSummary job_id \/ exists n, ev = DebugSkippedTimestamps n job_id.
Proof.
  unfold flush_batch. destruct (executemany_logs _ _) as [d1 []]; simpl; [|by left].
  unfold update_summary_tables. destruct (tally _ _ _) as [b|]; simpl.
  - destruct (0 <? _)%nat; simpl; [|by left].
    rewrite elem_of_app, list_elem_of_singleton. intros [?| ->]; [by left|].
    right; right. by eexists.
  - rewrite elem_of_app, list_elem_of_singleton. intros [?| ->]; [by left|]. by right; left.
Qed.

(** A line that gives a record whose row can be bound is not logged as
    skipped; a line with another index is not logged under this one. *)
Lemma line_body_no_line_event (file_path job_id : string) (k idx : nat) (line : string)
    (loc : Locals) (st : State) :
  forallb bindable_row (log_batch loc) = true ->
  (forall e m i, parse_fields line = Entry e m i ->
                 bindable_row (item_row job_id file_path (idx, e)) = true) ->
  (idx = k -> exists e m i, parse_fields line = Entry e m i) ->
  let ls := line_body file_path job_id (dirname file_path) (basename file_path) idx line
              (loc, st) in
  forallb bindable_row (log_batch ls.1) = true
  /\ forall ev, line_event file_path k ev -> ev ∈ logger ls.2 -> ev ∈ logger st.
Proof.
  intros Hbatch Hrow Hk. unfold line_body.
  destruct (parse_fields line) as [|m|e m i] eqn:Hp; cbn [fst snd].
  - split; [done|]. intros ev Hev. simpl. rewrite elem_of_app, list_elem_of_singleton.
    intros [?| ->]; [done|]. destruct Hev as [[= ->]|[=]].
    by destruct (Hk eq_refl) as (? & ? & ? & ?).
  - split; [done|]. intros ev Hev. simpl. rewrite elem_of_app, list_elem_of_singleton.
    intros [?| ->]; [done|]. destruct Hev as [[=]|[= ->]].
    by destruct (Hk eq_refl) as (? & ? & ? & ?).
  - set (loc1 := append_entry _ e m i loc).
    assert (Hb1 : forallb bindable_row (log_batch loc1) = true).
    { simpl. rewrite forallb_app, Hbatch. simpl. rewrite andb_true_r.
      exact (Hrow e m i eq_refl). }
    destruct (batch_size <=? length (log_batch loc1))%nat; cbn [fst snd]; [|done].
    pose proof (flush_batch_logger job_id loc1 st) as Hlog.
    pose proof (flush_batch_returns job_id loc1 st Hb1) as Hok.
    destruct (flush_batch job_id loc1 st) as [st1 ok]. cbn [fst snd] in *. subst ok.
    split; [done|]. intros ev Hev Hin.
    destruct (yield_point_spec job_id st1) as (_ & _ & _ & _ & _ & _ & Hlg & _).
    cbn [snd] in Hin. rewrite Hlg in Hin.
    destruct (Hlog ev Hin) as [?|[->|[n ->]]]; [done|by destruct Hev|by destruct Hev].
Qed.

Lemma for_lines_no_line_event (file_path job_id : string) (k : nat) (lines : list string)
    (idx : nat) (loc : Locals) (st : State) :
  forallb bindable_row (log_batch loc) = true ->
  all_bindable job_id file_path (parsed_items idx lines) = true ->
  (forall l, (idx <= k)%nat -> lines !! (k - idx)%nat = Some l ->
             exists e m i, parse_fields l = Entry e m i) ->
  let ls := for_lines file_path job_id (dirname file_path) (basename file_path) idx lines
              (loc, st) in
  forallb bindable_row (log_batch ls.1) = true
  /\ forall ev, line_event file_path k ev -> ev ∈ logger ls.2 -> ev ∈ logger st.
Proof.
  revert idx loc st. induction lines as [|line lines IH]; intros idx loc st Hbatch Hall Hk;
    [done|].
  cbn [for_lines]. rewrite parsed_items_cons in Hall. unfold all_bindable in Hall.
  rewrite forallb_app in Hall. apply andb_prop in Hall as [Hline Hrest].
  destruct (line_body_no_line_event file_path job_id k idx line loc st Hbatch)
    as [Hb1 Hlog1].
  { intros e m i Hp. rewrite Hp in Hline. simpl in Hline. by rewrite andb_true_r in Hline. }
  { intros ->. apply (Hk line); [lia|]. by rewrite Nat.sub_diag. }
  destruct (line_body _ _ _ _ idx line (loc, st)) as [loc1 st1]. cbn [fst snd] in *.
  destruct (IH (S idx) loc1 st1 Hb1 Hrest) as [Hb2 Hlog2].
  { intros l Hle Hl. apply (Hk l); [lia|].
    replace (k - idx)%nat with (S (k - S idx)) by lia. exact Hl. }
  split; [exact Hb2|]. intros ev Hev Hin. apply (Hlog1 ev Hev). by apply (Hlog2 ev Hev).
Qed.

(** The same of a whole file. *)
Lemma process_log_file_no_line_event (file_path job_id : string) (k : nat)
    (lines : list string) (broken : bool) (st : State) (line : string) (e : LogEntry)
    (m i : bool) (ev : LogEvent) :
  all_bindable job_id file_path (parsed_items 0 lines) = true ->
  lines !! k = Some line ->
  parse_fields line = Entry e m i ->
  line_event file_path k ev ->
  ev ∈ logger (process_log_file file_path job_id (lines, broken) st).1 ->
  ev ∈ logger st.
Proof.
  intros Hall Hk Hp Hev. unfold process_log_file. cbn [fst snd].
  destruct (for_lines_no_line_event file_path job_id k lines 0 init_locals st eq_refl Hall)
    as [Hbatch Hlog].
  { intros l _. rewrite Nat.sub_0_r, Hk. intros [= <-]. by eexists _, _, _. }
  destruct (for_lines _ _ _ _ _ _ _) as [loc st1]. cbn [fst snd] in *.
  assert (Hfile : forall s : State, ev ∈ logger (log_event (ErrorFile file_path) s) ->
                                    ev ∈ logger s).
  { intros s. simpl. rewrite elem_of_app, list_elem_of_singleton.
    intros [?| ->]; [done|]. by destruct Hev. }
  destruct broken; [by intros ?%Hfile%(Hlog ev Hev)|].
  assert (Hflush : forall s2 ok,
            match log_batch loc with
            | [] => (st1, true)
            | _ :: _ => flush_batch job_id loc st1
            end = (s2, ok) -> ev ∈ logger s2 -> ev ∈ logger st).
  { intros s2 ok. destruct (log_batch loc).
    - intros [= <- <-]. by apply Hlog.
    - intros Hf Hin. pose proof (flush_batch_logger job_id loc st1 ev) as Hfl.
      rewrite Hf in Hfl. destruct (Hfl Hin) as [?|[->|[n ->]]];
        [by apply Hlog|by destruct Hev|by destruct Hev]. }
  destruct (match log_batch loc with [] => _ | _ => _ end) as [s2 ok].
  specialize (Hflush s2 ok eq_refl).
  destruct ok; [|by intros ?%Hfile%Hflush].
  destruct (decide _); [by intros ?%Hfile%Hflush|].
  simpl. rewrite elem_of_app, list_elem_of_singleton.
  intros [?| ->]; [by apply Hflush|]. by destruct Hev.
Qed.

End EmptySideInFile.

(** C10: a class field with a dot and an empty side, on any line of any
    file.  The line becomes a record and [missing_class_count] is not
    touched by it; when the file is processed, no error is raised, the
    record is among the rows written to [logs], the tables whose key holds
    the empty field get the counts of the other lines of the file and no
    more, and neither a warning nor an error is logged for the line. *)
Theorem empty_side_is_stored_but_not_counted `{Runtime} (file_path job_id : string)
    (before after : list string) (line : string)
    (o : list (string * json)) (class_field service class_name level : string)
    (invalid : bool) (st : State) :
  json_loads (strip line) = Some (JObj o) ->
  dict_get o "class" JNull = JStr class_field ->
  split_first_dot class_field = Some (service, class_name) ->
  normalize_level (dict_get o "level" (JStr "UNKNOWN")) = Some level ->
  check_timestamp (dict_get o "logtime" (JStr "")) = Some invalid ->
  let lines := before ++ line :: after in
  let e := mkEntry (dict_get o "logtime" (JStr "")) level class_name service
                   (dict_get o "log" (JStr "")) in
  let row := row_of job_id (dirname file_path) (basename file_path) (length before) e in
  let others := file_entries (before ++ after) in
  parse_fields line = Entry e false invalid
  /\ (forall (loc : Locals) (s : State) (idx : nat),
        missing_class_count
          (line_body file_path job_id (dirname file_path) (basename file_path) idx line
             (loc, s)).1
        = missing_class_count loc)
  /\ (all_bindable job_id file_path (parsed_items 0 lines) = true ->
      marker job_id file_path ∉ job_metadata (db st) ->
      let r := process_log_file file_path job_id (lines, false) st in
      r.2 = true
      /\ logs (db r.1) = logs (db st) ++ file_rows job_id file_path lines
      /\ row ∈ file_rows job_id file_path lines
      /\ (class_name = "" ->
          added job_id (omap (key_class_level job_id) others)
                (class_level_counts (db st)) (class_level_counts (db r.1))
          /\ added job_id (omap (key_class_service job_id) others)
                   (class_service_counts (db st)) (class_service_counts (db r.1)))
      /\ (service = "" ->
          added job_id (omap (key_service_level job_id) others)
                (service_level_counts (db st)) (service_level_counts (db r.1))
          /\ added job_id (omap (key_class_service job_id) others)
                   (class_service_counts (db st)) (class_service_counts (db r.1)))
      /\ forall ev, line_event file_path (length before) ev ->
           ev ∈ logger r.1 -> ev ∈ logger st).
Proof.
  intros Hload Hclass Hsplit Hlevel Hts lines e row others.
  assert (Hparse : parse_fields line = Entry e false invalid).
  { unfold parse_fields. rewrite Hload, Hlevel. unfold extract_class. rewrite Hclass.
    assert (Htruthy : truthy (JStr class_field) = true).
    { destruct class_field; [done|reflexivity]. }
    rewrite Htruthy, Hsplit, Hts. done. }
  split; [done|]. split.
  { intros loc s idx. unfold line_body. rewrite Hparse.
    destruct (batch_size <=? _)%nat; [|done].
    by destruct (flush_batch _ _ _) as [s1 []]. }
  intros Hbind Hfresh r.
  destruct (process_log_file_spec file_path job_id lines false st)
    as (_ & _ & Hok & mids & _ & Hres).
  fold r in Hok, Hres.
  assert (Hr : r.2 = true) by (by apply Hok).
  rewrite Hr in Hres. destruct Hres as [_ (Hlogs & Htables & _)].
  destruct (file_entries_around before after line e false invalid Hparse) as [Hwith Hwithout].
  fold (file_entries lines) in Htables. unfold lines in Htables. rewrite Hwith in Htables.
  destruct Htables as (Hcl & Hsl & Hcs & _).
  rewrite !omap_app in Hcl, Hsl, Hcs. simpl in Hcl, Hsl, Hcs.
  split; [done|]. split; [done|]. split.
  { unfold file_rows, lines. rewrite parsed_items_app. simpl. rewrite Hparse.
    rewrite fmap_app. apply elem_of_app. right. left. }
  subst others. rewrite Hwithout, !omap_app.
  split; [|split].
  - intros ->. unfold key_class_level, key_class_service in Hcl, Hcs. simpl in Hcl, Hcs.
    done.
  - intros ->. unfold key_service_level, key_class_service in Hsl, Hcs. simpl in Hsl, Hcs.
    rewrite ?andb_false_r in Hcs. done.
  - intros ev Hev Hin.
    apply (process_log_file_no_line_event file_path job_id (length before) lines false st
             line e false invalid ev Hbind); [|done..].
    unfold lines. by rewrite list_lookup_middle.
Qed.

Lemma empty_side_is_stored_but_not_counted_witness :
  let line := Demo.object_line [("level", "INFO"); ("class", "svcA."); ("log", "x")] in
  let e := mkEntry (JStr "") "INFO" "" "svcA" (JStr "x") in
  let r := process_log_file "/logs/a.gz" "job" (Demo.sample_lines, false) boot in
  parse_fields line = Entry e false false
  /\ r.2 = true
  /\ row_of "job" (dirname "/logs/a.gz") (basename "/logs/a.gz") 3 e ∈ logs (db r.1)
  /\ table_total "job" (class_level_counts (db r.1)) = 2
  /\ table_total "job" (class_service_counts (db r.1)) = 2
  /\ ErrorLine "/logs/a.gz" 3 ∉ logger r.1.
Proof.
  intros line e r.
  destruct (empty_side_is_stored_but_not_counted "/logs/a.gz" "job" (take 3 Demo.sample_lines) [] line
              [("log", JStr "x"); ("class", JStr "svcA."); ("level", JStr "INFO")]
              "svcA." "svcA" "" "INFO" false boot)
    as (Hparse & _ & Hfile); try (by_running).
  destruct Hfile as (Hok & Hlogs & Hrow & Hclass & _ & Hquiet); [by_running| |].
  { intros Hin. exact (not_elem_of_empty _ Hin). }
  destruct (Hclass eq_refl) as [[_ Hcl] [_ Hcs]].
  assert (Hlogs' : logs (db r.1)
                   = logs (db boot) ++ file_rows "job" "/logs/a.gz" Demo.sample_lines)
    by exact Hlogs.
  assert (Hcl' : table_total "job" (class_level_counts (db r.1))
                 = table_total "job" (class_level_counts (db boot))
                   + Z.of_nat (length (omap (key_class_level "job")
                                         (file_entries (take 3 Demo.sample_lines ++ [])))))
    by exact Hcl.
  assert (Hcs' : table_total "job" (class_service_counts (db r.1))
                 = table_total "job" (class_service_counts (db boot))
                   + Z.of_nat (length (omap (key_class_service "job")
                                         (file_entries (take 3 Demo.sample_lines ++ [])))))
    by exact Hcs.
  split; [exact Hparse|]. split; [exact Hok|].
  split; [rewrite Hlogs'; apply elem_of_app; right; exact Hrow|].
  split; [rewrite Hcl'; by_running|]. split; [rewrite Hcs'; by_running|].
  intros Hin. apply (Hquiet _ (or_intror eq_refl)) in Hin. by apply elem_of_nil in Hin.
Defined.

(** ** Round trip between the summary tables and [logs] *)

Section RoundTrip.
Context `{Runtime} `{Storage}.

(** The rows the timeline counts are those with a level and a timestamp
    that parses. *)
Lemma key_timeline_is_Some (j : string) (e : LogEntry) :
  is_Some (key_timeline j e)
  <-> nonempty (e_level e) = true
      /\ exists s, e_logtime e = JStr s /\ s <> "" /\ is_Some (parse_timestamp s).
Proof.
  unfold key_timeline, hour_key. split.
  - destruct (e_logtime e) as [| | | |s| |] eqn:Hts;
      try (destruct (truthy _ && _); intros [? ?]; discriminate).
    simpl. destruct (String.eqb_spec s "") as [->|Hs]; simpl; [intros [? ?]; discriminate|].
    destruct (nonempty (e_level e)); [|intros [? ?]; discriminate].
    destruct (parse_timestamp s) eqn:Hp; [|intros [? ?]; discriminate].
    intros _. split; [done|]. exists s. split; [done|]. split; [done|by eexists].
  - intros (Hl & s & -> & Hs & [dt Hp]). simpl. rewrite Hl, Hp.
    destruct (String.eqb_spec s ""); [done|]. simpl. by eexists.
Qed.

(** When every row of the job has a level and the empty string parses
    under no format, the timeline counts the rows whose timestamp parses. *)
Lemma counted_timeline_parseable (j : string) (rows : list LogRow) :
  parse_timestamp "" = None ->
  Forall (fun r => r_job_id r = j -> r_level r <> "") rows ->
  counted key_timeline j rows = rows_parseable j rows.
Proof.
  intros Hempty Hall. unfold counted, rows_parseable. f_equal.
  induction Hall as [|r rows Hr _ IH]; [done|].
  rewrite !filter_cons.
  destruct (decide (r_job_id r = j /\ is_Some (key_timeline j (entry_of_row r))))
    as [[Hj Hk]|Hn].
  - apply key_timeline_is_Some in Hk as (_ & s & Hs & _ & Hp). simpl in Hs.
    rewrite decide_True; [simpl; by rewrite IH|]. split; [done|]. unfold parseable.
    by rewrite Hs.
  - rewrite decide_False; [done|]. intros [Hj Hp]. apply Hn. split; [done|].
    apply key_timeline_is_Some. simpl. unfold parseable in Hp.
    destruct (r_timestamp r) as [| | | |s| |] eqn:Hts; try done.
    split.
    + unfold nonempty. destruct (String.eqb_spec (r_level r) ""); [|done].
      by destruct (Hr Hj).
    + exists s. split; [done|]. split; [|done]. intros ->. rewrite Hempty in Hp.
      by destruct Hp.
Qed.

End RoundTrip.

(** C1, as stated, fails: the sample file has three records, one of them
    with class field ["svcA."]; the job completes with three rows in
    [logs], and [class_level_counts] and [class_service_counts] add up to
    two. *)
Lemma class_level_total_misses_a_row :
  let st := (@Demo.ingest Demo.sample_tree "/logs" "T0").1 in
  m_status (mem st) = COMPLETED
  /\ rows_of_job "logs_T0" (logs (db st)) = 3
  /\ table_total "logs_T0" (class_level_counts (db st)) = 2
  /\ table_total "logs_T0" (class_service_counts (db st)) = 2
  /\ table_total "logs_T0" (service_level_counts (db st)) = 3.
Proof. repeat split; by_running. Qed.

(** C1, amended: for a job whose task returns (completed or paused), each
    summary table adds up to the rows of [logs] of the job that pass the
    guard of that table: class and level non-empty, service and level
    non-empty, class and service non-empty, and for the timeline a level
    and a non-empty timestamp that parses. *)
Theorem summary_totals_match_counted_rows `{Runtime} `{Storage} (job_id : string)
    (folder_path customer_folder start_datetime end_datetime : option string)
    (st st' : State) :
  round_trip job_id (db st) ->
  process_job job_id folder_path customer_folder start_datetime end_datetime st = (st', true) ->
  round_trip job_id (db st').
Proof.
  intros Hrt. unfold process_job.
  destruct (enumerate_files _ _ _ _) as [name| |log_files display b]; try done.
  destruct (length log_files =? 0)%nat.
  { intros [= <-]. by apply (round_trip_same job_id (db st)). }
  set (st2 := with_mem _ (commit (with_db _ st))).
  destruct (process_files job_id b (ledger job_id (db st)) log_files st2)
    as [st3 exit] eqn:Hrun.
  destruct (process_files_spec job_id b _ _ _ _ _ Hrun)
    as (done & rest & news & _ & _ & _ & _ & _ & _ & _ & _ & Hexit).
  destruct exit.
  - destruct Hexit as [_ Hp]. intros [= <-].
    apply (round_trip_same job_id (db st3)); try done.
    apply (progress_round_trip job_id b (db st2) _ done ""); [done|].
    by apply (round_trip_same job_id (db st)).
  - destruct Hexit as (_ & Hp & _). intros [= <-].
    apply (progress_round_trip job_id b (db st2) _ done ""); [done|].
    by apply (round_trip_same job_id (db st)).
  - done.
Qed.

Lemma summary_totals_match_counted_rows_witness :
  let st := Demo.job_on empty_db "logs_T0" "/logs" RUNNING 0 0 [] in
  let st' := (@process_job Py.runtime Demo.sample_tree "logs_T0" (Some "/logs")
                None None None st).1 in
  round_trip "logs_T0" (db st) /\ round_trip "logs_T0" (db st').
Proof.
  intros st st'.
  assert (Hstart : round_trip "logs_T0" (db st)).
  { repeat split; by_running. }
  split; [exact Hstart|].
  pose proof (surjective_pairing (@process_job Py.runtime Demo.sample_tree "logs_T0"
                                    (Some "/logs") None None None st)) as Hrun.
  assert (Hok : (@process_job Py.runtime Demo.sample_tree "logs_T0" (Some "/logs")
                   None None None st).2 = true) by (by_running).
  rewrite Hok in Hrun.
  exact (@summary_totals_match_counted_rows Py.runtime Demo.sample_tree "logs_T0"
           (Some "/logs") None None None st st' Hstart Hrun).
Defined.

(** ** Pause *)

(** C4: a pause takes effect at a file boundary.  When the task returns
    with the job paused, the files still to do split into those done and
    those left (at least one): [logs] and the tables hold exactly the files
    done, the ledger gained exactly their markers, all of it is committed,
    and the [jobs] row says [PAUSED] with [files_processed] the size of the
    ledger. *)
Theorem pause_takes_effect_at_file_boundary `{Runtime} `{Storage} (job_id : string)
    (folder_path customer_folder start_datetime end_datetime : option string)
    (log_files : list string) (display : string) (is_bucket : bool) (st st' : State) :
  enumerate_files folder_path customer_folder start_datetime end_datetime
  = Files log_files display is_bucket ->
  process_job job_id folder_path customer_folder start_datetime end_datetime st = (st', true) ->
  m_status (mem st') = PAUSED ->
  exists done rest,
    filter (fun f => f ∉ ledger job_id (db st)) log_files = done ++ rest
    /\ rest <> []
    /\ logs (db st') = logs (db st) ++ rows_of_files job_id is_bucket done
    /\ tables_added job_id (entries_of_files is_bucket done) (db st) (db st')
    /\ (forall f, f ∈ ledger job_id (db st') <-> f ∈ ledger job_id (db st) \/ f ∈ done)
    /\ (exists older, durable st' = db st' :: older)
    /\ forall row, jobs (db st') !! job_id = Some row ->
         j_status row = PAUSED /\ j_files_processed row = size (ledger job_id (db st')).
Proof.
  intros Henum. unfold process_job. rewrite Henum.
  destruct (length log_files =? 0)%nat; [by intros [= <-]|].
  set (st2 := with_mem _ (commit (with_db _ st))).
  destruct (process_files job_id is_bucket (ledger job_id (db st)) log_files st2)
    as [st3 exit] eqn:Hrun.
  destruct (process_files_spec job_id is_bucket _ _ _ _ _ Hrun)
    as (done & rest & news & Htodo & _ & _ & Hfp & _ & _ & Hfresh & Hnd & Hexit).
  destruct exit; [by intros [= <-]| |done].
  destruct Hexit as (Hne & Hp & Hpa). intros [= <-] _.
  assert (Hp' : progress job_id is_bucket (db st) done "" [] (db st3)).
  { destruct Hp as (P1 & P2 & P3 & P4). split; [exact P1|]. split; [exact P2|].
    split; [exact P3|]. rewrite P4. subst st2. unfold update_job; simpl.
    by rewrite lookup_alter_eq, fmap_is_Some. }
  destruct (progress_ledger job_id is_bucket _ _ _ _ _ Hp' Hnd Hfresh) as [Hledger Hsize].
  exists done, rest. split; [done|]. split; [done|].
  destruct Hp' as (Hl & Ht & _). simpl in Hl, Ht. rewrite !app_nil_r in *.
  split; [done|]. split; [done|]. split; [done|].
  destruct Hpa as (_ & Hd & Hrow). split; [done|].
  intros row Hr. destruct (Hrow row Hr) as [-> ->]. split; [done|].
  rewrite Hfp, Hsize. done.
Qed.

Lemma pause_takes_effect_at_file_boundary_witness :
  let st := Demo.job_on empty_db "logs_T0" "/logs" RUNNING 0 0 [true] in
  let st' := (@process_job Py.runtime Demo.two_files "logs_T0" (Some "/logs")
                None None None st).1 in
  m_status (mem st') = PAUSED
  /\ elements (ledger "logs_T0" (db st')) = ["/logs/a.gz"]
  /\ length (logs (db st')) = 500%nat
  /\ exists done rest,
       filter (fun f => f ∉ ledger "logs_T0" (db st)) ["/logs/a.gz"; "/logs/b.gz"]
       = done ++ rest
       /\ rest <> []
       /\ logs (db st') = logs (db st) ++ @rows_of_files Py.runtime Demo.two_files
                                           "logs_T0" false done
       /\ @tables_added Py.runtime "logs_T0"
            (@entries_of_files Py.runtime Demo.two_files false done) (db st) (db st')
       /\ (forall f, f ∈ ledger "logs_T0" (db st') <-> f ∈ ledger "logs_T0" (db st) \/ f ∈ done)
       /\ (exists older, durable st' = db st' :: older)
       /\ forall row, jobs (db st') !! "logs_T0" = Some row ->
            j_status row = PAUSED
            /\ j_files_processed row = size (ledger "logs_T0" (db st')).
Proof.
  intros st st'.
  assert (Hp : m_status (mem st') = PAUSED) by (by_running).
  split; [exact Hp|]. split; [by_running|]. split; [by_running|].
  pose proof (surjective_pairing (@process_job Py.runtime Demo.two_files "logs_T0"
                                    (Some "/logs") None None None st)) as Hrun.
  assert (Hok : (@process_job Py.runtime Demo.two_files "logs_T0" (Some "/logs")
                   None None None st).2 = true) by (by_running).
  rewrite Hok in Hrun.
  assert (Henum : @enumerate_files Py.runtime Demo.two_files (Some "/logs") None None None
                  = Files ["/logs/a.gz"; "/logs/b.gz"] "/logs" false)
    by (by_running).
  exact (@pause_takes_effect_at_file_boundary Py.runtime Demo.two_files "logs_T0"
           (Some "/logs") None None None ["/logs/a.gz"; "/logs/b.gz"] "/logs" false st st'
           Henum Hrun Hp).
Defined.

(** ** Errors *)

Section Errors.
Context `{Runtime} `{Storage}.

(** The handler writes the in-memory counters, which are those of the row
    and of the last commit. *)
Lemma job_failed_keeps_counters (job_id : string) (st : State) :
  synced job_id st ->
  let st' := job_failed job_id st in
  m_status (mem st') = ERROR
  /\ exists d_prev older,
       durable st' = db st' :: d_prev :: older
       /\ counters_of job_id (jobs (db st')) = counters_of job_id (jobs d_prev)
       /\ forall row, jobs (db st') !! job_id = Some row -> j_status row = ERROR.
Proof.
  intros [Hrow (d & older & Hd & Hc)]. split; [done|].
  exists d, older. simpl. rewrite Hd. split; [done|].
  unfold counters_of, update_job in *; simpl. rewrite lookup_alter_eq.
  destruct (jobs (db st) !! job_id) as [row0|] eqn:Hr0; simpl.
  - destruct (Hrow row0 eq_refl) as [<- <-]. split; [by rewrite Hc|].
    by intros row [= <-].
  - split; [by rewrite Hc|done].
Qed.

End Errors.

(** C5, as stated, fails: a job paused at 1 of 2 files is resumed after
    its folder is gone; it goes to ERROR and the invalid-source branch
    writes 0 and 0 over the counters, in the row and in memory. *)
Lemma invalid_source_resets_counters :
  let st := Demo.job_on empty_db "logs_T0" "/gone" PAUSED 1 2 [] in
  let r := @Demo.resume Demo.sample_tree "logs_T0" st in
  counters_of "logs_T0" (jobs (db st)) = Some (1, 2)%nat
  /\ r.2 = false
  /\ m_status (mem r.1) = ERROR
  /\ j_status <$> jobs (db r.1) !! "logs_T0" = Some ERROR
  /\ counters_of "logs_T0" (jobs (db r.1)) = Some (0, 0)%nat
  /\ (m_files_processed (mem r.1), m_total_files (mem r.1)) = (0, 0)%nat.
Proof. repeat split; by_running. Qed.

(** C5, amended: when the task fails while it lists the bucket or while it
    processes a file, the job goes to ERROR and the commit of the handler
    leaves [files_processed] and [total_files] as the commit before it had
    them; when the source itself is invalid (the folder is no directory,
    the customer folder is not in the bucket) both counters are written
    as 0. *)
Theorem error_keeps_last_counters `{Runtime} `{Storage} (job_id : string)
    (folder_path customer_folder start_datetime end_datetime : option string)
    (st st' : State) :
  synced job_id st ->
  process_job job_id folder_path customer_folder start_datetime end_datetime st = (st', false) ->
  m_status (mem st') = ERROR
  /\ match enumerate_files folder_path customer_folder start_datetime end_datetime with
     | InvalidSource _ =>
         forall row, jobs (db st') !! job_id = Some row ->
           j_status row = ERROR /\ j_files_processed row = O /\ j_total_files row = O
     | EnumRaised | Files _ _ _ =>
         exists d_prev older,
           durable st' = db st' :: d_prev :: older
           /\ counters_of job_id (jobs (db st')) = counters_of job_id (jobs d_prev)
           /\ forall row, jobs (db st') !! job_id = Some row -> j_status row = ERROR
     end.
Proof.
  intros Hs. unfold process_job.
  destruct (enumerate_files _ _ _ _) as [name| |log_files display b].
  - intros [= <-]. split; [done|]. intros row. updated_row.
  - intros [= <-]. by apply job_failed_keeps_counters.
  - destruct (length log_files =? 0)%nat; [done|].
    set (st2 := with_mem _ (commit (with_db _ st))).
    assert (Hs2 : synced job_id st2).
    { split.
      - intros row. subst st2. updated_row.
      - by eexists _, _. }
    destruct (process_files job_id b (ledger job_id (db st)) log_files st2)
      as [st3 exit] eqn:Hrun.
    pose proof (process_files_synced job_id b _ _ _ _ _ Hs2 Hrun) as Hs3.
    destruct exit; try done.
    intros [= <-]. by apply job_failed_keeps_counters.
Qed.

Lemma error_keeps_last_counters_witness :
  let broken := Demo.failing_second in
  let st := Demo.job_on empty_db "logs_T0" "/logs" RUNNING 0 0 [] in
  let st' := (@process_job Py.runtime broken "logs_T0" (Some "/logs") None None None st).1 in
  synced "logs_T0" st
  /\ m_status (mem st') = ERROR
  /\ counters_of "logs_T0" (jobs (db st')) = Some (1, 2)%nat
  /\ exists d_prev older,
       durable st' = db st' :: d_prev :: older
       /\ counters_of "logs_T0" (jobs (db st')) = counters_of "logs_T0" (jobs d_prev)
       /\ forall row, jobs (db st') !! "logs_T0" = Some row -> j_status row = ERROR.
Proof.
  intros broken st st'.
  assert (Hs : synced "logs_T0" st).
  { split.
    - intros row Hr. vm_compute in Hr. injection Hr as <-. done.
    - eexists _, _. split; reflexivity. }
  pose proof (surjective_pairing (@process_job Py.runtime broken "logs_T0"
                                    (Some "/logs") None None None st)) as Hrun.
  assert (Hok : (@process_job Py.runtime broken "logs_T0" (Some "/logs")
                   None None None st).2 = false) by (by_running).
  rewrite Hok in Hrun.
  destruct (@error_keeps_last_counters Py.runtime broken "logs_T0" (Some "/logs")
              None None None st st' Hs Hrun) as [He Hrest].
  split; [exact Hs|]. split; [exact He|]. split; [by_running|].
  exact Hrest.
Defined.

(** ** A kill and a second run *)

(** C2, as stated, fails: a file of 501 records goes in two batches; the
    process is killed after the first batch of 500 is committed and before
    the marker; the second run reads the file from its first line and ends
    with 1001 rows and a count of 1001 where the uninterrupted run has
    501. *)
Lemma rerun_counts_committed_batch_twice :
  let st := Demo.job_on empty_db "logs_T0" "/logs" RUNNING 0 0 [] in
  let run := @process_job Py.runtime Demo.long_file "logs_T0" (Some "/logs") None None None in
  let F := (run st).1 in
  let killed := default empty_db (durable F !! 5%nat) in
  let R := (run (default boot (rerun "logs_T0" killed))).1 in
  m_status (mem F) = COMPLETED
  /\ rows_of_job "logs_T0" (logs killed) = 500
  /\ (marker "logs_T0" "/logs/a.gz" ∉ job_metadata killed)
  /\ m_status (mem R) = COMPLETED
  /\ rows_of_job "logs_T0" (logs (db F)) = 501
  /\ rows_of_job "logs_T0" (logs (db R)) = 1001
  /\ count_of (class_level_counts (db F)) ("logs_T0", "ClassX", "ERROR") = 501
  /\ count_of (class_level_counts (db R)) ("logs_T0", "ClassX", "ERROR") = 1001.
Proof.
  intros st run F killed R.
  split; [by_running|]. split; [by_running|].
  split; [refine (bool_decide_unpack _ _); vm_compute; exact I|].
  split; [by_running|]. split; [by_running|].
  split; [by_running|]. split; by_running.
Qed.

(** C2, amended: a second run on any state the first run committed
    completes; it reads the file that was in flight from its first line,
    so the rows of that file already committed (and their counts) are in
    the database twice: the final number of rows is that of the
    uninterrupted run plus the number of those rows, and each count is that
    of the uninterrupted run plus what those rows add to it.  Files whose
    marker was committed are not read again. *)
Theorem rerun_after_kill `{Runtime} `{Storage} (job_id : string)
    (folder_path customer_folder start_datetime end_datetime : option string)
    (log_files : list string) (display : string) (is_bucket : bool)
    (st F : State) (news : list DB) (killed : DB) :
  enumerate_files folder_path customer_folder start_datetime end_datetime
  = Files log_files display is_bucket ->
  process_job job_id folder_path customer_folder start_datetime end_datetime st = (F, true) ->
  m_status (mem F) = COMPLETED ->
  is_Some (jobs (db st) !! job_id) ->
  durable F = news ++ durable st ->
  killed ∈ news ->
  exists (st_r R : State) (f : string) (pre : list (nat * LogEntry)),
    rerun job_id killed = Some st_r
    /\ process_job job_id folder_path customer_folder start_datetime end_datetime st_r
       = (R, true)
    /\ m_status (mem R) = COMPLETED
    /\ pre `prefix_of` read_items is_bucket f
    /\ (pre <> [] -> marker job_id f ∉ job_metadata killed)
    /\ (exists before, logs killed = before ++ map (item_row job_id f) pre)
    /\ length (logs (db R)) = (length (logs (db F)) + length pre)%nat
    /\ forall key,
         count_of (class_level_counts (db R)) key
         = count_of (class_level_counts (db F)) key
           + occurrences key (omap (key_class_level job_id) (map snd pre))
         /\ count_of (service_level_counts (db R)) key
            = count_of (service_level_counts (db F)) key
              + occurrences key (omap (key_service_level job_id) (map snd pre))
         /\ count_of (class_service_counts (db R)) key
            = count_of (class_service_counts (db F)) key
              + occurrences key (omap (key_class_service job_id) (map snd pre))
         /\ count_of (timeline_counts (db R)) key
            = count_of (timeline_counts (db F)) key
              + occurrences key (omap (key_timeline job_id) (map snd pre)).
Proof.
  intros Henum Hrun HF [row Hrow] Hdur Hkilled.
  unfold process_job in Hrun. rewrite Henum in Hrun.
  destruct (length log_files =? 0)%nat eqn:Hzero.
  { (* no file at all *)
    injection Hrun as <-. simpl in Hdur.
    apply (app_inv_tail _ [_] news) in Hdur. subst news.
    apply list_elem_of_singleton in Hkilled. subst killed.
    unfold rerun, restart, update_job. simpl. rewrite lookup_alter_eq, Hrow. simpl.
    eexists _, _, "", []. split; [done|].
    unfold process_job. rewrite Henum, Hzero. split; [done|]. split; [done|].
    split; [apply prefix_nil|]. split; [done|]. split; [exists (logs (db st)); simpl;
      by rewrite app_nil_r|]. split; [simpl; lia|].
    intros key. unfold occurrences; simpl. repeat split; lia. }
  set (st2 := with_mem _ (commit (with_db _ st))) in Hrun.
  destruct (process_files job_id is_bucket (ledger job_id (db st)) log_files st2)
    as [st3 exit] eqn:Hloop.
  destruct (process_files_spec job_id is_bucket _ _ _ _ _ Hloop)
    as (todo & rest0 & news3 & Htodo & Hd3 & Hsnap & _ & _ & Hfok & Hfresh & Hnd & Hexit).
  destruct exit; [|injection Hrun as <-; destruct Hexit as (_ & _ & Hpa & _); congruence|done].
  destruct Hexit as [-> Hp3]. rewrite app_nil_r in Htodo.
  injection Hrun as <-.
  (* every committed state is a snapshot of the first run *)
  assert (Hk : snapshot_ok job_id is_bucket (db st2) todo killed).
  { assert (Hnews : news = update_job job_id
                (set_row_counters COMPLETED (length log_files)
                   (m_files_processed (mem st3))) (db st3) :: news3 ++ [db st2]).
    { apply (app_inv_tail (durable st)). rewrite <- Hdur. simpl. rewrite Hd3. simpl.
      by rewrite <- app_assoc. }
    subst news.
    apply elem_of_cons in Hkilled as [->|Hkilled].
    - exists todo, [], []. rewrite app_nil_r. split; [done|]. split; [done|].
      apply progress_update_job, Hp3.
    - apply elem_of_app in Hkilled as [Hkilled|Hkilled].
      + rewrite Forall_forall in Hsnap. rewrite Htodo in Hsnap. by apply Hsnap.
      + apply list_elem_of_singleton in Hkilled. subst killed.
        exists [], todo, []. split; [done|]. split; [apply prefix_nil|]. apply progress_refl. }
  destruct Hk as (done & rest & pre & Hsplit & Hpre & Hpk).
  assert (Hrowk : is_Some (jobs killed !! job_id)).
  { destruct Hpk as (_ & _ & _ & ->). subst st2. unfold update_job; simpl.
    rewrite lookup_alter_eq, Hrow. by eexists. }
  destruct Hrowk as [rowk Hrowk].
  (* the second run *)
  set (st_r := with_mem (set_status RUNNING)
                 (mkState killed [killed]
                    (mkJobState (j_folder_path rowk) (j_status rowk)
                       (j_files_processed rowk) (j_total_files rowk)) [] [])).
  assert (Hrerun : rerun job_id killed = Some st_r).
  { unfold rerun, restart. by rewrite Hrowk. }
  assert (Hnd' : NoDup (done ++ rest)) by by rewrite <- Hsplit.
  assert (Hledger : forall g, g ∈ ledger job_id killed
                              <-> g ∈ ledger job_id (db st) \/ g ∈ done).
  { intros g. rewrite !elem_of_ledger. destruct Hpk as (_ & _ & Hm & _).
    rewrite (Hm job_id g). simpl. split; [intros [?|[_ ?]]; auto|intros [?|?]; auto]. }
  assert (Hrest : filter (fun f => f ∉ ledger job_id killed) log_files = rest).
  { eapply filter_ledger_rest; [exact Hledger| |exact Hnd']. by rewrite Htodo, Hsplit. }
  set (st2r := with_mem (fun m => mkJobState display (m_status m)
                                    (size (ledger job_id killed)) (length log_files))
                 (commit (with_db (update_job job_id
                            (set_row_counters RUNNING (length log_files)
                               (size (ledger job_id killed)))) st_r))).
  assert (Hfreshr : forall g, g ∈ rest -> marker job_id g ∉ job_metadata (db st2r)).
  { intros g Hg Hin. simpl in Hin.
    destruct Hpk as (_ & _ & Hm & _). apply (Hm job_id g) in Hin as [Hin|[_ Hin]].
    - revert Hin. apply Hfresh. rewrite Hsplit. apply elem_of_app. by right.
    - apply NoDup_app in Hnd' as (_ & Hdis & _). by apply (Hdis g). }
  destruct (process_files_completes job_id is_bucket (ledger job_id killed) log_files st2r)
    as [st3r Hloopr]; try done.
  { rewrite Hrest. rewrite Hsplit in Hfok. by apply Forall_app in Hfok as [_ ?]. }
  { rewrite Hrest. by apply NoDup_app in Hnd' as (_ & _ & ?). }
  { by rewrite Hrest. }
  destruct (process_files_spec job_id is_bucket _ _ _ _ _ Hloopr)
    as (doner & restr & _ & Htodor & _ & _ & _ & _ & _ & _ & _ & [-> Hpr]).
  rewrite app_nil_r, Hrest in Htodor. subst doner.
  exists st_r, (commit (with_db (update_job job_id
                   (set_row_counters COMPLETED (length log_files)
                      (m_files_processed (mem (with_mem (set_status COMPLETED) st3r)))))
                   (with_mem (set_status COMPLETED) st3r))),
         (hd "" rest), pre.
  split; [done|].
  split.
  { unfold process_job. rewrite Henum, Hzero. cbv zeta.
    change (process_files job_id is_bucket (ledger job_id (db st_r)) log_files _)
      with (process_files job_id is_bucket (ledger job_id killed) log_files st2r).
    by rewrite Hloopr. }
  split; [done|].
  split; [destruct rest; [apply prefix_nil_inv in Hpre as ->; apply prefix_nil|done]|].
  split.
  { intros Hne Hin. destruct rest as [|g rest]; [by apply prefix_nil_inv in Hpre|].
    apply (Hfreshr g); [by left|exact Hin]. }
  destruct Hpk as (Hlk & Htk & _), Hpr as (Hlr & Htr & _), Hp3 as (Hl3 & Ht3 & _).
  simpl in Hlr, Hl3, Htr, Ht3, Hlk, Htk. rewrite !app_nil_r in *.
  split.
  { exists (logs (db st) ++ rows_of_files job_id is_bucket done).
    by rewrite Hlk, <- app_assoc. }
  split.
  { simpl. rewrite Hlr, Hl3, Hlk, Hsplit, rows_of_files_app, !length_app, length_map. lia. }
  intros key.
  destruct Htk as ((K1 & _) & (K2 & _) & (K3 & _) & (K4 & _)).
  destruct Htr as ((R1 & _) & (R2 & _) & (R3 & _) & (R4 & _)).
  destruct Ht3 as ((F1 & _) & (F2 & _) & (F3 & _) & (F4 & _)).
  simpl. rewrite R1, R2, R3, R4, K1, K2, K3, K4, F1, F2, F3, F4.
  rewrite Hsplit, entries_of_files_app, !omap_app, !occurrences_app.
  repeat split; lia.
Qed.

Lemma rerun_after_kill_witness :
  let st := Demo.job_on empty_db "logs_T0" "/logs" RUNNING 0 0 [] in
  let run := @process_job Py.runtime Demo.long_file "logs_T0" (Some "/logs") None None None in
  let F := (run st).1 in
  let killed := default empty_db (durable F !! 5%nat) in
  m_status (mem F) = COMPLETED
  /\ rows_of_job "logs_T0" (logs killed) = 500
  /\ exists (st_r R : State) (f : string) (pre : list (nat * LogEntry)),
       rerun "logs_T0" killed = Some st_r
       /\ run st_r = (R, true)
       /\ m_status (mem R) = COMPLETED
       /\ pre `prefix_of` @read_items Py.runtime Demo.long_file false f
       /\ (pre <> [] -> marker "logs_T0" f ∉ job_metadata killed)
       /\ (exists before, logs killed = before ++ map (item_row "logs_T0" f) pre)
       /\ length (logs (db R)) = (length (logs (db F)) + length pre)%nat.
Proof.
  intros st run F killed.
  assert (HF : m_status (mem F) = COMPLETED) by (by_running).
  split; [exact HF|]. split; [by_running|].
  assert (Henum : @enumerate_files Py.runtime Demo.long_file (Some "/logs") None None None
                  = Files ["/logs/a.gz"] "/logs" false) by (by_running).
  pose proof (surjective_pairing (run st)) as Hrun.
  assert (Hok : (run st).2 = true) by (by_running).
  rewrite Hok in Hrun.
  assert (Hrow : is_Some (jobs (db st) !! "logs_T0")).
  { unfold st, Demo.job_on. simpl. rewrite lookup_insert_eq. by eexists. }
  destruct (@process_job_durable Py.runtime Demo.long_file "logs_T0" (Some "/logs")
              None None None st) as [news Hnews].
  assert (Hlen : length (durable F) = 9%nat) by (by_running).
  assert (Hin : killed ∈ news).
  { assert (Hn : length news = 8%nat).
    { unfold F, run in Hlen. rewrite Hnews, length_app in Hlen. simpl in Hlen. lia. }
    assert (Hk : durable F !! 5%nat = Some killed).
    { unfold killed. destruct (durable F !! 5%nat) eqn:E; [reflexivity|].
      apply lookup_ge_None in E. lia. }
    unfold F, run in Hk. rewrite Hnews, lookup_app_l in Hk by lia.
    by apply list_elem_of_lookup_2 in Hk. }
  destruct (@rerun_after_kill Py.runtime Demo.long_file "logs_T0" (Some "/logs")
              None None None ["/logs/a.gz"] "/logs" false st F news killed
              Henum Hrun HF Hrow Hnews Hin)
    as (st_r & R & f & pre & H1 & H2 & H3 & H4 & H5 & H6 & H7 & _).
  exists st_r, R, f, pre.
  exact (conj H1 (conj H2 (conj H3 (conj H4 (conj H5 (conj H6 H7)))))).
Defined.

(** * Further properties of the back end *)

(** ** The two record parsers *)

Section Parsers.
Context `{Runtime}.

Lemma normalize_level_range (v : json) (level : string) :
  normalize_level v = Some level -> level ∈ valid_levels \/ level = "UNKNOWN".
Proof.
  destruct v as [| | | |s| |]; simpl; try (intros [= <-]; by right); try done.
  case_bool_decide; intros [= <-]; [by left|by right].
Qed.

(** X1: The parser of [process_log_file] and [LogProcessor.parse_log_line]
    on one line.  Where the first yields a record the second returns one
    with the same class, service and message; its level is the value as it
    came (the first parser's level is that value normalised), and its
    timestamp is blanked when no format parses, which the first parser keeps
    as it is.  Where the first meets invalid JSON the second returns
    nothing; the only lines the first gives up on and the second accepts are
    those whose level is a list or an object. *)
Theorem parsers_compared (line : string) :
  match parse_fields line with
  | Entry e _ invalid =>
      exists level,
        parse_log_line line
        = Some (mkParsedLine (if invalid then JStr "" else e_logtime e) level
                             (e_class e) (e_service e) (e_log e))
        /\ normalize_level level = Some (e_level e)
  | BadJSON => json_loads (strip line) = None /\ parse_log_line line = None
  | Failed _ =>
      parse_log_line line = None
      \/ exists p, parse_log_line line = Some p /\ normalize_level (p_level p) = None
  end.
Proof.
  unfold parse_fields, parse_log_line.
  destruct (json_loads (strip line)) as [[| | | | | |o]|]; try (by left); [|done].
  destruct (normalize_level (dict_get o "level" (JStr "UNKNOWN"))) as [level|] eqn:Hlevel.
  - destruct (extract_class (dict_get o "class" JNull)) as [service class_name| |];
      [| |by left];
      (destruct (check_timestamp (dict_get o "logtime" (JStr ""))) as [invalid|];
       [by eexists|by left]).
  - destruct (extract_class (dict_get o "class" JNull)) as [service class_name| |];
      [| |by left];
      (destruct (check_timestamp (dict_get o "logtime" (JStr ""))) as [invalid|];
       [right; by eexists|by left]).
Qed.

(** X2: The class field of a line and the two names of its record.  When the
    parser of [process_log_file] has not counted the line as one with a
    missing class, the field is a string, the service is what stands before
    its first dot and the class what stands after it, so that joining them
    with a dot gives the field back; otherwise both names are [Unknown]. *)
Theorem class_field_round_trip (line : string) (e : LogEntry) (missing invalid : bool) :
  parse_fields line = Entry e missing invalid ->
  if missing then e_class e = "Unknown" /\ e_service e = "Unknown"
  else exists o,
         json_loads (strip line) = Some (JObj o)
         /\ dict_get o "class" JNull = JStr (e_service e +:+ "." +:+ e_class e)
         /\ forall c, c ∈ list_ascii_of_string (e_service e) -> c <> "."%char.
Proof.
  unfold parse_fields.
  destruct (json_loads (strip line)) as [[| | | | | |o]|]; try done.
  destruct (normalize_level _) as [level|]; [|done].
  unfold extract_class.
  destruct (truthy (dict_get o "class" JNull)) eqn:Htruthy.
  - destruct (dict_get o "class" JNull) as [| | | |cf|l|o'] eqn:Hclass; try done.
    + destruct (split_first_dot cf) as [[service class_name]|] eqn:Hsplit.
      * destruct (check_timestamp _); [|done]. intros [= <- <- <-]. simpl.
        destruct (split_first_dot_spec _ _ _ Hsplit) as [-> Hnodot]. by exists o.
      * destruct (check_timestamp _); [|done]. by intros [= <- <- <-].
    + destruct (existsb is_dot l); [done|].
      destruct (check_timestamp _); [|done]. by intros [= <- <- <-].
    + destruct (existsb _ o'); [done|].
      destruct (check_timestamp _); [|done]. by intros [= <- <- <-].
  - destruct (check_timestamp _); [|done]. by intros [= <- <- <-].
Qed.

End Parsers.

Lemma class_field_round_trip_witness :
  let line := Demo.object_line [("level", "INFO"); ("class", "svcA.pkg.ClassX")] in
  let e := mkEntry (JStr "") "INFO" "pkg.ClassX" "svcA" (JStr "") in
  parse_fields line = Entry e false false
  /\ exists o,
       json_loads (strip line) = Some (JObj o)
       /\ dict_get o "class" JNull = JStr (e_service e +:+ "." +:+ e_class e)
       /\ forall c, c ∈ list_ascii_of_string (e_service e) -> c <> "."%char.
Proof.
  intros line e.
  assert (Hparse : parse_fields line = Entry e false false) by by_running.
  split; [exact Hparse|].
  exact (class_field_round_trip line e false false Hparse).
Defined.

(** ** The rows of a file *)

Section Rows.
Context `{Runtime}.

Lemma parsed_items_level (lines : list string) (idx : nat) (it : nat * LogEntry) :
  it ∈ parsed_items idx lines -> e_level it.2 ∈ valid_levels \/ e_level it.2 = "UNKNOWN".
Proof.
  revert idx. induction lines as [|line lines IH]; intros idx; simpl.
  { by intros ?%elem_of_nil. }
  destruct (parse_fields line) as [|m|e m i] eqn:Hparse; try apply IH.
  intros [->|Hin]%elem_of_cons; [|by apply (IH (S idx))].
  simpl. revert Hparse. unfold parse_fields.
  destruct (json_loads (strip line)) as [[| | | | | |o]|]; try done.
  destruct (normalize_level _) as [level|] eqn:Hlevel; [|done].
  apply normalize_level_range in Hlevel.
  destruct (extract_class _); try done;
    (destruct (check_timestamp _); [|done]); by intros [= <- _ _].
Qed.

Lemma parsed_items_length (lines : list string) (idx : nat) :
  (length (parsed_items idx lines) <= length lines)%nat.
Proof.
  revert idx. induction lines as [|line lines IH]; intros idx; simpl; [lia|].
  pose proof (IH (S idx)). destruct (parse_fields line); simpl; lia.
Qed.

Lemma parsed_items_increasing (lines : list string) (idx i j : nat) (a b : nat * LogEntry) :
  parsed_items idx lines !! i = Some a -> parsed_items idx lines !! j = Some b ->
  (i < j)%nat -> (a.1 < b.1)%nat.
Proof.
  revert idx i j. induction lines as [|line lines IH]; intros idx i j; [done|].
  rewrite parsed_items_cons.
  destruct (parse_fields line) as [|m|e m inv]; simpl; try apply IH.
  destruct i as [|i]; destruct j as [|j]; simpl; try lia.
  - intros [= <-] Hb _. apply list_elem_of_lookup_2, parsed_items_bounds in Hb. simpl. lia.
  - intros Ha Hb Hlt. apply (IH (S idx) i j); [done|done|lia].
Qed.

(** X3: The rows [process_log_file] adds to [logs] when it returns: at most
    one for each line, in the order of the lines; each carries the job, the
    folder and the name of the file, the index of its line, and a level that
    is a configured one or [UNKNOWN]. *)
Theorem rows_of_a_file (file_path job_id : string) (lines : list string) (broken : bool)
    (st st' : State) :
  process_log_file file_path job_id (lines, broken) st = (st', true) ->
  exists rows,
    logs (db st') = logs (db st) ++ rows
    /\ (length rows <= length lines)%nat
    /\ (forall r, r ∈ rows ->
          r_job_id r = job_id /\ r_folder r = dirname file_path
          /\ r_file_name r = basename file_path
          /\ (r_line_idx r < length lines)%nat
          /\ (r_level r ∈ valid_levels \/ r_level r = "UNKNOWN"))
    /\ forall (i j : nat) (r1 r2 : LogRow),
         rows !! i = Some r1 -> rows !! j = Some r2 -> (i < j)%nat ->
         (r_line_idx r1 < r_line_idx r2)%nat.
Proof.
  intros Hrun.
  destruct (process_log_file_spec file_path job_id lines broken st)
    as (_ & _ & _ & mids & _ & Hres).
  rewrite Hrun in Hres. simpl in Hres. destruct Hres as [_ (Hlogs & _)].
  exists (map (item_row job_id file_path) (parsed_items 0 lines)).
  split; [done|]. split; [rewrite length_map; apply parsed_items_length|]. split.
  - intros r (it & -> & Hit)%list_elem_of_fmap. simpl.
    split; [done|]. split; [done|]. split; [done|]. split.
    + apply parsed_items_bounds in Hit. lia.
    + by apply (parsed_items_level lines 0).
  - intros i j r1 r2. rewrite !list_lookup_fmap.
    destruct (parsed_items 0 lines !! i) as [a|] eqn:Ha; [|done].
    destruct (parsed_items 0 lines !! j) as [b|] eqn:Hb; [|done].
    simpl. intros [= <-] [= <-] Hlt. simpl.
    by apply (parsed_items_increasing lines 0 i j).
Qed.

End Rows.

Lemma rows_of_a_file_witness :
  let r := process_log_file "/logs/a.gz" "job" (Demo.sample_lines, false) boot in
  r.2 = true
  /\ exists rows,
       logs (db r.1) = logs (db boot) ++ rows
       /\ (length rows <= length Demo.sample_lines)%nat
       /\ (forall row, row ∈ rows ->
             r_job_id row = "job" /\ r_folder row = dirname "/logs/a.gz"
             /\ r_file_name row = basename "/logs/a.gz"
             /\ (r_line_idx row < length Demo.sample_lines)%nat
             /\ (r_level row ∈ valid_levels \/ r_level row = "UNKNOWN"))
       /\ forall (i j : nat) (r1 r2 : LogRow),
            rows !! i = Some r1 -> rows !! j = Some r2 -> (i < j)%nat ->
            (r_line_idx r1 < r_line_idx r2)%nat.
Proof.
  intros r.
  pose proof (surjective_pairing r) as Hrun.
  assert (Hok : r.2 = true) by by_running.
  split; [exact Hok|].
  rewrite Hok in Hrun.
  exact (rows_of_a_file "/logs/a.gz" "job" Demo.sample_lines false boot r.1 Hrun).
Defined.

(** ** [update_summary_tables] as an operation on the tables *)

Section Counting.
Context `{Runtime}.

Lemma lookup_upsert_count (t : gmap Key Z) (k key : Key) (c : Z) :
  upsert_count t (k, c) !! key
  = if decide (k = key) then Some (count_of t key + c) else t !! key.
Proof.
  unfold upsert_count, count_of. simpl.
  destruct (decide (k = key)) as [->|Hne].
  - destruct (t !! key); by rewrite lookup_insert_eq.
  - destruct (t !! k); by rewrite lookup_insert_ne.
Qed.

Lemma sum_at_absent (key : Key) (items : list (Key * Z)) :
  key ∉ items.*1 -> sum_at key items = 0.
Proof.
  induction items as [|[k' c'] items IH]; [done|].
  rewrite fmap_cons. intros [Hne Hnin]%not_elem_of_cons. simpl in *.
  rewrite decide_False by done. by rewrite IH.
Qed.

Lemma lookup_upsert_all (items : list (Key * Z)) (t : gmap Key Z) (key : Key) :
  upsert_all t items !! key
  = if decide (key ∈ items.*1) then Some (count_of t key + sum_at key items) else t !! key.
Proof.
  revert t. induction items as [|[k c] items IH]; intros t.
  { simpl. done. }
  rewrite fmap_cons.
  change (upsert_all t ((k, c) :: items)) with (upsert_all (upsert_count t (k, c)) items).
  rewrite IH, count_of_upsert, lookup_upsert_count.
  change (sum_at key ((k, c) :: items))
    with ((if decide (k = key) then c else 0) + sum_at key items).
  change ((k, c).1) with k.
  destruct (decide (key ∈ items.*1)) as [Hin|Hnin].
  - rewrite (decide_True (P := key ∈ k :: items.*1)) by (by right). f_equal. lia.
  - destruct (decide (k = key)) as [->|Hne].
    + rewrite (decide_True (P := key ∈ key :: items.*1)) by (by left).
      rewrite (sum_at_absent _ _ Hnin). f_equal. lia.
    + rewrite (decide_False (P := key ∈ k :: items.*1)); [done|].
      by intros [?|?]%elem_of_cons.
Qed.

Lemma elem_of_dict_incr (key k : Key) (d : list (Key * Z)) :
  key ∈ (dict_incr k d).*1 <-> key = k \/ key ∈ d.*1.
Proof.
  induction d as [|[k' v] d IH]; simpl.
  - rewrite list_elem_of_singleton. split; [by left|]. by intros [?|?%elem_of_nil].
  - destruct (decide (k' = k)) as [->|Hne]; simpl.
    + rewrite !elem_of_cons. tauto.
    + rewrite !elem_of_cons, IH. tauto.
Qed.

Lemma elem_of_incr_all (key : Key) (keys : list Key) (d : list (Key * Z)) :
  key ∈ (incr_all keys d).*1 <-> key ∈ keys \/ key ∈ d.*1.
Proof.
  revert d. induction keys as [|k keys IH]; intros d; simpl.
  - split; [by right|]. by intros [?%elem_of_nil|?].
  - unfold incr_all in *. simpl. rewrite IH, elem_of_dict_incr, elem_of_cons. tauto.
Qed.

Lemma occurrences_absent (key : Key) (keys : list Key) :
  key ∉ keys -> occurrences key keys = 0.
Proof.
  induction keys as [|k keys IH]; [done|].
  intros [Hne Hnin]%not_elem_of_cons. rewrite occurrences_cons, IH by done.
  by rewrite decide_False.
Qed.

Lemma occurrences_nonneg (key : Key) (keys : list Key) : 0 <= occurrences key keys.
Proof. unfold occurrences. lia. Qed.

(** A table after the keys of a batch have been counted in. *)
Lemma lookup_counted_in (keys : list Key) (t : gmap Key Z) (key : Key) :
  upsert_all t (incr_all keys []) !! key
  = if decide (key ∈ keys) then Some (count_of t key + occurrences key keys) else t !! key.
Proof.
  rewrite lookup_upsert_all, sum_at_incr_all. simpl.
  destruct (decide (key ∈ keys)) as [Hin|Hnin].
  - rewrite decide_True by (apply elem_of_incr_all; by left). done.
  - rewrite decide_False; [done|]. rewrite elem_of_incr_all. by intros [?|?%elem_of_nil].
Qed.

Lemma counted_in_twice (keys1 keys2 : list Key) (t : gmap Key Z) :
  upsert_all (upsert_all t (incr_all keys1 [])) (incr_all keys2 [])
  = upsert_all t (incr_all (keys1 ++ keys2) []).
Proof.
  apply map_eq. intros key. rewrite !lookup_counted_in.
  unfold count_of at 1. rewrite lookup_counted_in, occurrences_app.
  destruct (decide (key ∈ keys1)) as [H1|H1]; destruct (decide (key ∈ keys2)) as [H2|H2];
    simpl.
  - rewrite decide_True by (apply elem_of_app; by left). f_equal; lia.
  - rewrite decide_True by (apply elem_of_app; by left).
    rewrite (occurrences_absent _ _ H2). f_equal; lia.
  - rewrite decide_True by (apply elem_of_app; by right).
    rewrite (occurrences_absent _ _ H1). unfold count_of. f_equal; lia.
  - rewrite decide_False; [done|]. by intros [?|?]%elem_of_app.
Qed.

(** What [update_summary_tables] leaves in the database when every
    timestamp of the batch is a string or falsy. *)
Lemma update_summary_tables_db (job_id : string) (es : list LogEntry) (st : State) :
  Forall timestamp_ok es ->
  db (update_summary_tables job_id es st)
  = mkDB (jobs (db st)) (logs (db st)) (job_metadata (db st))
      (upsert_all (class_level_counts (db st)) (incr_all (omap (key_class_level job_id) es) []))
      (upsert_all (service_level_counts (db st))
                  (incr_all (omap (key_service_level job_id) es) []))
      (upsert_all (timeline_counts (db st)) (incr_all (omap (key_timeline job_id) es) []))
      (upsert_all (class_service_counts (db st))
                  (incr_all (omap (key_class_service job_id) es) [])).
Proof.
  intros Hok. unfold update_summary_tables.
  destruct (tally_spec job_id es empty_batches Hok) as [n ->]. simpl.
  by destruct (0 <? n)%nat.
Qed.

(** X4: Two calls of [update_summary_tables], on a batch and then on
    another, leave the database that one call on both together leaves: how
    the records are cut into batches does not show in the tables. *)
Theorem update_summary_tables_splits (job_id : string) (es1 es2 : list LogEntry) (st : State) :
  Forall timestamp_ok (es1 ++ es2) ->
  db (update_summary_tables job_id es2 (update_summary_tables job_id es1 st))
  = db (update_summary_tables job_id (es1 ++ es2) st).
Proof.
  intros [H1 H2]%Forall_app.
  rewrite !update_summary_tables_db by (done || by apply Forall_app).
  rewrite !omap_app, <- !counted_in_twice. done.
Qed.

Lemma tally_timestamp_ok (job_id : string) (es : list LogEntry) (b b' : Batches) :
  tally job_id b es = Some b' -> Forall timestamp_ok es.
Proof.
  revert b. induction es as [|e es IH]; intros b; [constructor|]. simpl.
  destruct (tally_entry job_id b e) as [b1|] eqn:Hentry; [|done].
  intros Hrest. constructor; [|by apply (IH b1)].
  unfold timestamp_ok. unfold tally_entry in Hentry.
  by destruct (hour_key (e_logtime e) (e_level e)).
Qed.

(** X5: [update_summary_tables] only ever adds to the counts of its own job:
    the other tables stay as they are, no count goes down, and the rows of
    other jobs are not touched. *)
Theorem update_summary_tables_only_adds (job_id : string) (es : list LogEntry) (st : State) :
  let d := db st in
  let d' := db (update_summary_tables job_id es st) in
  jobs d' = jobs d /\ logs d' = logs d /\ job_metadata d' = job_metadata d
  /\ forall key : Key,
       (count_of (class_level_counts d) key <= count_of (class_level_counts d') key
        /\ count_of (service_level_counts d) key <= count_of (service_level_counts d') key
        /\ count_of (timeline_counts d) key <= count_of (timeline_counts d') key
        /\ count_of (class_service_counts d) key <= count_of (class_service_counts d') key)
       /\ (key.1.1 <> job_id ->
           class_level_counts d' !! key = class_level_counts d !! key
           /\ service_level_counts d' !! key = service_level_counts d !! key
           /\ timeline_counts d' !! key = timeline_counts d !! key
           /\ class_service_counts d' !! key = class_service_counts d !! key).
Proof.
  intros d d'. subst d d'.
  destruct (tally job_id empty_batches es) as [b|] eqn:Htally.
  2:{ unfold update_summary_tables. rewrite Htally. simpl.
      split; [done|]. split; [done|]. split; [done|]. intros key. split; [lia|done]. }
  rewrite update_summary_tables_db by (by eapply tally_timestamp_ok). simpl.
  split; [done|]. split; [done|]. split; [done|]. intros key.
  assert (Hup : forall (f : string -> LogEntry -> option Key) (t : gmap Key Z),
            (forall e k, f job_id e = Some k -> k.1.1 = job_id) ->
            count_of t key <= count_of (upsert_all t (incr_all (omap (f job_id) es) [])) key
            /\ (key.1.1 <> job_id ->
                upsert_all t (incr_all (omap (f job_id) es) []) !! key = t !! key)).
  { intros f t Hf. split.
    - unfold count_of at 2. rewrite lookup_counted_in.
      destruct (decide _); simpl; [|done].
      pose proof (occurrences_nonneg key (omap (f job_id) es)). lia.
    - intros Hother. rewrite lookup_counted_in, decide_False; [done|].
      intros Hin. pose proof (omap_keys_job f job_id es Hf) as Hall.
      rewrite Forall_forall in Hall. by apply Hall in Hin. }
  destruct (Hup key_class_level (class_level_counts (db st)) (key_class_level_job job_id)).
  destruct (Hup key_service_level (service_level_counts (db st))
              (key_service_level_job job_id)).
  destruct (Hup key_timeline (timeline_counts (db st)) (key_timeline_job job_id)).
  destruct (Hup key_class_service (class_service_counts (db st))
              (key_class_service_job job_id)).
  split; [done|]. intros Hother. auto.
Qed.

End Counting.

Lemma update_summary_tables_splits_witness :
  let es1 := [mkEntry (JStr "2024-01-01 10:00:00") "ERROR" "ClassX" "svcA" (JStr "boom")] in
  let es2 := [mkEntry (JStr "") "INFO" "ClassY" "svcA" (JStr "x");
              mkEntry (JStr "2024-01-01 10:30:00") "ERROR" "ClassX" "svcA" (JStr "boom2")] in
  Forall timestamp_ok (es1 ++ es2)
  /\ db (update_summary_tables "job" es2 (update_summary_tables "job" es1 boot))
     = db (update_summary_tables "job" (es1 ++ es2) boot).
Proof.
  intros es1 es2.
  assert (Hok : Forall timestamp_ok (es1 ++ es2)).
  { repeat constructor; unfold timestamp_ok; vm_compute; discriminate. }
  split; [exact Hok|].
  exact (update_summary_tables_splits "job" es1 es2 boot Hok).
Defined.

(** ** The prefixes of a time range *)

Section Prefixes.
Context `{Runtime}.

Lemma while_hours_grows (n : nat) (customer_folder : string) (end_dt current_dt : Z)
    (paths ps : list string) :
  hour_count current_dt end_dt = n ->
  while_hours customer_folder end_dt current_dt paths = Some ps ->
  exists more, ps = paths ++ more /\ (current_dt <= end_dt -> more <> []).
Proof.
  revert current_dt paths.
  induction n as [|n IH]; intros current_dt paths Hn; simp while_hours.
  - destruct (decide (current_dt <= end_dt)) as [Hle|Hgt]; simpl.
    + rewrite hour_count_step in Hn by done. discriminate.
    + intros [= <-]. exists []. by rewrite app_nil_r.
  - destruct (decide (current_dt <= end_dt)) as [Hle|Hgt]; simpl.
    + destruct (decide (current_dt + hour_us <= datetime_max)) as [Hok|Hbad]; simpl; [|done].
      rewrite hour_count_step in Hn by done. injection Hn as Hn.
      intros Hrun. destruct (IH _ _ Hn Hrun) as (more & -> & _).
      exists (s3_path customer_folder current_dt :: more).
      split; [by rewrite <- app_assoc|done].
    + intros [= <-]. exists []. by rewrite app_nil_r.
Qed.

(** X6: On a well-formed range that ends before the last hour a [datetime]
    can hold, [generate_s3_paths] returns one prefix for each hour from the
    start to the end, both included and in order: as many as whole hours lie
    between the two, plus one, the k-th being [customer_folder/YYYYMMDD-HH/]
    of the start plus k hours. *)
Theorem generate_s3_paths_one_per_hour (customer_folder start_datetime end_datetime : string)
    (start_dt end_dt : Z) :
  strptime start_datetime "%Y%m%d-%H" = Some start_dt ->
  strptime end_datetime "%Y%m%d-%H" = Some end_dt ->
  start_dt <= end_dt ->
  end_dt + hour_us <= datetime_max ->
  exists paths,
    generate_s3_paths customer_folder start_datetime end_datetime = Paths paths
    /\ Z.of_nat (length paths) = (end_dt - start_dt) / hour_us + 1
    /\ forall k : nat,
         (k < length paths)%nat ->
         paths !! k
         = Some (customer_folder +:+ "/"
                 +:+ strftime (start_dt + Z.of_nat k * hour_us) "%Y%m%d-%H" +:+ "/").
Proof.
  intros Hs He Hle Hmax. eexists. split; [by apply generate_s3_paths_range|].
  assert (0 <= (end_dt - start_dt) / hour_us) by (apply Z.div_pos; unfold hour_us; lia).
  split.
  - rewrite length_map. unfold hours_from. rewrite length_map, length_seq.
    unfold hour_count. lia.
  - intros k. rewrite length_map. unfold hours_from. rewrite length_map, length_seq.
    intros Hk. rewrite !list_lookup_fmap, lookup_seq_lt by done. done.
Qed.

(** X7: The answers of [generate_s3_paths]: code 400 exactly when a bound
    does not parse or the start is later than the end; and a list it returns
    is never empty. *)
Theorem generate_s3_paths_answers (customer_folder start_datetime end_datetime : string) :
  (generate_s3_paths customer_folder start_datetime end_datetime = HTTP400
   <-> strptime start_datetime "%Y%m%d-%H" = None
       \/ strptime end_datetime "%Y%m%d-%H" = None
       \/ exists start_dt end_dt,
            strptime start_datetime "%Y%m%d-%H" = Some start_dt
            /\ strptime end_datetime "%Y%m%d-%H" = Some end_dt /\ start_dt > end_dt)
  /\ forall paths,
       generate_s3_paths customer_folder start_datetime end_datetime = Paths paths ->
       paths <> [].
Proof.
  split; [split; [|apply generate_s3_paths_refused]|]; unfold generate_s3_paths.
  - destruct (strptime start_datetime _) as [s|]; [|by left].
    destruct (strptime end_datetime _) as [e|]; [|right; by left].
    destruct (decide (s > e)); [intros _; right; right; by exists s, e|].
    by destruct (while_hours _ _ _ _).
  - intros paths.
    destruct (strptime start_datetime _) as [s|]; [|done].
    destruct (strptime end_datetime _) as [e|]; [|done].
    destruct (decide (s > e)); [done|].
    destruct (while_hours customer_folder e s []) as [ps|] eqn:Hrun; [|done].
    intros [= <-].
    destruct (while_hours_grows _ _ _ _ _ _ eq_refl Hrun) as (more & -> & Hne).
    simpl. apply Hne. lia.
Qed.

End Prefixes.

Lemma generate_s3_paths_one_per_hour_witness :
  let start_dt := default 0 (strptime "20240101-22" "%Y%m%d-%H") in
  let end_dt := default 0 (strptime "20240102-01" "%Y%m%d-%H") in
  strptime "20240101-22" "%Y%m%d-%H" = Some start_dt
  /\ strptime "20240102-01" "%Y%m%d-%H" = Some end_dt
  /\ start_dt <= end_dt
  /\ end_dt + hour_us <= datetime_max
  /\ generate_s3_paths "acme" "20240101-22" "20240102-01"
     = Paths ["acme/20240101-22/"; "acme/20240101-23/"; "acme/20240102-00/";
              "acme/20240102-01/"]
  /\ exists paths,
       generate_s3_paths "acme" "20240101-22" "20240102-01" = Paths paths
       /\ Z.of_nat (length paths) = (end_dt - start_dt) / hour_us + 1
       /\ forall k : nat,
            (k < length paths)%nat ->
            paths !! k
            = Some ("acme" +:+ "/"
                    +:+ strftime (start_dt + Z.of_nat k * hour_us) "%Y%m%d-%H" +:+ "/").
Proof.
  intros start_dt end_dt.
  assert (Hs : strptime "20240101-22" "%Y%m%d-%H" = Some start_dt) by by_running.
  assert (He : strptime "20240102-01" "%Y%m%d-%H" = Some end_dt) by by_running.
  assert (Hle : start_dt <= end_dt) by (vm_compute; discriminate).
  assert (Hmax : end_dt + hour_us <= datetime_max) by (vm_compute; discriminate).
  split; [exact Hs|]. split; [exact He|]. split; [exact Hle|]. split; [exact Hmax|].
  split; [by_running|].
  exact (generate_s3_paths_one_per_hour "acme" "20240101-22" "20240102-01" start_dt end_dt
           Hs He Hle Hmax).
Defined.

(** ** A file without records *)

Section NoRecords.
Context `{Runtime}.

Lemma for_lines_no_record (file_path job_id folder file_name : string) (lines : list string)
    (idx : nat) (loc : Locals) (st : State) :
  Forall no_record lines ->
  let ls := for_lines file_path job_id folder file_name idx lines (loc, st) in
  log_batch ls.1 = log_batch loc /\ db ls.2 = db st /\ durable ls.2 = durable st
  /\ mem ls.2 = mem st /\ requests ls.2 = requests st.
Proof.
  revert idx loc st. induction lines as [|line lines IH]; intros idx loc st Hall; [done|].
  apply Forall_cons in Hall as [Hline Hall]. simpl.
  unfold no_record in Hline.
  destruct (parse_fields line) as [|m|e m i]; [| |done].
  - by destruct (IH (S idx) loc (log_event (WarnInvalidJSON file_path idx) st) Hall)
      as (-> & -> & -> & -> & ->).
  - by destruct (IH (S idx) (bump_missing m loc) (log_event (ErrorLine file_path idx) st) Hall)
      as (-> & -> & -> & -> & ->).
Qed.

(** X8: A file none of whose lines gives a record (an empty file among them)
    is recorded as processed all the same: [process_log_file] returns, the
    one thing it writes is the marker of the file, and it commits once. *)
Theorem file_without_records_is_marked (file_path job_id : string) (lines : list string)
    (st : State) :
  Forall no_record lines ->
  marker job_id file_path ∉ job_metadata (db st) ->
  let r := process_log_file file_path job_id (lines, false) st in
  r.2 = true
  /\ db r.1 = set_job_metadata (fun md => md ∪ {[marker job_id file_path]}) (db st)
  /\ durable r.1 = db r.1 :: durable st
  /\ mem r.1 = mem st.
Proof.
  intros Hall Hfresh. unfold process_log_file. simpl.
  pose proof (for_lines_no_record file_path job_id (dirname file_path) (basename file_path)
                lines 0 init_locals st Hall) as Hloop.
  destruct (for_lines _ _ _ _ _ _ _) as [loc st1]. simpl in Hloop.
  destruct Hloop as (Hbatch & Hdb & Hdur & Hmem & _).
  rewrite Hbatch. simpl. rewrite Hdb.
  destruct (decide _) as [Hin|_]; [done|]. simpl.
  rewrite Hdb, Hdur, Hmem. done.
Qed.

End NoRecords.

Lemma file_without_records_is_marked_witness :
  let lines := ["not json"; "[1, 2]"; ""] in
  Forall no_record lines
  /\ (marker "job" "/logs/a.gz" ∉ job_metadata (db boot))
  /\ let r := process_log_file "/logs/a.gz" "job" (lines, false) boot in
     r.2 = true
     /\ db r.1 = set_job_metadata (fun md => md ∪ {[marker "job" "/logs/a.gz"]}) (db boot)
     /\ durable r.1 = db r.1 :: durable boot
     /\ mem r.1 = mem boot.
Proof.
  intros lines.
  assert (Hall : Forall no_record lines).
  { repeat constructor; unfold no_record; vm_compute; exact I. }
  assert (Hfresh : marker "job" "/logs/a.gz" ∉ job_metadata (db boot)).
  { intros Hin. exact (not_elem_of_empty _ Hin). }
  split; [exact Hall|]. split; [exact Hfresh|].
  exact (file_without_records_is_marked "/logs/a.gz" "job" lines boot Hall Hfresh).
Defined.

(** ** The task on files it has already done *)

Section Finished.
Context `{Runtime} `{Storage}.

Lemma process_files_skips (job_id : string) (is_bucket : bool) (processed : gset string)
    (log_files : list string) (st : State) :
  (forall f, f ∈ log_files -> f ∈ processed) ->
  process_files job_id is_bucket processed log_files st = (st, LoopDone).
Proof.
  induction log_files as [|f files IH]; intros Hall; [done|]. simpl.
  rewrite decide_True by (apply Hall; by left).
  apply IH. intros g Hg. apply Hall. by right.
Qed.

(** The skipped files do not matter to the loop. *)
Lemma process_files_filter (job_id : string) (is_bucket : bool) (processed : gset string)
    (log_files : list string) (st : State) :
  process_files job_id is_bucket processed log_files st
  = process_files job_id is_bucket processed (filter (fun f => f ∉ processed) log_files) st.
Proof.
  revert st. induction log_files as [|f files IH]; intros st; [done|].
  rewrite filter_cons. simpl.
  destruct (decide (f ∈ processed)) as [Hin|Hnin].
  - rewrite (decide_False (P := f ∉ processed)) by (intros Hn; by apply Hn). apply IH.
  - rewrite (decide_True (P := f ∉ processed)) by done. simpl.
    rewrite (decide_False (P := f ∈ processed)) by done.
    destruct (decide _); [done|]. destruct (open_source is_bucket f); [|done].
    destruct (process_log_file _ _ _ _) as [st1 []]; [|done]. apply IH.
Qed.

(** X9: A task on a job whose files are all in the ledger reads no file: it
    leaves [logs], [job_metadata] and the four tables as they are and ends
    with the job COMPLETED, [files_processed] being the size of the ledger
    and [total_files] the number of files found. *)
Theorem finished_job_is_not_read_again (job_id : string)
    (folder_path customer_folder start_datetime end_datetime : option string)
    (log_files : list string) (display : string) (is_bucket : bool) (st : State) :
  enumerate_files folder_path customer_folder start_datetime end_datetime
  = Files log_files display is_bucket ->
  log_files <> [] ->
  (forall f, f ∈ log_files -> f ∈ ledger job_id (db st)) ->
  let r := process_job job_id folder_path customer_folder start_datetime end_datetime st in
  r.2 = true
  /\ mem r.1 = mkJobState display COMPLETED (size (ledger job_id (db st))) (length log_files)
  /\ db r.1 = update_job job_id
                (set_row_counters COMPLETED (length log_files) (size (ledger job_id (db st))))
                (db st)
  /\ exists d, durable r.1 = db r.1 :: d :: durable st.
Proof.
  intros Henum Hne Hall. unfold process_job. rewrite Henum.
  destruct log_files as [|f files]; [done|].
  change (length (f :: files) =? 0)%nat with false. cbv iota.
  rewrite process_files_skips by done. simpl.
  split; [done|]. split; [done|]. split; [|by eexists].
  unfold update_job, set_jobs. simpl. f_equal.
  apply map_eq. intros j. destruct (decide (j = job_id)) as [->|Hne'].
  - rewrite !lookup_alter_eq. by destruct (jobs (db st) !! job_id).
  - by rewrite !lookup_alter_ne.
Qed.

End Finished.

Lemma finished_job_is_not_read_again_witness :
  let F := (@Demo.ingest Demo.sample_tree "/logs" "T0").1 in
  @enumerate_files Py.runtime Demo.sample_tree (Some "/logs") None None None
  = Files ["/logs/a.gz"] "/logs" false
  /\ (forall f, f ∈ ["/logs/a.gz"] -> f ∈ ledger "logs_T0" (db F))
  /\ let r := @process_job Py.runtime Demo.sample_tree "logs_T0" (Some "/logs")
                None None None F in
     r.2 = true
     /\ mem r.1 = mkJobState "/logs" COMPLETED (size (ledger "logs_T0" (db F))) 1
     /\ db r.1 = update_job "logs_T0"
                   (set_row_counters COMPLETED 1 (size (ledger "logs_T0" (db F)))) (db F)
     /\ exists d, durable r.1 = db r.1 :: d :: durable F.
Proof.
  intros F.
  assert (Henum : @enumerate_files Py.runtime Demo.sample_tree (Some "/logs") None None None
                  = Files ["/logs/a.gz"] "/logs" false) by by_running.
  assert (Hne : ["/logs/a.gz"] <> @nil string) by discriminate.
  assert (Hall : forall f, f ∈ ["/logs/a.gz"] -> f ∈ ledger "logs_T0" (db F)).
  { intros f ->%list_elem_of_singleton.
    refine (bool_decide_unpack _ _). vm_compute. exact I. }
  split; [exact Henum|]. split; [exact Hall|].
  exact (@finished_job_is_not_read_again Py.runtime Demo.sample_tree "logs_T0"
           (Some "/logs") None None None ["/logs/a.gz"] "/logs" false F Henum Hne Hall).
Defined.

(** ** The counters of a completed job *)

Section Completed.
Context `{Runtime} `{Storage}.

Lemma length_filter_split {A} (P : A -> Prop) `{forall x, Decision (P x)} (l : list A) :
  (length (filter P l) + length (filter (fun x => ~ P x) l) = length l)%nat.
Proof.
  induction l as [|x l IH]; [done|]. rewrite !filter_cons.
  destruct (decide (P x)) as [Hp|Hn].
  - rewrite decide_False by (intros Hn; by apply Hn). simpl. lia.
  - rewrite decide_True by done. simpl. lia.
Qed.

(** A set of files of a list without repetition, and the files of the
    list outside it, add up to the list. *)
Lemma size_and_rest (L : gset string) (l : list string) :
  NoDup l -> (forall f, f ∈ L -> f ∈ l) ->
  (size L + length (filter (fun f => f ∉ L) l) = length l)%nat.
Proof.
  intros Hnd Hsub.
  rewrite <- (length_filter_split (fun f => f ∈ L) l).
  f_equal. unfold size, set_size. simpl.
  apply Permutation_length, NoDup_Permutation.
  - apply NoDup_elements.
  - by apply NoDup_filter.
  - intros f. rewrite elem_of_elements, list_elem_of_filter.
    split; [intros Hf; split; [done|by apply Hsub]|by intros [? _]].
Qed.

(** X10: When the task ends with the job COMPLETED, on a listing that names
    no file twice and a ledger that holds files of the listing only, the
    ledger holds exactly the files of the listing, and [files_processed] and
    [total_files] are both their number, in memory and in the [jobs] row. *)
Theorem completed_job_has_every_file (job_id : string)
    (folder_path customer_folder start_datetime end_datetime : option string)
    (log_files : list string) (display : string) (is_bucket : bool) (st st' : State) :
  enumerate_files folder_path customer_folder start_datetime end_datetime
  = Files log_files display is_bucket ->
  NoDup log_files ->
  (forall f, f ∈ ledger job_id (db st) -> f ∈ log_files) ->
  process_job job_id folder_path customer_folder start_datetime end_datetime st = (st', true) ->
  m_status (mem st') = COMPLETED ->
  (forall f, f ∈ ledger job_id (db st') <-> f ∈ log_files)
  /\ m_files_processed (mem st') = length log_files
  /\ m_total_files (mem st') = length log_files
  /\ forall row, jobs (db st') !! job_id = Some row ->
       j_status row = COMPLETED /\ j_files_processed row = length log_files
       /\ j_total_files row = length log_files.
Proof.
  intros Henum Hnd Hsub. unfold process_job. rewrite Henum.
  destruct (length log_files =? 0)%nat eqn:Hlen.
  { apply Nat.eqb_eq in Hlen. apply nil_length_inv in Hlen as ->.
    intros [= <-] _. simpl. split.
    - intros f. split; [apply Hsub|by intros ?%elem_of_nil].
    - split; [done|]. split; [done|]. intros row. updated_row. }
  set (st2 := with_mem _ (commit (with_db _ st))).
  destruct (process_files job_id is_bucket (ledger job_id (db st)) log_files st2)
    as [st3 exit] eqn:Hrun.
  destruct (process_files_spec job_id is_bucket _ _ _ _ _ Hrun)
    as (done & rest & news & Htodo & _ & _ & Hfp & Htot & _ & Hfresh & Hnd' & Hexit).
  destruct exit; [| |done].
  2:{ destruct Hexit as (_ & _ & Hp & _). intros [= <-] Hc. congruence. }
  destruct Hexit as [-> Hprog]. rewrite app_nil_r in Htodo.
  destruct (progress_ledger job_id is_bucket _ _ _ _ _ Hprog Hnd' Hfresh) as [Hled _].
  intros [= <-] _. simpl. split.
  - intros f. change (ledger job_id (update_job _ _ (db st3))) with (ledger job_id (db st3)).
    rewrite Hled. change (ledger job_id (db st2)) with (ledger job_id (db st)).
    rewrite <- Htodo, list_elem_of_filter.
    destruct (decide (f ∈ ledger job_id (db st))) as [Hin|Hnin]; [|tauto].
    split; [intros _; by apply Hsub|by left].
  - assert (Hcount : m_files_processed (mem st3) = length log_files).
    { rewrite Hfp, <- Htodo. simpl. by apply size_and_rest. }
    split; [done|]. split; [by rewrite Htot|].
    intros row. rewrite Hcount. updated_row.
Qed.

(** X11: A bucket job none of whose prefixes can be listed finds no file and
    is reported as COMPLETED with 0 files of 0: the failures of the listing
    are skipped one by one and do not fail the job. *)
Theorem unlisted_bucket_job_completes (job_id customer_folder start_datetime end_datetime : string)
    (s3_paths : list string) (st : State) :
  validate_customer_folder customer_folder = Some true ->
  generate_s3_paths customer_folder start_datetime end_datetime = Paths s3_paths ->
  (forall p, p ∈ s3_paths -> list_s3_files bucket_name p = None) ->
  let r := process_job job_id None (Some customer_folder) (Some start_datetime)
             (Some end_datetime) st in
  r.2 = true
  /\ mem r.1 = mkJobState (m_folder_path (mem st)) COMPLETED 0 0
  /\ db r.1 = update_job job_id (set_row_counters COMPLETED 0 0) (db st)
  /\ durable r.1 = db r.1 :: durable st
  /\ logger r.1 = logger st ++ [WarnNoFiles].
Proof.
  intros Hvalid Hpaths Hfail.
  assert (Hnone : list_bucket s3_paths = []).
  { clear Hpaths. unfold list_bucket. induction s3_paths as [|p ps IH]; [done|]. simpl.
    rewrite (Hfail p) by (by left). simpl. apply IH.
    intros q Hq. apply Hfail. by right. }
  unfold process_job.
  rewrite (enumerate_files_bucket _ _ _ _ Hvalid Hpaths), Hnone. done.
Qed.

End Completed.

Lemma completed_job_has_every_file_witness :
  let st := Demo.job_on empty_db "logs_T0" "/logs" RUNNING 0 0 [] in
  let files := ["/logs/a.gz"; "/logs/b.gz"] in
  let st' := (@process_job Py.runtime Samples.pair "logs_T0" (Some "/logs")
                None None None st).1 in
  @enumerate_files Py.runtime Samples.pair (Some "/logs") None None None
  = Files files "/logs" false
  /\ NoDup files
  /\ (forall f, f ∈ ledger "logs_T0" (db st) -> f ∈ files)
  /\ m_status (mem st') = COMPLETED
  /\ (forall f, f ∈ ledger "logs_T0" (db st') <-> f ∈ files)
  /\ m_files_processed (mem st') = length files
  /\ m_total_files (mem st') = length files
  /\ forall row, jobs (db st') !! "logs_T0" = Some row ->
       j_status row = COMPLETED /\ j_files_processed row = length files
       /\ j_total_files row = length files.
Proof.
  intros st files st'.
  assert (Henum : @enumerate_files Py.runtime Samples.pair (Some "/logs") None None None
                  = Files files "/logs" false) by by_running.
  assert (Hnd : NoDup files).
  { refine (bool_decide_unpack _ _). vm_compute. exact I. }
  assert (Hsub : forall f, f ∈ ledger "logs_T0" (db st) -> f ∈ files).
  { intros f Hf. apply elem_of_ledger in Hf. by apply not_elem_of_empty in Hf. }
  pose proof (surjective_pairing (@process_job Py.runtime Samples.pair "logs_T0"
                                    (Some "/logs") None None None st)) as Hrun.
  assert (Hok : (@process_job Py.runtime Samples.pair "logs_T0" (Some "/logs")
                   None None None st).2 = true) by by_running.
  rewrite Hok in Hrun.
  assert (Hdone : m_status (mem st') = COMPLETED) by by_running.
  split; [exact Henum|]. split; [exact Hnd|]. split; [exact Hsub|]. split; [exact Hdone|].
  exact (@completed_job_has_every_file Py.runtime Samples.pair "logs_T0" (Some "/logs")
           None None None files "/logs" false st st' Henum Hnd Hsub Hrun Hdone).
Defined.

Lemma unlisted_bucket_job_completes_witness :
  let st := Demo.job_on empty_db "acme_T0" "s3://k8-customer-logs/acme" RUNNING 0 0 [] in
  let bucket := S3.storage Samples.locked in
  let s3_paths := ["acme/20240101-00/"; "acme/20240101-01/"] in
  @validate_customer_folder bucket "acme" = Some true
  /\ generate_s3_paths "acme" "20240101-00" "20240101-01" = Paths s3_paths
  /\ (forall p, p ∈ s3_paths -> @list_s3_files bucket bucket_name p = None)
  /\ let r := @process_job Py.runtime bucket "acme_T0" None (Some "acme")
                (Some "20240101-00") (Some "20240101-01") st in
     r.2 = true
     /\ mem r.1 = mkJobState (m_folder_path (mem st)) COMPLETED 0 0
     /\ db r.1 = update_job "acme_T0" (set_row_counters COMPLETED 0 0) (db st)
     /\ durable r.1 = db r.1 :: durable st
     /\ logger r.1 = logger st ++ [WarnNoFiles].
Proof.
  intros st bucket s3_paths.
  assert (Hvalid : @validate_customer_folder bucket "acme" = Some true) by by_running.
  assert (Hpaths : generate_s3_paths "acme" "20240101-00" "20240101-01" = Paths s3_paths)
    by by_running.
  assert (Hfail : forall p, p ∈ s3_paths -> @list_s3_files bucket bucket_name p = None).
  { intros p _. reflexivity. }
  split; [exact Hvalid|]. split; [exact Hpaths|]. split; [exact Hfail|].
  exact (@unlisted_bucket_job_completes Py.runtime bucket "acme_T0" "acme" "20240101-00"
           "20240101-01" s3_paths st Hvalid Hpaths Hfail).
Defined.

(** ** A pause that comes during the last file *)

Section LastFile.
Context `{Runtime} `{Storage}.

(** X12: When one file is left to do and it can be processed, the task ends
    with the job COMPLETED whatever pause requests arrive while the file is
    read: the pause check stands before each file and there is none after
    the last, so a pause that [pause_job] has accepted is written over. *)
Theorem pause_during_last_file_is_lost (job_id : string)
    (folder_path customer_folder start_datetime end_datetime : option string)
    (log_files : list string) (display : string) (is_bucket : bool) (f : string)
    (st : State) :
  enumerate_files folder_path customer_folder start_datetime end_datetime
  = Files log_files display is_bucket ->
  filter (fun g => g ∉ ledger job_id (db st)) log_files = [f] ->
  file_ok job_id is_bucket f ->
  m_status (mem st) <> PAUSED ->
  let r := process_job job_id folder_path customer_folder start_datetime end_datetime st in
  r.2 = true
  /\ m_status (mem r.1) = COMPLETED
  /\ (exists older, durable r.1 = db r.1 :: older)
  /\ forall row, jobs (db r.1) !! job_id = Some row -> j_status row = COMPLETED.
Proof.
  intros Henum Hone (lines & Hopen & Hbind) Hrunning. unfold process_job. rewrite Henum.
  destruct log_files as [|g files]; [done|].
  change (length (g :: files) =? 0)%nat with false. cbv iota.
  rewrite process_files_filter, Hone.
  set (st2 := with_mem _ (commit (with_db _ st))).
  assert (Hnew : f ∉ ledger job_id (db st)).
  { assert (Hf : f ∈ filter (fun g => g ∉ ledger job_id (db st)) (g :: files))
      by (rewrite Hone; by left).
    by apply list_elem_of_filter in Hf as [? _]. }
  simpl. rewrite decide_False by done.
  rewrite decide_False by done. rewrite Hopen.
  destruct (process_log_file_spec f job_id lines false st2) as (_ & _ & Hok & _).
  destruct (process_log_file f job_id (lines, false) st2) as [st3 ok]. simpl in Hok.
  assert (ok = true) as ->.
  { apply Hok. split; [done|]. split; [done|]. by rewrite <- elem_of_ledger. }
  simpl. split; [done|]. split; [done|]. split; [by eexists|].
  intros row. rewrite !lookup_alter_eq.
  destruct (jobs (db st3) !! job_id); simpl; [by intros [= <-]|done].
Qed.

End LastFile.

Lemma pause_during_last_file_is_lost_witness :
  let st := Demo.job_on empty_db "logs_T0" "/logs" RUNNING 0 0 [true] in
  let r := @process_job Py.runtime Demo.long_file "logs_T0" (Some "/logs") None None None st in
  @enumerate_files Py.runtime Demo.long_file (Some "/logs") None None None
  = Files ["/logs/a.gz"] "/logs" false
  /\ filter (fun g => g ∉ ledger "logs_T0" (db st)) ["/logs/a.gz"] = ["/logs/a.gz"]
  /\ @file_ok Py.runtime Demo.long_file "logs_T0" false "/logs/a.gz"
  /\ m_status (mem st) <> PAUSED
  /\ j_status <$> jobs (default empty_db (durable r.1 !! 5%nat)) !! "logs_T0" = Some PAUSED
  /\ r.2 = true
  /\ m_status (mem r.1) = COMPLETED
  /\ (exists older, durable r.1 = db r.1 :: older)
  /\ forall row, jobs (db r.1) !! "logs_T0" = Some row -> j_status row = COMPLETED.
Proof.
  intros st r.
  assert (Henum : @enumerate_files Py.runtime Demo.long_file (Some "/logs") None None None
                  = Files ["/logs/a.gz"] "/logs" false) by by_running.
  assert (Hone : filter (fun g => g ∉ ledger "logs_T0" (db st)) ["/logs/a.gz"]
                 = ["/logs/a.gz"]) by by_running.
  assert (Hfile : @file_ok Py.runtime Demo.long_file "logs_T0" false "/logs/a.gz").
  { exists (repeat Demo.plain_line 501). split; by_running. }
  assert (Hrunning : m_status (mem st) <> PAUSED) by discriminate.
  split; [exact Henum|]. split; [exact Hone|]. split; [exact Hfile|].
  split; [exact Hrunning|]. split; [by_running|].
  exact (@pause_during_last_file_is_lost Py.runtime Demo.long_file "logs_T0" (Some "/logs")
           None None None ["/logs/a.gz"] "/logs" false "/logs/a.gz" st
           Henum Hone Hfile Hrunning).
Defined.

(** ** [start_job], [pause_job] and [resume_job] *)

Section Control.
Context `{Runtime}.

(** X13: The answers of [start_job].  Code 400 is given exactly to a request
    that is neither a folder alone nor a customer folder with both bounds of
    a range that parse, and leaves everything as it was.  Code 500 is the
    answer when the job id is already in [jobs]: the database is as it was,
    but the in-memory entry of that job has been written over and says
    ERROR.  Otherwise the id was new, the row and the entry say RUNNING with
    0 files of 0, the row is committed, no row of [logs] is touched, and the
    task carries the fields of the request. *)
Theorem start_job_answers (request : StartJobRequest) (start_time : string) (st : State) :
  let r := start_job request start_time st in
  let local := given (req_folder_path request)
               && negb (given (req_customer_folder request)
                        || given (req_start_datetime request)
                        || given (req_end_datetime request)) in
  let bucket := given (req_customer_folder request) && given (req_start_datetime request)
                && given (req_end_datetime request) in
  (r.1.2 = HTTPError 400
   <-> local = false
       /\ (bucket = false
           \/ strptime (py_str (req_start_datetime request)) "%Y%m%d-%H" = None
           \/ strptime (py_str (req_end_datetime request)) "%Y%m%d-%H" = None))
  /\ match r.1.2 with
     | OK =>
         exists job_id display,
           r.2 = Some (mkTask job_id (req_folder_path request) (req_customer_folder request)
                              (req_start_datetime request) (req_end_datetime request))
           /\ jobs (db st) !! job_id = None
           /\ jobs (db r.1.1) = <[job_id := mkJobRow display RUNNING 0 0 ""]> (jobs (db st))
           /\ mem r.1.1 = mkJobState display RUNNING 0 0
           /\ logs (db r.1.1) = logs (db st)
           /\ durable r.1.1 = db r.1.1 :: durable st
     | HTTPError code =>
         r.2 = None /\ db r.1.1 = db st /\ durable r.1.1 = durable st
         /\ ((code = 400%nat /\ r.1.1 = st)
             \/ (code = 500%nat /\ mem r.1.1 = mkJobState (m_folder_path (mem r.1.1)) ERROR 0 0))
     end.
Proof.
  intros r local bucket. subst r. unfold start_job. fold local. fold bucket.
  assert (Hrun : forall job_id display,
    let r := match jobs (db st) !! job_id with
             | Some _ =>
                 (with_mem (set_status ERROR)
                    (with_mem (fun _ => mkJobState display RUNNING 0 0) st), HTTPError 500, None)
             | None =>
                 let st2 := with_db (set_jobs (insert job_id (mkJobRow display RUNNING 0 0 "")))
                              (with_mem (fun _ => mkJobState display RUNNING 0 0) st) in
                 let st3 := if bucket then
                   with_db (set_job_metadata (fun md =>
                     md ∪ {[(job_id, "start_datetime", py_str (req_start_datetime request))]}
                        ∪ {[(job_id, "end_datetime", py_str (req_end_datetime request))]})) st2
                   else st2 in
                 (commit st3, OK,
                  Some (mkTask job_id (req_folder_path request) (req_customer_folder request)
                          (req_start_datetime request) (req_end_datetime request)))
             end in
    r.1.2 <> HTTPError 400
    /\ match r.1.2 with
       | OK =>
           exists job_id display,
             r.2 = Some (mkTask job_id (req_folder_path request) (req_customer_folder request)
                           (req_start_datetime request) (req_end_datetime request))
             /\ jobs (db st) !! job_id = None
             /\ jobs (db r.1.1) = <[job_id := mkJobRow display RUNNING 0 0 ""]> (jobs (db st))
             /\ mem r.1.1 = mkJobState display RUNNING 0 0
             /\ logs (db r.1.1) = logs (db st)
             /\ durable r.1.1 = db r.1.1 :: durable st
       | HTTPError code =>
           r.2 = None /\ db r.1.1 = db st /\ durable r.1.1 = durable st
           /\ ((code = 400%nat /\ r.1.1 = st)
               \/ (code = 500%nat
                   /\ mem r.1.1 = mkJobState (m_folder_path (mem r.1.1)) ERROR 0 0))
       end).
  { intros job_id display. simpl.
    destruct (jobs (db st) !! job_id) eqn:Hrow; simpl.
    - split; [done|]. split; [done|]. split; [done|]. split; [done|]. by right.
    - split; [done|]. exists job_id, display. split; [done|]. split; [done|].
      by destruct bucket. }
  destruct local; simpl.
  { destruct (Hrun (last_segment (py_str (req_folder_path request)) +:+ "_" +:+ start_time)
                   (py_str (req_folder_path request))) as [Hne Hres].
    split; [|exact Hres]. split; [done|]. by intros [? _]. }
  destruct bucket eqn:Hbucket; simpl.
  2:{ split; [split; [intros _; split; [done|by left]|done]|].
      split; [done|]. split; [done|]. split; [done|]. by left. }
  destruct (strptime (py_str (req_start_datetime request)) _) as [s|] eqn:Hs.
  2:{ split; [split; [intros _; split; [done|right; by left]|done]|].
      split; [done|]. split; [done|]. split; [done|]. by left. }
  destruct (strptime (py_str (req_end_datetime request)) _) as [e|] eqn:He.
  2:{ split; [split; [intros _; split; [done|right; by right]|done]|].
      split; [done|]. split; [done|]. split; [done|]. by left. }
  destruct (Hrun (py_str (req_customer_folder request) +:+ "_" +:+ start_time)
                 ("s3://k8-customer-logs/" +:+ py_str (req_customer_folder request)))
    as [Hne Hres].
  split; [|exact Hres]. split; [done|]. intros [_ [?|[?|?]]]; done.
Qed.

Lemma prefix_of_longer (a b s : string) :
  String.prefix (a +:+ b) s = true -> String.prefix a s = true.
Proof.
  revert s. induction a as [|c a IH]; intros s; [by destruct s|].
  destruct s as [|c' s]; simpl; [done|].
  destruct (ascii_dec c c'); [apply IH|done].
Qed.

(** X14: A job that [start_job] has started on a local folder whose path
    does not begin with [s3://], once paused, is resumed with the task it
    was started with: [resume_job] reads the folder back from the [jobs]
    row.  After the resume the entry and the row of the job have the
    folder, the status and the counters they had before the pause (their
    [last_updated], which both handlers write anew, is outside the model),
    and the rows of other jobs, [logs], [job_metadata] and the four tables
    are as they were. *)
Theorem local_job_resumes_with_its_task (folder start_time : string) (st : State) :
  nonempty folder = true ->
  String.prefix "s3://" folder = false ->
  let job_id := last_segment folder +:+ "_" +:+ start_time in
  jobs (db st) !! job_id = None ->
  let task := mkTask job_id (Some folder) None None None in
  exists st1 st2 st3,
    start_job (mkRequest (Some folder) None None None) start_time st = (st1, OK, Some task)
    /\ pause_job job_id st1 = (st2, true)
    /\ m_status (mem st2) = PAUSED
    /\ resume_job job_id st2 = (st3, OK, Some task)
    /\ same_entry (mem st1) (mem st3)
    /\ (exists row1 row3,
          jobs (db st1) !! job_id = Some row1 /\ jobs (db st3) !! job_id = Some row3
          /\ same_row row1 row3 /\ j_status row3 = RUNNING)
    /\ (forall j, j <> job_id -> jobs (db st3) !! j = jobs (db st1) !! j)
    /\ logs (db st3) = logs (db st1)
    /\ job_metadata (db st3) = job_metadata (db st1)
    /\ class_level_counts (db st3) = class_level_counts (db st1)
    /\ service_level_counts (db st3) = service_level_counts (db st1)
    /\ timeline_counts (db st3) = timeline_counts (db st1)
    /\ class_service_counts (db st3) = class_service_counts (db st1).
Proof.
  intros Hfolder Hlocal job_id Hnew task.
  eexists _, _, _. unfold start_job. simpl. rewrite Hfolder. simpl.
  fold job_id. rewrite Hnew. split; [reflexivity|].
  unfold pause_job. simpl. split; [reflexivity|]. split; [done|].
  unfold resume_job. simpl. unfold update_job. simpl.
  rewrite lookup_alter_eq, lookup_insert_eq. simpl.
  destruct (String.prefix "s3://k8-customer-logs/" folder) eqn:Hbucket.
  { apply (prefix_of_longer "s3://" "k8-customer-logs/") in Hbucket. congruence. }
  rewrite Hlocal. split; [reflexivity|]. simpl.
  split; [done|]. split.
  { eexists _, _. rewrite !lookup_alter_eq, lookup_insert_eq. simpl. done. }
  split; [|done].
  intros j Hne. by rewrite !lookup_alter_ne.
Qed.

End Control.

Lemma local_job_resumes_with_its_task_witness :
  let task := mkTask "logs_T0" (Some "/var/logs") None None None in
  nonempty "/var/logs" = true
  /\ String.prefix "s3://" "/var/logs" = false
  /\ jobs (db boot) !! (last_segment "/var/logs" +:+ "_" +:+ "T0") = None
  /\ exists st1 st2 st3,
       start_job (mkRequest (Some "/var/logs") None None None) "T0" boot
       = (st1, OK, Some task)
       /\ pause_job "logs_T0" st1 = (st2, true)
       /\ m_status (mem st2) = PAUSED
       /\ resume_job "logs_T0" st2 = (st3, OK, Some task)
       /\ same_entry (mem st1) (mem st3)
       /\ logs (db st3) = logs (db st1).
Proof.
  intros task.
  assert (Hfolder : nonempty "/var/logs" = true) by reflexivity.
  assert (Hlocal : String.prefix "s3://" "/var/logs" = false) by reflexivity.
  assert (Hnew : jobs (db boot) !! (last_segment "/var/logs" +:+ "_" +:+ "T0") = None)
    by reflexivity.
  split; [exact Hfolder|]. split; [exact Hlocal|]. split; [exact Hnew|].
  destruct (local_job_resumes_with_its_task "/var/logs" "T0" boot Hfolder Hlocal Hnew)
    as (st1 & st2 & st3 & Hstart & Hpause & Hpaused & Hresume & Hentry & _ & _ & Hlogs & _).
  exists st1, st2, st3. repeat (split; [assumption|]). exact Hlogs.
Defined.

(** ** [delete_job] *)

Section Delete.
Context `{Runtime}.

Lemma table_total_none (j : string) (t : gmap Key Z) :
  (forall k c, t !! k = Some c -> k.1.1 <> j) -> table_total j t = 0.
Proof.
  induction t as [|k c t Hfresh IH] using map_ind; intros Hall; [done|].
  rewrite table_total_insert_fresh by done.
  rewrite decide_False by (apply (Hall k c); by rewrite lookup_insert_eq).
  rewrite IH; [done|]. intros k' c' Hk'. apply (Hall k' c').
  rewrite lookup_insert_ne; [done|]. intros ->. congruence.
Qed.

Lemma table_total_filter (j job_id : string) (t : gmap Key Z) :
  j <> job_id ->
  table_total j (filter (fun kc : Key * Z => kc.1.1.1 <> job_id) t) = table_total j t.
Proof.
  intros Hne. induction t as [|k c t Hfresh IH] using map_ind; [done|].
  rewrite table_total_insert_fresh by done.
  destruct (decide (k.1.1 = job_id)) as [Hk|Hk].
  - rewrite map_filter_insert_not by (intros y Hy; by apply Hy).
    rewrite decide_False by congruence. by rewrite IH.
  - rewrite map_filter_insert_True by done.
    rewrite table_total_insert_fresh by (by apply map_lookup_filter_None; left).
    by rewrite IH.
Qed.

Lemma elem_of_metadata_values (job_id type value : string) (d : DB) :
  value ∈ metadata_values job_id type d <-> (job_id, type, value) ∈ job_metadata d.
Proof.
  unfold metadata_values. rewrite elem_of_set_omap. split.
  - intros ([[j t] v] & Hin & Hk). simpl in Hk.
    destruct (decide _) as [[-> ->]|]; [|done]. by injection Hk as ->.
  - intros Hin. exists (job_id, type, value). split; [done|]. simpl.
    by rewrite decide_True.
Qed.

(** X15: What [delete_job] answers with OK has left nothing of the job: no
    entry (the status is then 404), no row in [jobs], in [logs] or in
    [job_metadata], and no count in any of the four tables. *)
Theorem delete_job_leaves_nothing (job_id : string) (b b' : Backend) :
  delete_job job_id b = (b', OK) ->
  let d := database b' in
  get_job_status job_id b' = (HTTPError 404, None)
  /\ jobs d !! job_id = None
  /\ (forall r, r ∈ logs d -> r_job_id r <> job_id)
  /\ (forall k : Key, k ∈ job_metadata d -> k.1.1 <> job_id)
  /\ (forall key : Key, key.1.1 = job_id ->
        class_level_counts d !! key = None /\ service_level_counts d !! key = None
        /\ timeline_counts d !! key = None /\ class_service_counts d !! key = None)
  /\ rows_of_job job_id (logs d) = 0
  /\ table_total job_id (class_level_counts d) = 0
  /\ table_total job_id (service_level_counts d) = 0
  /\ table_total job_id (timeline_counts d) = 0
  /\ table_total job_id (class_service_counts d) = 0.
Proof.
  unfold delete_job. destruct (job_states b !! job_id) as [m|]; [|done].
  intros [= <-]. simpl.
  assert (Hgone : forall (t : gmap Key Z) (k : Key) (c : Z),
            filter (fun kc : Key * Z => kc.1.1.1 <> job_id) t !! k = Some c ->
            k.1.1 <> job_id).
  { intros t k c [_ Hk]%map_lookup_filter_Some. done. }
  assert (Hnone : forall (t : gmap Key Z) (key : Key),
            key.1.1 = job_id ->
            filter (fun kc : Key * Z => kc.1.1.1 <> job_id) t !! key = None).
  { intros t key Hkey. apply map_lookup_filter_None. right. intros c _ Hk. by apply Hk. }
  split; [unfold get_job_status; simpl; by rewrite lookup_delete_eq|].
  split; [by rewrite lookup_delete_eq|].
  split; [by intros r [? _]%list_elem_of_filter|].
  split; [by intros k [? _]%elem_of_filter|].
  split; [intros key Hkey; by rewrite !Hnone|].
  split.
  { unfold rows_of_job. rewrite list_filter_filter.
    rewrite (filter_none (fun r => r_job_id r = job_id /\ r_job_id r <> job_id)); [done|].
    by intros r _ [? ?]. }
  split; [apply table_total_none, Hgone|]. split; [apply table_total_none, Hgone|].
  split; apply table_total_none, Hgone.
Qed.

(** X16: [delete_job] leaves every other job as it was: its entry, its row
    in [jobs], its rows in [logs] in their order, its metadata and ledger
    and its counts; the totals of its tables still match its rows if they
    did before. *)
Theorem delete_job_keeps_other_jobs (job_id other : string) (b b' : Backend) :
  delete_job job_id b = (b', OK) ->
  other <> job_id ->
  let d := database b in
  let d' := database b' in
  get_job_status other b' = get_job_status other b
  /\ jobs d' !! other = jobs d !! other
  /\ filter (fun r => r_job_id r = other) (logs d') = filter (fun r => r_job_id r = other) (logs d)
  /\ (forall cache, get_job_metadata other d' cache = get_job_metadata other d cache)
  /\ get_processed_files other b' = get_processed_files other b
  /\ (forall key : Key, key.1.1 = other ->
        class_level_counts d' !! key = class_level_counts d !! key
        /\ service_level_counts d' !! key = service_level_counts d !! key
        /\ timeline_counts d' !! key = timeline_counts d !! key
        /\ class_service_counts d' !! key = class_service_counts d !! key)
  /\ (round_trip other d -> round_trip other d').
Proof.
  unfold delete_job. destruct (job_states b !! job_id) as [m|]; [|done].
  intros [= <-] Hne. simpl.
  assert (Hkeep : forall (t : gmap Key Z) (key : Key),
            key.1.1 = other ->
            filter (fun kc : Key * Z => kc.1.1.1 <> job_id) t !! key = t !! key).
  { intros t key Hkey. apply option_eq. intros c.
    rewrite map_lookup_filter_Some. simpl. split; [by intros [? _]|].
    intros Hc. split; [done|]. congruence. }
  assert (Hvalues : forall type,
            metadata_values other type (delete_rows job_id (database b))
            = metadata_values other type (database b)).
  { intros type. apply set_eq. intros v. rewrite !elem_of_metadata_values. simpl.
    rewrite elem_of_filter. simpl. split; [by intros [_ ?]|by intros ?]. }
  assert (Hrows : forall (P : LogRow -> Prop) `{!forall r, Decision (P r)},
            (forall r, P r -> r_job_id r = other) ->
            filter P (filter (fun r => r_job_id r <> job_id) (logs (database b)))
            = filter P (logs (database b))).
  { intros P ? HP. apply list_filter_filter_l. intros r Hr. rewrite (HP r Hr). done. }
  split; [unfold get_job_status; simpl; by rewrite lookup_delete_ne|].
  split; [by rewrite lookup_delete_ne|].
  split; [by apply Hrows|].
  split; [intros cache; unfold get_job_metadata, query_job_metadata; by rewrite !Hvalues|].
  split.
  { unfold get_processed_files. simpl. rewrite lookup_delete_ne by done.
    destruct (job_states b !! other); [|done].
    by rewrite (Hvalues "processed_file" : ledger other _ = ledger other _). }
  split; [intros key Hkey; by rewrite !Hkeep|].
  unfold round_trip, counted. simpl.
  rewrite !table_total_filter by done.
  rewrite !Hrows by (by intros r [? _]). done.
Qed.

End Delete.

Lemma delete_job_leaves_nothing_witness :
  let b' := (delete_job "logs_T0" Samples.two_jobs).1 in
  let d := database b' in
  delete_job "logs_T0" Samples.two_jobs = (b', OK)
  /\ rows_of_job "logs_T0" (logs (database Samples.two_jobs)) = 3
  /\ get_job_status "logs_T0" b' = (HTTPError 404, None)
  /\ jobs d !! "logs_T0" = None
  /\ (forall r, r ∈ logs d -> r_job_id r <> "logs_T0")
  /\ (forall k : Key, k ∈ job_metadata d -> k.1.1 <> "logs_T0")
  /\ (forall key : Key, key.1.1 = "logs_T0" ->
        class_level_counts d !! key = None /\ service_level_counts d !! key = None
        /\ timeline_counts d !! key = None /\ class_service_counts d !! key = None)
  /\ rows_of_job "logs_T0" (logs d) = 0
  /\ table_total "logs_T0" (class_level_counts d) = 0
  /\ table_total "logs_T0" (service_level_counts d) = 0
  /\ table_total "logs_T0" (timeline_counts d) = 0
  /\ table_total "logs_T0" (class_service_counts d) = 0.
Proof.
  intros b' d.
  pose proof (surjective_pairing (delete_job "logs_T0" Samples.two_jobs)) as Hrun.
  assert (Hok : (delete_job "logs_T0" Samples.two_jobs).2 = OK) by by_running.
  rewrite Hok in Hrun.
  split; [exact Hrun|]. split; [by_running|].
  exact (delete_job_leaves_nothing "logs_T0" Samples.two_jobs b' Hrun).
Defined.

Lemma delete_job_keeps_other_jobs_witness :
  let b := Samples.two_jobs in
  let b' := (delete_job "logs_T0" b).1 in
  let d := database b in
  let d' := database b' in
  delete_job "logs_T0" b = (b', OK)
  /\ "logs_T1" <> "logs_T0"
  /\ rows_of_job "logs_T1" (logs d') = 3
  /\ get_job_status "logs_T1" b' = get_job_status "logs_T1" b
  /\ jobs d' !! "logs_T1" = jobs d !! "logs_T1"
  /\ filter (fun r => r_job_id r = "logs_T1") (logs d')
     = filter (fun r => r_job_id r = "logs_T1") (logs d)
  /\ (forall cache, get_job_metadata "logs_T1" d' cache = get_job_metadata "logs_T1" d cache)
  /\ get_processed_files "logs_T1" b' = get_processed_files "logs_T1" b
  /\ (forall key : Key, key.1.1 = "logs_T1" ->
        class_level_counts d' !! key = class_level_counts d !! key
        /\ service_level_counts d' !! key = service_level_counts d !! key
        /\ timeline_counts d' !! key = timeline_counts d !! key
        /\ class_service_counts d' !! key = class_service_counts d !! key)
  /\ (round_trip "logs_T1" d -> round_trip "logs_T1" d').
Proof.
  intros b b' d d'.
  pose proof (surjective_pairing (delete_job "logs_T0" b)) as Hrun.
  assert (Hok : (delete_job "logs_T0" b).2 = OK) by by_running.
  rewrite Hok in Hrun.
  assert (Hne : "logs_T1" <> "logs_T0") by discriminate.
  split; [exact Hrun|]. split; [exact Hne|]. split; [by_running|].
  exact (delete_job_keeps_other_jobs "logs_T0" "logs_T1" b b' Hrun Hne).
Defined.

(** ** One job and the others *)

Section Isolation.
Context `{Runtime} `{Storage}.
Variable job_id : string.

Lemma other_jobs_same_refl (d : DB) : other_jobs_same job_id d d.
Proof. split; [done|]. split; [done|]. split; done. Qed.

Lemma other_jobs_same_trans (d0 d1 d2 : DB) :
  other_jobs_same job_id d0 d1 -> other_jobs_same job_id d1 d2 ->
  other_jobs_same job_id d0 d2.
Proof.
  intros (Hj1 & Hl1 & Hm1 & Ht1) (Hj2 & Hl2 & Hm2 & Ht2).
  split; [intros j Hj; by rewrite Hj2, Hj1|].
  split; [by rewrite Hl2, Hl1|].
  split; [intros k Hk; by rewrite Hm2, Hm1|].
  intros k Hk. destruct (Ht1 k Hk) as (? & ? & ? & ?).
  destruct (Ht2 k Hk) as (? & ? & ? & ?). repeat split; congruence.
Qed.

Lemma kept_apart_refl (st : State) : kept_apart job_id st st.
Proof. split; [apply other_jobs_same_refl|]. by exists []. Qed.

Lemma kept_apart_trans (st0 st1 st2 : State) :
  kept_apart job_id st0 st1 -> kept_apart job_id st1 st2 -> kept_apart job_id st0 st2.
Proof.
  intros (Hd1 & news1 & Hn1 & Hall1) (Hd2 & news2 & Hn2 & Hall2).
  split; [by apply other_jobs_same_trans with (db st1)|].
  exists (news2 ++ news1). split; [by rewrite Hn2, Hn1, app_assoc|].
  apply Forall_app. split; [|done].
  eapply Forall_impl; [exact Hall2|]. intros d. by apply other_jobs_same_trans.
Qed.

(** A step that leaves the database and the commits alone. *)
Lemma kept_apart_same (st st' : State) :
  db st' = db st -> durable st' = durable st -> kept_apart job_id st st'.
Proof.
  intros Hdb Hdur. split; [rewrite Hdb; apply other_jobs_same_refl|].
  exists []. by rewrite Hdur.
Qed.

Lemma kept_apart_commit (st : State) : kept_apart job_id st (commit st).
Proof.
  split; [apply other_jobs_same_refl|]. exists [db st]. split; [done|].
  constructor; [apply other_jobs_same_refl|constructor].
Qed.

Lemma kept_apart_with_db (f : DB -> DB) (st : State) :
  other_jobs_same job_id (db st) (f (db st)) -> kept_apart job_id st (with_db f st).
Proof. intros Hf. split; [done|]. by exists []. Qed.

Lemma other_jobs_same_update_job (f : JobRow -> JobRow) (d : DB) :
  other_jobs_same job_id d (update_job job_id f d).
Proof.
  split; [intros j Hj; simpl; by rewrite lookup_alter_ne|].
  split; [done|]. split; done.
Qed.

Lemma other_jobs_same_metadata (extra : gset Key) (d : DB) :
  (forall k, k ∈ extra -> k.1.1 = job_id) ->
  other_jobs_same job_id d (set_job_metadata (fun md => md ∪ extra) d).
Proof.
  intros Hextra. split; [done|]. split; [done|]. split; [|done].
  intros k Hk. simpl. rewrite elem_of_union. split; [|by left].
  intros [?|Hin]; [done|]. by apply Hextra in Hin.
Qed.

Lemma other_jobs_same_insert_names (cs ss : gset string) (d : DB) :
  other_jobs_same job_id d (insert_names job_id cs ss d).
Proof.
  split; [done|]. split; [done|]. split; [|done].
  intros k Hk. simpl. rewrite !elem_of_union, !elem_of_map. split; [|by left; left].
  intros [[?|(c & -> & _)]|(s & -> & _)]; done.
Qed.

Lemma other_jobs_same_executemany (rows : list LogRow) (d : DB) :
  Forall (fun r => r_job_id r = job_id) rows ->
  other_jobs_same job_id d (executemany_logs rows d).1.
Proof.
  revert d. induction rows as [|r rows IH]; intros d Hall; [apply other_jobs_same_refl|].
  apply Forall_cons in Hall as [Hr Hall]. simpl.
  destruct (bindable_row r); [|apply other_jobs_same_refl].
  eapply other_jobs_same_trans; [|by apply IH].
  split; [done|]. split; [|split; done]. simpl.
  rewrite filter_app, filter_cons, decide_False by (intros Hn; by apply Hn).
  by rewrite filter_nil, app_nil_r.
Qed.

Lemma other_jobs_same_summary (es : list LogEntry) (st : State) :
  other_jobs_same job_id (db st) (db (update_summary_tables job_id es st)).
Proof.
  destruct (tally job_id empty_batches es) as [b|] eqn:Htally.
  2:{ unfold update_summary_tables. rewrite Htally. apply other_jobs_same_refl. }
  rewrite update_summary_tables_db by (by eapply tally_timestamp_ok).
  split; [done|]. split; [done|]. split; [done|]. intros k Hk. simpl.
  assert (Hup : forall (f : string -> LogEntry -> option Key) (t : gmap Key Z),
            (forall e k', f job_id e = Some k' -> k'.1.1 = job_id) ->
            upsert_all t (incr_all (omap (f job_id) es) []) !! k = t !! k).
  { intros f t Hf. rewrite lookup_counted_in, decide_False; [done|].
    intros Hin. pose proof (omap_keys_job f job_id es Hf) as Hall.
    rewrite Forall_forall in Hall. by apply Hall in Hin. }
  rewrite (Hup key_class_level) by apply key_class_level_job.
  rewrite (Hup key_service_level) by apply key_service_level_job.
  rewrite (Hup key_timeline) by apply key_timeline_job.
  rewrite (Hup key_class_service) by apply key_class_service_job. done.
Qed.

Lemma kept_apart_summary (es : list LogEntry) (st : State) :
  kept_apart job_id st (update_summary_tables job_id es st).
Proof.
  pose proof (other_jobs_same_summary es st) as Hdb.
  unfold update_summary_tables in *.
  destruct (tally job_id empty_batches es) as [b|]; [|by apply kept_apart_same].
  assert (Hstep : kept_apart job_id st (commit (with_db (apply_batches b) st))).
  { eapply kept_apart_trans; [|apply kept_apart_commit].
    apply kept_apart_with_db. by destruct (0 <? b_invalid_timestamp_count b)%nat. }
  destruct (0 <? b_invalid_timestamp_count b)%nat; [|done].
  eapply kept_apart_trans; [exact Hstep|]. by apply kept_apart_same.
Qed.

Lemma kept_apart_yield (st : State) : kept_apart job_id st (yield_point job_id st).
Proof.
  unfold yield_point. destruct (requests st) as [|[] rest]; [by apply kept_apart_same| |].
  - unfold pause_job. simpl. destruct (decide _); simpl.
    + set (st1 := mkState (db st) (durable st) (set_status PAUSED (mem st)) (logger st) rest).
      apply (kept_apart_trans st st1); [by apply kept_apart_same|].
      eapply kept_apart_trans; [|apply kept_apart_commit].
      apply (kept_apart_with_db _ st1), other_jobs_same_update_job.
    + by apply kept_apart_same.
  - by apply kept_apart_same.
Qed.

Lemma kept_apart_flush (loc : Locals) (st : State) :
  Forall (fun r => r_job_id r = job_id) (log_batch loc) ->
  kept_apart job_id st (flush_batch job_id loc st).1.
Proof.
  intros Hrows. unfold flush_batch.
  pose proof (other_jobs_same_executemany (log_batch loc) (db st) Hrows) as Hexec.
  destruct (executemany_logs (log_batch loc) (db st)) as [d1 ok]. simpl in Hexec.
  set (st1 := with_db (fun _ => d1) st).
  assert (H1 : kept_apart job_id st st1) by by apply kept_apart_with_db.
  destruct ok; [|done]. simpl.
  eapply kept_apart_trans; [exact H1|].
  eapply kept_apart_trans; [apply kept_apart_summary|].
  eapply kept_apart_trans; [|apply kept_apart_commit].
  apply kept_apart_with_db, other_jobs_same_insert_names.
Qed.

Lemma kept_apart_line (file_path folder file_name : string) (idx : nat) (line : string)
    (loc : Locals) (st : State) :
  Forall (fun r => r_job_id r = job_id) (log_batch loc) ->
  let ls := line_body file_path job_id folder file_name idx line (loc, st) in
  Forall (fun r => r_job_id r = job_id) (log_batch ls.1) /\ kept_apart job_id st ls.2.
Proof.
  intros Hrows. unfold line_body.
  destruct (parse_fields line) as [|m|e m i]; cbn [fst snd].
  - split; [done|by apply kept_apart_same].
  - split; [done|by apply kept_apart_same].
  - set (loc1 := append_entry _ e m i loc).
    assert (Hrows1 : Forall (fun r => r_job_id r = job_id) (log_batch loc1)).
    { apply Forall_app. split; [done|]. by constructor. }
    destruct (batch_size <=? length (log_batch loc1))%nat; cbn [fst snd];
      [|split; [done|apply kept_apart_refl]].
    pose proof (kept_apart_flush loc1 st Hrows1) as Hflush.
    destruct (flush_batch job_id loc1 st) as [st1 ok]. cbn [fst snd] in *.
    destruct ok; cbn [fst snd].
    + split; [constructor|]. eapply kept_apart_trans; [exact Hflush|apply kept_apart_yield].
    + split; [done|]. eapply kept_apart_trans; [exact Hflush|by apply kept_apart_same].
Qed.

Lemma kept_apart_lines (file_path folder file_name : string) (lines : list string)
    (idx : nat) (loc : Locals) (st : State) :
  Forall (fun r => r_job_id r = job_id) (log_batch loc) ->
  let ls := for_lines file_path job_id folder file_name idx lines (loc, st) in
  Forall (fun r => r_job_id r = job_id) (log_batch ls.1) /\ kept_apart job_id st ls.2.
Proof.
  revert idx loc st. induction lines as [|line lines IH]; intros idx loc st Hrows.
  { split; [done|apply kept_apart_refl]. }
  cbn [for_lines].
  destruct (kept_apart_line file_path folder file_name idx line loc st Hrows) as [Hr1 Hk1].
  destruct (line_body file_path job_id folder file_name idx line (loc, st)) as [loc1 st1].
  destruct (IH (S idx) loc1 st1 Hr1) as [Hr2 Hk2].
  split; [done|]. by apply kept_apart_trans with st1.
Qed.

Lemma kept_apart_file (file_path : string) (source : list string * bool) (st : State) :
  kept_apart job_id st (process_log_file file_path job_id source st).1.
Proof.
  unfold process_log_file.
  destruct (kept_apart_lines file_path (dirname file_path) (basename file_path)
              source.1 0 init_locals st) as [Hrows Hloop]; [constructor|].
  destruct (for_lines _ _ _ _ _ _ _) as [loc st1]. simpl in Hrows, Hloop.
  destruct (source.2).
  { eapply kept_apart_trans; [exact Hloop|by apply kept_apart_same]. }
  assert (Hflush : kept_apart job_id st
            (match log_batch loc with
             | [] => (st1, true)
             | _ :: _ => flush_batch job_id loc st1
             end).1).
  { destruct (log_batch loc) eqn:Hbatch; [done|].
    eapply kept_apart_trans; [exact Hloop|]. apply kept_apart_flush. by rewrite Hbatch. }
  destruct (match log_batch loc with [] => _ | _ => _ end) as [st2 ok]. simpl in Hflush.
  destruct ok; [|eapply kept_apart_trans; [exact Hflush|by apply kept_apart_same]].
  destruct (decide _); simpl.
  { eapply kept_apart_trans; [exact Hflush|by apply kept_apart_same]. }
  eapply kept_apart_trans; [exact Hflush|].
  eapply kept_apart_trans; [|by apply kept_apart_same].
  eapply kept_apart_trans; [|apply kept_apart_commit].
  apply kept_apart_with_db, other_jobs_same_metadata.
  by intros k ->%elem_of_singleton.
Qed.

Lemma kept_apart_update_job (f : JobRow -> JobRow) (st : State) :
  kept_apart job_id st (commit (with_db (update_job job_id f) st)).
Proof.
  eapply kept_apart_trans; [|apply kept_apart_commit].
  apply kept_apart_with_db, other_jobs_same_update_job.
Qed.

Lemma kept_apart_files (is_bucket : bool) (processed : gset string)
    (log_files : list string) (st : State) :
  kept_apart job_id st (process_files job_id is_bucket processed log_files st).1.
Proof.
  revert st. induction log_files as [|f files IH]; intros st; [apply kept_apart_refl|].
  simpl. destruct (decide (f ∈ processed)); [apply IH|].
  destruct (decide (m_status (mem st) = PAUSED)).
  { simpl. apply (kept_apart_trans st (log_event (InfoPaused job_id f) st));
      [by apply kept_apart_same|apply kept_apart_update_job]. }
  destruct (open_source is_bucket f) as [source|]; [|apply kept_apart_refl].
  pose proof (kept_apart_file f source st) as Hfile.
  destruct (process_log_file f job_id source st) as [st1 ok]. simpl in Hfile.
  destruct ok; [|done].
  eapply kept_apart_trans; [exact Hfile|].
  eapply kept_apart_trans; [|apply IH].
  set (st2 := with_mem _ st1).
  apply (kept_apart_trans st1 st2); [by apply kept_apart_same|apply kept_apart_update_job].
Qed.

Lemma kept_apart_failed (st : State) : kept_apart job_id st (job_failed job_id st).
Proof.
  unfold job_failed.
  set (st1 := with_mem (set_status ERROR) (log_event (ErrorJob job_id) st)).
  apply (kept_apart_trans st st1); [by apply kept_apart_same|apply kept_apart_update_job].
Qed.

(** X17: A task works on the rows of its own job only.  However it ends, the
    database it leaves and every state it has committed on the way hold, for
    each other job, the row in [jobs], the rows in [logs] in their order,
    the rows of [job_metadata] and the counts of the four tables that were
    there when it began. *)
Theorem other_jobs_are_left_alone
    (folder_path customer_folder start_datetime end_datetime : option string) (st : State) :
  kept_apart job_id st
    (process_job job_id folder_path customer_folder start_datetime end_datetime st).1.
Proof.
  unfold process_job.
  destruct (enumerate_files _ _ _ _) as [name| |log_files display is_bucket]; simpl.
  - eapply kept_apart_trans; [|by apply kept_apart_same].
    apply (kept_apart_trans st (log_event (ErrorInvalidSource name) st));
      [by apply kept_apart_same|apply kept_apart_update_job].
  - apply kept_apart_failed.
  - destruct (length log_files =? 0)%nat; simpl.
    { eapply kept_apart_trans; [|by apply kept_apart_same].
      apply (kept_apart_trans st (log_event WarnNoFiles st));
        [by apply kept_apart_same|apply kept_apart_update_job]. }
    set (st1 := commit (with_db _ st)). set (st2 := with_mem _ st1).
    assert (H2 : kept_apart job_id st st2).
    { apply (kept_apart_trans st st1); [apply kept_apart_update_job|by apply kept_apart_same]. }
    pose proof (kept_apart_files is_bucket (ledger job_id (db st)) log_files st2) as Hloop.
    destruct (process_files _ _ _ _ _) as [st3 exit]. simpl in Hloop.
    assert (H3 : kept_apart job_id st st3) by by apply kept_apart_trans with st2.
    destruct exit; simpl.
    + eapply kept_apart_trans; [exact H3|].
      set (st4 := with_mem (set_status COMPLETED) st3).
      apply (kept_apart_trans st3 st4); [by apply kept_apart_same|apply kept_apart_update_job].
    + done.
    + eapply kept_apart_trans; [exact H3|apply kept_apart_failed].
Qed.

End Isolation.

(** ** The entry of a job and its row *)

Section EntryAndRow.
Context `{Runtime} `{Storage}.

(** The folder of the row and of the entry stay what they are across the
    loop over the files. *)
Lemma process_files_folder (job_id : string) (is_bucket : bool) (processed : gset string)
    (log_files : list string) (st st' : State) (exit : LoopExit) :
  process_files job_id is_bucket processed log_files st = (st', exit) ->
  j_folder_path <$> jobs (db st') !! job_id = j_folder_path <$> jobs (db st) !! job_id
  /\ m_folder_path (mem st') = m_folder_path (mem st).
Proof.
  revert st. induction log_files as [|f files IH]; intros st; simpl.
  { by intros [= <- <-]. }
  destruct (decide (f ∈ processed)); [apply IH|].
  destruct (decide (m_status (mem st) = PAUSED)).
  { intros [= <- <-]. simpl. rewrite lookup_alter_eq.
    by destruct (jobs (db st) !! job_id). }
  destruct (open_source is_bucket f) as [[lines broken]|]; [|by intros [= <- <-]].
  destruct (process_log_file_spec f job_id lines broken st) as (Hmem & Hjobs & _).
  destruct (process_log_file f job_id (lines, broken) st) as [st1 ok]. simpl in Hmem, Hjobs.
  assert (Hrow : j_folder_path <$> jobs (db st1) !! job_id
                 = j_folder_path <$> jobs (db st) !! job_id).
  { destruct Hjobs as [->| ->]; [done|]. rewrite lookup_alter_eq.
    by destruct (jobs (db st) !! job_id). }
  assert (Hentry : m_folder_path (mem st1) = m_folder_path (mem st))
    by (by destruct Hmem as [->| ->]).
  destruct ok; [|intros [= <- <-]; done].
  intros Hrun. destruct (IH _ Hrun) as [Hrow' Hentry']. simpl in Hrow', Hentry'.
  rewrite Hrow', Hentry'. split; [|done].
  rewrite lookup_alter_eq, <- Hrow. by destruct (jobs (db st1) !! job_id).
Qed.

(** When the entry of a job names the folder of its row, and the task
    displays that folder, the task ends, however it ends, with a state
    that is committed and an entry that is the row. *)
Lemma process_job_entry_is_row (job_id : string)
    (folder_path customer_folder start_datetime end_datetime : option string)
    (row0 : JobRow) (st : State) :
  jobs (db st) !! job_id = Some row0 ->
  m_folder_path (mem st) = j_folder_path row0 ->
  (forall log_files display is_bucket,
      enumerate_files folder_path customer_folder start_datetime end_datetime
      = Files log_files display is_bucket -> display = j_folder_path row0) ->
  let r := process_job job_id folder_path customer_folder start_datetime end_datetime st in
  (exists older, durable r.1 = db r.1 :: older)
  /\ exists row, jobs (db r.1) !! job_id = Some row /\ state_of_row row = mem r.1.
Proof.
  intros Hrow0 Hfolder Hdisplay. unfold process_job.
  destruct (enumerate_files _ _ _ _) as [name| |log_files display is_bucket] eqn:Henum.
  - simpl. split; [by eexists|]. eexists. rewrite lookup_alter_eq, Hrow0. simpl.
    split; [done|]. unfold state_of_row. simpl. by rewrite Hfolder.
  - simpl. split; [by eexists|]. eexists. rewrite lookup_alter_eq, Hrow0. simpl.
    split; [done|]. unfold state_of_row, set_status. simpl. by rewrite Hfolder.
  - rewrite (Hdisplay _ _ _ eq_refl).
    destruct (length log_files =? 0)%nat.
    { simpl. split; [by eexists|]. eexists. rewrite lookup_alter_eq, Hrow0. simpl.
      split; [done|]. unfold state_of_row. simpl. by rewrite Hfolder. }
    set (st2 := with_mem _ (commit (with_db _ st))).
    assert (Hsync : synced job_id st2).
    { split.
      - intros row. subst st2. simpl. rewrite lookup_alter_eq, Hrow0. simpl.
        by intros [= <-].
      - by eexists _, _. }
    assert (Hrow2 : jobs (db st2) !! job_id
                    = Some (set_row_counters RUNNING (length log_files)
                              (size (ledger job_id (db st))) row0)).
    { subst st2. simpl. by rewrite lookup_alter_eq, Hrow0. }
    destruct (process_files job_id is_bucket (ledger job_id (db st)) log_files st2)
      as [st3 exit] eqn:Hrun.
    destruct (process_files_folder _ _ _ _ _ _ _ Hrun) as [Hrowf Hentryf].
    pose proof (process_files_synced job_id is_bucket _ _ _ _ _ Hsync Hrun) as [Hsync3 _].
    destruct (process_files_spec job_id is_bucket _ _ _ _ _ Hrun)
      as (done & rest & news & _ & _ & _ & _ & Htot & _ & _ & _ & Hexit).
    rewrite Hrow2 in Hrowf. simpl in Hrowf, Hentryf.
    destruct (jobs (db st3) !! job_id) as [row3|] eqn:Hrow3; [|done].
    injection Hrowf as Hrowf.
    destruct (Hsync3 row3 eq_refl) as [Hfp3 Htot3].
    destruct exit; simpl.
    + split; [by eexists|]. eexists. rewrite lookup_alter_eq, Hrow3. simpl.
      split; [done|]. unfold state_of_row, set_status. simpl.
      by rewrite Hrowf, Hentryf, Htot.
    + destruct Hexit as (_ & _ & Hstatus & Hcommitted & Hpaused).
      split; [done|]. exists row3. split; [done|].
      destruct (Hpaused row3 Hrow3) as [Hst3 _].
      unfold state_of_row. destruct (mem st3) as [mf ms mp mt]. simpl in *.
      by rewrite Hrowf, Hst3, Hfp3, Htot3, Hentryf, Hstatus.
    + split; [by eexists|]. eexists. rewrite lookup_alter_eq, Hrow3. simpl.
      split; [done|]. unfold state_of_row, set_status. simpl. by rewrite Hrowf, Hentryf.
Qed.

End EntryAndRow.

Section Restart.
Context `{Runtime}.

Lemma lookup_startup_event (d : DB) (job_id : string) :
  job_states (startup_event (new_process d)) !! job_id = state_of_row <$> jobs d !! job_id.
Proof.
  unfold startup_event, new_process. simpl.
  induction (jobs d) as [|j row J Hfresh Hfold IH] using map_first_key_ind.
  - by rewrite map_fold_empty.
  - rewrite map_fold_insert_first_key by done.
    destruct (decide (j = job_id)) as [->|Hne].
    + by rewrite !lookup_insert_eq.
    + by rewrite !lookup_insert_ne.
Qed.

(** What [start_job] leaves when it answers with OK. *)
Lemma start_job_started (request : StartJobRequest) (start_time : string)
    (st st1 : State) (task : Task) :
  start_job request start_time st = (st1, OK, Some task) ->
  exists display,
    jobs (db st1) !! t_job_id task = Some (mkJobRow display RUNNING 0 0 "")
    /\ mem st1 = mkJobState display RUNNING 0 0
    /\ t_folder_path task = req_folder_path request
    /\ t_customer_folder task = req_customer_folder request
    /\ t_start_datetime task = req_start_datetime request
    /\ t_end_datetime task = req_end_datetime request
    /\ (if given (req_folder_path request)
           && negb (given (req_customer_folder request)
                    || given (req_start_datetime request)
                    || given (req_end_datetime request))
        then display = py_str (req_folder_path request)
        else display = "s3://k8-customer-logs/" +:+ py_str (req_customer_folder request)
             /\ given (req_customer_folder request) = true
             /\ t_job_id task = py_str (req_customer_folder request) +:+ "_" +:+ start_time).
Proof.
  unfold start_job.
  set (local := given (req_folder_path request) && _).
  set (bucket := given (req_customer_folder request) && _ && _).
  assert (Hrun : forall job_id display,
    match jobs (db st) !! job_id with
    | Some _ =>
        (with_mem (set_status ERROR)
           (with_mem (fun _ => mkJobState display RUNNING 0 0) st), HTTPError 500, None)
    | None =>
        (commit
           (if bucket then
              with_db (set_job_metadata (fun md =>
                md ∪ {[(job_id, "start_datetime", py_str (req_start_datetime request))]}
                   ∪ {[(job_id, "end_datetime", py_str (req_end_datetime request))]}))
                (with_db (set_jobs (insert job_id (mkJobRow display RUNNING 0 0 "")))
                   (with_mem (fun _ => mkJobState display RUNNING 0 0) st))
            else with_db (set_jobs (insert job_id (mkJobRow display RUNNING 0 0 "")))
                   (with_mem (fun _ => mkJobState display RUNNING 0 0) st)),
         OK,
         Some (mkTask job_id (req_folder_path request) (req_customer_folder request)
                 (req_start_datetime request) (req_end_datetime request)))
    end = (st1, OK, Some task) ->
    jobs (db st1) !! t_job_id task = Some (mkJobRow display RUNNING 0 0 "")
    /\ mem st1 = mkJobState display RUNNING 0 0
    /\ t_folder_path task = req_folder_path request
    /\ t_customer_folder task = req_customer_folder request
    /\ t_start_datetime task = req_start_datetime request
    /\ t_end_datetime task = req_end_datetime request
    /\ t_job_id task = job_id).
  { intros job_id display. destruct (jobs (db st) !! job_id); [done|].
    intros [= <- <-]. destruct bucket; simpl; (split; [by rewrite lookup_insert_eq|done]). }
  destruct local; simpl.
  { intros Hstart. eexists. destruct (Hrun _ _ Hstart) as (? & ? & ? & ? & ? & ? & ?).
    repeat (split; [done|]). done. }
  destruct bucket eqn:Hbucket; simpl; [|done].
  destruct (strptime (py_str (req_start_datetime request)) _); [|done].
  destruct (strptime (py_str (req_end_datetime request)) _); [|done].
  intros Hstart. eexists. destruct (Hrun _ _ Hstart) as (? & ? & ? & ? & ? & ? & ?).
  repeat (split; [done|]). split; [|done].
  subst bucket. by destruct (given (req_customer_folder request)).
Qed.

(** X18: The status of a job survives a restart of the back end.  For a job
    that [start_job] has started on a folder alone or on the bucket alone,
    when its task has ended, however it ended, what it has written is
    committed, and a new process started on the database answers a status
    request for the job with the folder, the status and the counters of
    the entry the old process had.  (The [last_updated] of the answer is
    that of the row, which on some paths is later than the old entry's;
    the stamps are outside the model.) *)
Theorem status_survives_restart `{Storage} (request : StartJobRequest) (start_time : string)
    (st st1 : State) (task : Task) :
  start_job request start_time st = (st1, OK, Some task) ->
  given (req_folder_path request) && given (req_customer_folder request) = false ->
  let r := run_task task st1 in
  (exists older, durable r.1 = db r.1 :: older)
  /\ exists entry,
       get_job_status (t_job_id task) (startup_event (new_process (db r.1)))
       = (OK, Some entry)
       /\ same_entry (mem r.1) entry.
Proof.
  intros Hstart Hplain r.
  destruct (start_job_started _ _ _ _ _ Hstart)
    as (display & Hrow & Hentry & Hfp & Hcf & Hsd & Hed & Hdisplay).
  assert (Hagree : (exists older, durable r.1 = db r.1 :: older)
                   /\ exists row, jobs (db r.1) !! t_job_id task = Some row
                                  /\ state_of_row row = mem r.1).
  { subst r. unfold run_task.
    apply (process_job_entry_is_row _ _ _ _ _ (mkJobRow display RUNNING 0 0 ""));
      [done|by rewrite Hentry|].
    intros log_files disp is_bucket. rewrite Hfp, Hcf, Hsd, Hed. unfold enumerate_files. simpl.
    destruct (given (req_folder_path request)) eqn:Hgiven; simpl in *.
    - rewrite Hplain in Hdisplay. simpl in Hdisplay. revert Hdisplay.
      destruct (negb (given (req_start_datetime request)
                      || given (req_end_datetime request))); cbv iota;
        [intros Hdisplay|intros (_ & Hno & _); discriminate Hno].
      destruct (isdir _); [|done]. by intros [= _ <- _].
    - destruct Hdisplay as (-> & _ & _).
      destruct (validate_customer_folder _) as [[]|]; try done.
      destruct (req_start_datetime request), (req_end_datetime request); try done.
      destruct (generate_s3_paths _ _ _); try done. by intros [= _ <- _]. }
  destruct Hagree as [Hcommitted (row & Hrow' & Hsame)].
  split; [done|]. exists (state_of_row row). split.
  - unfold get_job_status. by rewrite lookup_startup_event, Hrow'.
  - by rewrite Hsame.
Qed.

(** X19: A request that names a folder and a customer folder with a range.
    [start_job] takes it for a bucket job: the id is built from the customer
    folder and the row says [s3://k8-customer-logs/...]; but the task is
    handed the folder as well, and [process_job] then reads the local folder
    and nothing of the bucket. *)
Theorem mixed_request_reads_the_folder `{Storage} (folder customer_folder start_datetime
    end_datetime start_time : string) (st st1 : State) (task : Task) :
  nonempty folder = true ->
  nonempty customer_folder = true ->
  start_job (mkRequest (Some folder) (Some customer_folder) (Some start_datetime)
                       (Some end_datetime)) start_time st = (st1, OK, Some task) ->
  t_job_id task = customer_folder +:+ "_" +:+ start_time
  /\ j_folder_path <$> jobs (db st1) !! t_job_id task
     = Some ("s3://k8-customer-logs/" +:+ customer_folder)
  /\ enumerate_files (t_folder_path task) (t_customer_folder task) (t_start_datetime task)
                     (t_end_datetime task)
     = if isdir folder then Files (walk_gz folder) folder false else InvalidSource folder.
Proof.
  intros Hfolder Hcustomer Hstart.
  destruct (start_job_started _ _ _ _ _ Hstart)
    as (display & Hrow & _ & Hfp & _ & _ & _ & Hdisplay). simpl in *.
  rewrite Hfolder, Hcustomer in Hdisplay. simpl in Hdisplay.
  destruct Hdisplay as (-> & _ & Hid).
  split; [done|]. split; [by rewrite Hrow|].
  rewrite Hfp. unfold enumerate_files. simpl. by rewrite Hfolder.
Qed.

End Restart.

Lemma status_survives_restart_witness :
  let request := mkRequest (Some "/logs") None None None in
  let st1 := (start_job request "T0" boot).1.1 in
  let task := mkTask "logs_T0" (Some "/logs") None None None in
  let r := @run_task Py.runtime Samples.pair task st1 in
  start_job request "T0" boot = (st1, OK, Some task)
  /\ given (req_folder_path request) && given (req_customer_folder request) = false
  /\ mem r.1 = mkJobState "/logs" COMPLETED 2 2
  /\ (exists older, durable r.1 = db r.1 :: older)
  /\ exists entry,
       get_job_status "logs_T0" (startup_event (new_process (db r.1))) = (OK, Some entry)
       /\ same_entry (mem r.1) entry.
Proof.
  intros request st1 task r.
  assert (Hstart : start_job request "T0" boot = (st1, OK, Some task)) by by_running.
  assert (Hplain : given (req_folder_path request) && given (req_customer_folder request)
                   = false) by reflexivity.
  split; [exact Hstart|]. split; [exact Hplain|]. split; [by_running|].
  exact (@status_survives_restart Py.runtime Samples.pair request "T0" boot st1 task
           Hstart Hplain).
Defined.

Lemma mixed_request_reads_the_folder_witness :
  let request := mkRequest (Some "/logs") (Some "acme") (Some "20240101-00")
                           (Some "20240101-01") in
  let st1 := (start_job request "T0" boot).1.1 in
  let task := mkTask "acme_T0" (Some "/logs") (Some "acme") (Some "20240101-00")
                     (Some "20240101-01") in
  nonempty "/logs" = true
  /\ nonempty "acme" = true
  /\ start_job request "T0" boot = (st1, OK, Some task)
  /\ t_job_id task = "acme" +:+ "_" +:+ "T0"
  /\ j_folder_path <$> jobs (db st1) !! t_job_id task
     = Some ("s3://k8-customer-logs/" +:+ "acme")
  /\ @enumerate_files Py.runtime Samples.pair (t_folder_path task) (t_customer_folder task)
       (t_start_datetime task) (t_end_datetime task)
     = if @isdir Samples.pair "/logs"
       then Files (@walk_gz Samples.pair "/logs") "/logs" false
       else InvalidSource "/logs".
Proof.
  intros request st1 task.
  assert (Hfolder : nonempty "/logs" = true) by reflexivity.
  assert (Hcustomer : nonempty "acme" = true) by reflexivity.
  assert (Hstart : start_job request "T0" boot = (st1, OK, Some task)) by by_running.
  split; [exact Hfolder|]. split; [exact Hcustomer|]. split; [exact Hstart|].
  exact (@mixed_request_reads_the_folder Py.runtime Samples.pair "/logs" "acme"
           "20240101-00" "20240101-01" "T0" boot st1 task Hfolder Hcustomer Hstart).
Defined.

(** ** A pause and a resume, against a run without interruption *)

Section PauseResume.
Context `{Runtime} `{Storage}.

Lemma progress_base (job_id : string) (is_bucket : bool) (d0 d : DB) (done : list string)
    (g : string) (pre : list (nat * LogEntry)) (f : JobRow -> JobRow) :
  progress job_id is_bucket (update_job job_id f d0) done g pre d ->
  progress job_id is_bucket d0 done g pre d.
Proof.
  intros (Hlogs & Htables & Hmarkers & Hrow).
  split; [done|]. split; [done|]. split; [done|].
  rewrite Hrow. simpl. rewrite lookup_alter_eq. by rewrite fmap_is_Some.
Qed.

(** What a task that returns has done: some of the files that were not
    in the ledger, whole, and all of them when the job is COMPLETED. *)
Lemma process_job_progress (job_id : string)
    (folder_path customer_folder start_datetime end_datetime : option string)
    (log_files : list string) (display : string) (is_bucket : bool) (st st' : State) :
  enumerate_files folder_path customer_folder start_datetime end_datetime
  = Files log_files display is_bucket ->
  process_job job_id folder_path customer_folder start_datetime end_datetime st = (st', true) ->
  exists done rest,
    filter (fun f => f ∉ ledger job_id (db st)) log_files = done ++ rest
    /\ NoDup done
    /\ (forall f, f ∈ done -> marker job_id f ∉ job_metadata (db st))
    /\ progress job_id is_bucket (db st) done "" [] (db st')
    /\ (m_status (mem st') = COMPLETED -> rest = []).
Proof.
  intros Henum. unfold process_job. rewrite Henum.
  destruct (length log_files =? 0)%nat eqn:Hlen.
  { apply Nat.eqb_eq in Hlen. apply nil_length_inv in Hlen as ->.
    intros [= <-]. exists [], []. split; [done|]. split; [constructor|].
    split; [by intros f ?%elem_of_nil|]. split; [|done].
    simpl. apply progress_update_job, progress_refl. }
  set (st2 := with_mem _ (commit (with_db _ st))).
  destruct (process_files job_id is_bucket (ledger job_id (db st)) log_files st2)
    as [st3 exit] eqn:Hrun.
  destruct (process_files_spec job_id is_bucket _ _ _ _ _ Hrun)
    as (done & rest & news & Htodo & _ & _ & _ & _ & _ & Hfresh & Hnd & Hexit).
  destruct exit; [| |done].
  - destruct Hexit as [-> Hprog]. intros [= <-]. exists done, [].
    split; [done|]. split; [done|]. split; [done|]. split; [|done].
    simpl. apply progress_update_job. by apply progress_base in Hprog.
  - destruct Hexit as (_ & Hprog & Hpaused & _). intros [= <-]. exists done, rest.
    split; [done|]. split; [done|]. split; [done|].
    split; [by apply progress_base in Hprog|]. congruence.
Qed.

(** The task leaves the folder of the row of its job as it is. *)
Lemma process_job_row_folder (job_id : string)
    (folder_path customer_folder start_datetime end_datetime : option string) (st : State) :
  j_folder_path
    <$> jobs (db (process_job job_id folder_path customer_folder start_datetime
                    end_datetime st).1) !! job_id
  = j_folder_path <$> jobs (db st) !! job_id.
Proof.
  assert (Halter : forall (f : JobRow -> JobRow) (J : gmap string JobRow),
            (forall r, j_folder_path (f r) = j_folder_path r) ->
            j_folder_path <$> alter f job_id J !! job_id = j_folder_path <$> J !! job_id).
  { intros f J Hf. rewrite lookup_alter_eq. destruct (J !! job_id); simpl; [|done].
    by rewrite Hf. }
  unfold process_job.
  destruct (enumerate_files _ _ _ _) as [name| |log_files display is_bucket]; simpl.
  - by apply Halter.
  - by apply Halter.
  - destruct (length log_files =? 0)%nat; simpl; [by apply Halter|].
    set (st2 := with_mem _ (commit (with_db _ st))).
    destruct (process_files job_id is_bucket (ledger job_id (db st)) log_files st2)
      as [st3 exit] eqn:Hrun.
    destruct (process_files_folder _ _ _ _ _ _ _ Hrun) as [Hrow _].
    assert (Hrow2 : j_folder_path <$> jobs (db st2) !! job_id
                    = j_folder_path <$> jobs (db st) !! job_id) by by apply Halter.
    destruct exit; simpl.
    + rewrite Halter by done. congruence.
    + congruence.
    + rewrite Halter by done. congruence.
Qed.

Lemma count_of_added (job_id : string) (keys : list Key) (t0 t : gmap Key Z) (key : Key) :
  added job_id keys t0 t -> count_of t key = count_of t0 key + occurrences key keys.
Proof. by intros [Hcount _]. Qed.

(** X20: A pause and a resume lose nothing and count nothing twice.  A job
    on a local folder is paused by its task at a file boundary, resumed by
    [resume_job], and the second task runs to the end; a task on the same
    state with no pause request runs to the end in one go.  Both leave the
    same rows in [logs], in the same order, the same ledger, and the same
    count under every key of the four tables. *)
Theorem pause_and_resume_lose_nothing (job_id folder : string) (log_files : list string)
    (display : string) (is_bucket : bool) (st P U : State) :
  enumerate_files (Some folder) None None None = Files log_files display is_bucket ->
  String.prefix "s3://" folder = false ->
  j_folder_path <$> jobs (db st) !! job_id = Some folder ->
  process_job job_id (Some folder) None None None st = (P, true) ->
  m_status (mem P) = PAUSED ->
  process_job job_id (Some folder) None None None
    (mkState (db st) (durable st) (mem st) (logger st) []) = (U, true) ->
  m_status (mem U) = COMPLETED ->
  exists P1,
    resume_job job_id P = (P1, OK, Some (mkTask job_id (Some folder) None None None))
    /\ forall R,
         process_job job_id (Some folder) None None None P1 = (R, true) ->
         m_status (mem R) = COMPLETED ->
         logs (db R) = logs (db U)
         /\ (forall f, f ∈ ledger job_id (db R) <-> f ∈ ledger job_id (db U))
         /\ forall key,
              count_of (class_level_counts (db R)) key
              = count_of (class_level_counts (db U)) key
              /\ count_of (service_level_counts (db R)) key
                 = count_of (service_level_counts (db U)) key
              /\ count_of (timeline_counts (db R)) key
                 = count_of (timeline_counts (db U)) key
              /\ count_of (class_service_counts (db R)) key
                 = count_of (class_service_counts (db U)) key.
Proof.
  intros Henum Hlocal Hrow HP Hpaused HU Hdone.
  (* the resume *)
  pose proof (process_job_row_folder job_id (Some folder) None None None st) as HrowP.
  rewrite HP, Hrow in HrowP. simpl in HrowP.
  destruct (jobs (db P) !! job_id) as [row|] eqn:HrowP'; [|done].
  injection HrowP as Hfolder.
  assert (Hnot : String.prefix "s3://k8-customer-logs/" folder = false).
  { destruct (String.prefix "s3://k8-customer-logs/" folder) eqn:Hb; [|done].
    apply (prefix_of_longer "s3://" "k8-customer-logs/") in Hb. congruence. }
  eexists. split.
  { unfold resume_job. rewrite decide_True by done. simpl. rewrite HrowP', Hfolder, Hnot.
    by rewrite Hlocal. }
  set (P1 := commit (with_db _ (with_mem (set_status RUNNING) P))).
  intros R HR HdoneR.
  (* the three runs *)
  destruct (process_job_progress _ _ _ _ _ _ _ _ _ _ Henum HP)
    as (done1 & rest1 & Htodo1 & Hnd1 & Hfresh1 & Hprog1 & _).
  destruct (process_job_progress _ _ _ _ _ _ _ _ _ _ Henum HU)
    as (doneU & restU & HtodoU & HndU & HfreshU & HprogU & HrestU).
  rewrite (HrestU Hdone), app_nil_r in HtodoU. simpl in HtodoU, HfreshU, HprogU.
  subst doneU.
  destruct (process_job_progress _ _ _ _ _ _ _ _ _ _ Henum HR)
    as (done2 & rest2 & Htodo2 & Hnd2 & Hfresh2 & Hprog2 & Hrest2).
  rewrite (Hrest2 HdoneR), app_nil_r in Htodo2.
  change (ledger job_id (db P1)) with (ledger job_id (db P)) in Htodo2.
  change (job_metadata (db P1)) with (job_metadata (db P)) in Hfresh2.
  apply progress_base in Hprog2.
  change (db (with_mem (set_status RUNNING) P)) with (db P) in Hprog2.
  subst done2.
  destruct (progress_ledger job_id is_bucket _ _ _ _ _ Hprog1 Hnd1 Hfresh1) as [Hled1 _].
  destruct (progress_ledger job_id is_bucket _ _ _ _ _ Hprog2 Hnd2 Hfresh2) as [Hled2 _].
  destruct (progress_ledger job_id is_bucket _ _ _ _ _ HprogU HndU HfreshU) as [HledU _].
  assert (Hrest : filter (fun f => f ∉ ledger job_id (db P)) log_files = rest1).
  { apply (filter_ledger_rest (ledger job_id (db st)) (ledger job_id (db P))
             log_files done1 rest1 Hled1 Htodo1).
    by rewrite <- Htodo1. }
  destruct Hprog1 as (Hlogs1 & Ht1 & _). destruct Hprog2 as (Hlogs2 & Ht2 & _).
  destruct HprogU as (HlogsU & HtU & _).
  rewrite Hrest in Hlogs2, Ht2, Hled2. rewrite Htodo1 in HlogsU, HtU, HledU.
  rewrite app_nil_r in *.
  split.
  { rewrite Hlogs2, Hlogs1, HlogsU, rows_of_files_app. by rewrite <- app_assoc. }
  split.
  { intros f. rewrite Hled2, Hled1, HledU, elem_of_app. tauto. }
  intros key.
  destruct Ht1 as (A1 & B1 & C1 & D1). destruct Ht2 as (A2 & B2 & C2 & D2).
  destruct HtU as (AU & BU & CU & DU).
  rewrite (count_of_added _ _ _ _ key A2), (count_of_added _ _ _ _ key A1),
    (count_of_added _ _ _ _ key AU), (count_of_added _ _ _ _ key B2),
    (count_of_added _ _ _ _ key B1), (count_of_added _ _ _ _ key BU),
    (count_of_added _ _ _ _ key C2), (count_of_added _ _ _ _ key C1),
    (count_of_added _ _ _ _ key CU), (count_of_added _ _ _ _ key D2),
    (count_of_added _ _ _ _ key D1), (count_of_added _ _ _ _ key DU).
  rewrite entries_of_files_app, !omap_app, !occurrences_app. lia.
Qed.

End PauseResume.

Lemma pause_and_resume_lose_nothing_witness :
  let st := Demo.job_on empty_db "logs_T0" "/logs" RUNNING 0 0 [true] in
  let run := @process_job Py.runtime Demo.two_files "logs_T0" (Some "/logs") None None None in
  let P := (run st).1 in
  let U := (run (mkState (db st) (durable st) (mem st) (logger st) [])).1 in
  let P1 := (resume_job "logs_T0" P).1.1 in
  @enumerate_files Py.runtime Demo.two_files (Some "/logs") None None None
  = Files ["/logs/a.gz"; "/logs/b.gz"] "/logs" false
  /\ String.prefix "s3://" "/logs" = false
  /\ j_folder_path <$> jobs (db st) !! "logs_T0" = Some "/logs"
  /\ run st = (P, true)
  /\ m_status (mem P) = PAUSED
  /\ run (mkState (db st) (durable st) (mem st) (logger st) []) = (U, true)
  /\ m_status (mem U) = COMPLETED
  /\ (run P1).2 = true
  /\ m_status (mem (run P1).1) = COMPLETED
  /\ exists P1,
       resume_job "logs_T0" P = (P1, OK, Some (mkTask "logs_T0" (Some "/logs") None None None))
       /\ forall R,
            run P1 = (R, true) ->
            m_status (mem R) = COMPLETED ->
            logs (db R) = logs (db U)
            /\ (forall f, f ∈ ledger "logs_T0" (db R) <-> f ∈ ledger "logs_T0" (db U))
            /\ forall key,
                 count_of (class_level_counts (db R)) key
                 = count_of (class_level_counts (db U)) key
                 /\ count_of (service_level_counts (db R)) key
                    = count_of (service_level_counts (db U)) key
                 /\ count_of (timeline_counts (db R)) key
                    = count_of (timeline_counts (db U)) key
                 /\ count_of (class_service_counts (db R)) key
                    = count_of (class_service_counts (db U)) key.
Proof.
  intros st run P U P1.
  assert (Henum : @enumerate_files Py.runtime Demo.two_files (Some "/logs") None None None
                  = Files ["/logs/a.gz"; "/logs/b.gz"] "/logs" false) by by_running.
  assert (Hlocal : String.prefix "s3://" "/logs" = false) by reflexivity.
  assert (Hrow : j_folder_path <$> jobs (db st) !! "logs_T0" = Some "/logs") by by_running.
  pose proof (surjective_pairing (run st)) as HP.
  assert (HPok : (run st).2 = true) by by_running.
  rewrite HPok in HP.
  assert (Hpaused : m_status (mem P) = PAUSED) by by_running.
  pose proof (surjective_pairing
                (run (mkState (db st) (durable st) (mem st) (logger st) []))) as HU.
  assert (HUok : (run (mkState (db st) (durable st) (mem st) (logger st) [])).2 = true)
    by by_running.
  rewrite HUok in HU.
  assert (Hdone : m_status (mem U) = COMPLETED) by by_running.
  split; [exact Henum|]. split; [exact Hlocal|]. split; [exact Hrow|]. split; [exact HP|].
  split; [exact Hpaused|]. split; [exact HU|]. split; [exact Hdone|].
  split; [by_running|]. split; [by_running|].
  exact (@pause_and_resume_lose_nothing Py.runtime Demo.two_files "logs_T0" "/logs"
           ["/logs/a.gz"; "/logs/b.gz"] "/logs" false st P U
           Henum Hlocal Hrow HP Hpaused HU Hdone).
Defined.

(** ** The classes and services listed for a job *)

Section Names.
Context `{Runtime} `{Storage}.
Variable job_id : string.

(** [names_match] looks at the rows of the job and at its rows of
    [job_metadata] with type [class] or [service], and at nothing else. *)
Lemma names_match_extend (d d' : DB) (rows : list LogRow) :
  Forall (fun r => r_job_id r = job_id) rows ->
  (forall r, r ∈ logs d' <-> r ∈ logs d \/ r ∈ rows) ->
  (forall v, (job_id, "class", v) ∈ job_metadata d'
             <-> (job_id, "class", v) ∈ job_metadata d \/ exists r, r ∈ rows /\ r_class r = v) ->
  (forall v, (job_id, "service", v) ∈ job_metadata d'
             <-> (job_id, "service", v) ∈ job_metadata d
                 \/ exists r, r ∈ rows /\ r_service r = v) ->
  names_match job_id d -> names_match job_id d'.
Proof.
  intros Hrows Hlogs Hclass Hservice Hmatch name.
  destruct (Hmatch name) as [Hc Hs]. unfold query_job_metadata in *. simpl in *.
  rewrite elem_of_metadata_values in Hc, Hs. rewrite !elem_of_metadata_values.
  rewrite Forall_forall in Hrows.
  split.
  - rewrite Hclass, Hc. split.
    + intros [(r & ? & ? & ?)|(r & ? & ?)]; exists r; rewrite Hlogs; [tauto|].
      split; [tauto|]. split; [by apply Hrows|done].
    + intros (r & [?|?]%Hlogs & ? & ?); [left|right]; by exists r.
  - rewrite Hservice, Hs. split.
    + intros [(r & ? & ? & ?)|(r & ? & ?)]; exists r; rewrite Hlogs; [tauto|].
      split; [tauto|]. split; [by apply Hrows|done].
    + intros (r & [?|?]%Hlogs & ? & ?); [left|right]; by exists r.
Qed.

Lemma names_match_same (d d' : DB) :
  logs d' = logs d -> job_metadata d' = job_metadata d ->
  names_match job_id d -> names_match job_id d'.
Proof.
  intros Hlogs Hmd. apply (names_match_extend d d' []); [constructor| | |].
  - intros r. rewrite Hlogs. split; [by left|]. by intros [?|?%elem_of_nil].
  - intros v. rewrite Hmd. split; [by left|]. by intros [?|(r & ?%elem_of_nil & _)].
  - intros v. rewrite Hmd. split; [by left|]. by intros [?|(r & ?%elem_of_nil & _)].
Qed.

(** What [executemany] leaves in [logs]: some first rows of the batch, all
    of them when it returns. *)
Lemma executemany_logs_rows (rows : list LogRow) (d : DB) :
  let r := executemany_logs rows d in
  job_metadata r.1 = job_metadata d
  /\ exists pre, pre `prefix_of` rows /\ logs r.1 = logs d ++ pre
                 /\ (r.2 = true -> pre = rows).
Proof.
  revert d. induction rows as [|row rows IH]; intros d; simpl.
  { split; [done|]. exists []. by rewrite app_nil_r. }
  destruct (bindable_row row).
  - destruct (IH (set_logs (fun l => l ++ [row]) d)) as (Hmd & pre & Hpre & Hlogs & Hall).
    split; [done|]. exists (row :: pre). split; [by apply prefix_cons|].
    split; [rewrite Hlogs; simpl; by rewrite <- app_assoc|].
    intros Hok. by rewrite Hall.
  - split; [done|]. exists []. split; [apply prefix_nil|]. by rewrite app_nil_r.
Qed.

Lemma update_summary_tables_rest (es : list LogEntry) (st : State) :
  logs (db (update_summary_tables job_id es st)) = logs (db st)
  /\ job_metadata (db (update_summary_tables job_id es st)) = job_metadata (db st).
Proof.
  unfold update_summary_tables. destruct (tally job_id empty_batches es) as [b|]; [|done].
  by destruct (0 <? b_invalid_timestamp_count b)%nat.
Qed.

(** What a flush leaves in [logs] and in [job_metadata]. *)
Lemma flush_batch_rest (loc : Locals) (st : State) :
  let r := flush_batch job_id loc st in
  exists pre,
    pre `prefix_of` log_batch loc
    /\ logs (db r.1) = logs (db st) ++ pre
    /\ if r.2
       then pre = log_batch loc
            /\ job_metadata (db r.1)
               = job_metadata (db st)
                 ∪ set_map (fun c : string => (job_id, "class", c)) (classes loc)
                 ∪ set_map (fun s : string => (job_id, "service", s)) (services loc)
       else job_metadata (db r.1) = job_metadata (db st).
Proof.
  unfold flush_batch.
  destruct (executemany_logs_rows (log_batch loc) (db st)) as (Hmd & pre & Hpre & Hlogs & Hall).
  destruct (executemany_logs (log_batch loc) (db st)) as [d1 ok]. simpl in *.
  exists pre. split; [done|].
  destruct ok; simpl.
  - destruct (update_summary_tables_rest (log_entries loc) (with_db (fun _ => d1) st))
      as [Hl Hm]. simpl in Hl, Hm.
    rewrite Hl, Hm, Hmd, Hlogs. by rewrite (Hall eq_refl).
  - done.
Qed.

Lemma elem_of_names (type : string) (names : gset string) (k : Key) :
  k ∈ (set_map (fun n : string => (job_id, type, n)) names : gset Key)
  <-> k.1.1 = job_id /\ k.1.2 = type /\ k.2 ∈ names.
Proof.
  rewrite elem_of_map. split.
  - by intros (n & -> & Hn).
  - destruct k as [[j t] v]. simpl. intros (-> & -> & Hv). by exists v.
Qed.

(** The membership of a name row in what a flush writes. *)
Lemma names_pending_unfold (loc : Locals) (d : DB) (type v : string) :
  (job_id, type, v)
  ∈ job_metadata (set_logs (fun l => l ++ log_batch loc)
                           (insert_names job_id (classes loc) (services loc) d))
  <-> (job_id, type, v) ∈ job_metadata d
      \/ (type = "class" /\ v ∈ classes loc) \/ (type = "service" /\ v ∈ services loc).
Proof.
  simpl. rewrite !elem_of_union, !elem_of_names. simpl. tauto.
Qed.

(** The invariant of the loop over the lines: the names match in the
    database as the next flush will leave it, and an empty batch comes
    with empty sets of names. *)
Lemma line_body_names (file_path folder file_name : string) (idx : nat) (line : string)
    (loc : Locals) (st : State) :
  names_pending job_id loc (db st) ->
  (log_batch loc = [] -> classes loc = ∅ /\ services loc = ∅) ->
  let ls := line_body file_path job_id folder file_name idx line (loc, st) in
  names_pending job_id ls.1 (db ls.2)
  /\ (log_batch ls.1 = [] -> classes ls.1 = ∅ /\ services ls.1 = ∅).
Proof.
  intros Hinv Hempty. unfold line_body.
  destruct (parse_fields line) as [|m|e m i]; cbn [fst snd]; [done|done|].
  set (row := row_of job_id folder file_name idx e).
  set (loc1 := append_entry row e m i loc).
  assert (Hrow : forall (f : LogRow -> string) v,
            (exists r, r ∈ [row] /\ f r = v) <-> v = f row).
  { intros f v. split; [by intros (r & ->%list_elem_of_singleton & <-)|].
    intros ->. exists row. split; [by left|done]. }
  assert (Hinv1 : names_pending job_id loc1 (db st)).
  { revert Hinv. unfold names_pending. apply (names_match_extend _ _ [row]).
    - by constructor.
    - intros r. simpl. rewrite !elem_of_app, list_elem_of_singleton. tauto.
    - intros v. rewrite !names_pending_unfold, Hrow. simpl.
      rewrite !elem_of_union, !elem_of_singleton. intuition congruence.
    - intros v. rewrite !names_pending_unfold, Hrow. simpl.
      rewrite !elem_of_union, !elem_of_singleton. intuition congruence. }
  assert (Hempty1 : log_batch loc1 = [] -> classes loc1 = ∅ /\ services loc1 = ∅).
  { simpl. intros Hnil. by apply app_eq_nil in Hnil as [_ ?]. }
  destruct (batch_size <=? length (log_batch loc1))%nat; cbn [fst snd]; [|done].
  destruct (flush_batch_rest loc1 st) as (pre & Hpre & Hlogs & Hres).
  destruct (flush_batch job_id loc1 st) as [st1 ok]. cbn [fst snd] in *.
  destruct ok; cbn [fst snd].
  - destruct Hres as [-> Hmd]. split; [|done].
    destruct (yield_point_spec job_id st1) as (Hyl & Hym & _).
    revert Hinv1. unfold names_pending. apply names_match_same; simpl.
    + by rewrite Hyl, Hlogs, app_nil_r.
    + rewrite Hym, Hmd. by rewrite !set_map_empty, !union_empty_r_L.
  - split; [|done]. revert Hinv1. unfold names_pending.
    apply (names_match_extend _ _ []); [constructor| | |].
    + intros r. simpl. rewrite Hlogs, !elem_of_app.
      split; [|intros [?|?%elem_of_nil]; [tauto|done]].
      intros [[?|Hin]|?]; [tauto| |tauto]. left. right.
      destruct Hpre as [more Hmore]. simpl in Hmore.
      rewrite <- elem_of_app, Hmore, elem_of_app. by left.
    + intros v. rewrite !names_pending_unfold. simpl. rewrite Hres.
      split; [by left|]. by intros [?|(r & ?%elem_of_nil & _)].
    + intros v. rewrite !names_pending_unfold. simpl. rewrite Hres.
      split; [by left|]. by intros [?|(r & ?%elem_of_nil & _)].
Qed.

Lemma for_lines_names (file_path folder file_name : string) (lines : list string)
    (idx : nat) (loc : Locals) (st : State) :
  names_pending job_id loc (db st) ->
  (log_batch loc = [] -> classes loc = ∅ /\ services loc = ∅) ->
  let ls := for_lines file_path job_id folder file_name idx lines (loc, st) in
  names_pending job_id ls.1 (db ls.2)
  /\ (log_batch ls.1 = [] -> classes ls.1 = ∅ /\ services ls.1 = ∅).
Proof.
  revert idx loc st. induction lines as [|line lines IH]; intros idx loc st Hinv Hempty;
    [done|].
  cbn [for_lines].
  destruct (line_body_names file_path folder file_name idx line loc st Hinv Hempty)
    as [Hinv1 Hempty1].
  destruct (line_body file_path job_id folder file_name idx line (loc, st)) as [loc1 st1].
  by apply IH.
Qed.

(** A file that [process_log_file] gets through keeps the names matched. *)
Lemma process_log_file_names (file_path : string) (source : list string * bool)
    (st st' : State) :
  process_log_file file_path job_id source st = (st', true) ->
  names_match job_id (db st) -> names_match job_id (db st').
Proof.
  unfold process_log_file. intros Hrun Hmatch.
  destruct (for_lines_names file_path (dirname file_path) (basename file_path) source.1 0
              init_locals st) as [Hinv Hempty].
  { revert Hmatch. unfold names_pending. apply names_match_same; simpl.
    - by rewrite app_nil_r.
    - by rewrite !set_map_empty, !union_empty_r_L. }
  { done. }
  destruct (for_lines _ _ _ _ _ _ _) as [loc st1]. cbn [fst snd] in *.
  destruct (source.2); [done|].
  assert (Hflushed : forall st2,
            match log_batch loc with
            | [] => (st1, true)
            | _ :: _ => flush_batch job_id loc st1
            end = (st2, true) -> names_match job_id (db st2)).
  { intros st2. destruct (log_batch loc) as [|row rows] eqn:Hbatch.
    - intros [= <-]. destruct (Hempty eq_refl) as [Hc Hs].
      revert Hinv. unfold names_pending. apply names_match_same; simpl.
      + by rewrite Hbatch, app_nil_r.
      + by rewrite Hc, Hs, !set_map_empty, !union_empty_r_L.
    - intros Hflush. destruct (flush_batch_rest loc st1) as (pre & _ & Hlogs & Hres).
      rewrite Hflush in Hlogs, Hres. cbn [fst snd] in *. destruct Hres as [-> Hmd].
      revert Hinv. unfold names_pending. apply names_match_same; simpl; [done|].
      by rewrite Hmd. }
  destruct (match log_batch loc with [] => _ | _ => _ end) as [st2 ok].
  destruct ok; [|done]. specialize (Hflushed st2 eq_refl).
  destruct (decide _); [done|]. injection Hrun as <-.
  revert Hflushed. apply (names_match_extend _ _ []); [constructor| | |]; simpl.
  - intros r. split; [by left|]. by intros [?|?%elem_of_nil].
  - intros v. rewrite elem_of_union, elem_of_singleton. unfold marker.
    split; [intros [?|?]; [by left|done]|]. intros [?|(r & ?%elem_of_nil & _)]; [by left|done].
  - intros v. rewrite elem_of_union, elem_of_singleton. unfold marker.
    split; [intros [?|?]; [by left|done]|]. intros [?|(r & ?%elem_of_nil & _)]; [by left|done].
Qed.

Lemma process_files_names (is_bucket : bool) (processed : gset string)
    (log_files : list string) (st st' : State) (exit : LoopExit) :
  process_files job_id is_bucket processed log_files st = (st', exit) ->
  exit <> LoopRaised ->
  names_match job_id (db st) -> names_match job_id (db st').
Proof.
  revert st. induction log_files as [|f files IH]; intros st; simpl.
  { by intros [= <- <-]. }
  destruct (decide (f ∈ processed)); [apply IH|].
  destruct (decide (m_status (mem st) = PAUSED)).
  { intros [= <- <-] _. by apply names_match_same. }
  destruct (open_source is_bucket f) as [source|]; [|by intros [= <- <-]].
  destruct (process_log_file f job_id source st) as [st1 ok] eqn:Hfile.
  destruct ok; [|by intros [= <- <-]].
  intros Hrun Hexit Hmatch. apply (IH _ Hrun Hexit).
  apply (names_match_same (db st1)); [done|done|].
  by apply (process_log_file_names f source st).
Qed.

(** When a task of the job returns, completed or paused, the body of
    [get_job_metadata] finds the classes and the services of the rows of
    the job, if it did before the task. *)
Lemma process_job_names
    (folder_path customer_folder start_datetime end_datetime : option string)
    (st st' : State) :
  names_match job_id (db st) ->
  process_job job_id folder_path customer_folder start_datetime end_datetime st = (st', true) ->
  names_match job_id (db st').
Proof.
  intros Hmatch. unfold process_job.
  destruct (enumerate_files _ _ _ _) as [name| |log_files display is_bucket]; [done|done|].
  destruct (length log_files =? 0)%nat.
  { intros [= <-]. by apply (names_match_same (db st)). }
  set (st2 := with_mem _ (commit (with_db _ st))).
  destruct (process_files job_id is_bucket (ledger job_id (db st)) log_files st2)
    as [st3 exit] eqn:Hrun.
  assert (Hmatch3 : exit <> LoopRaised -> names_match job_id (db st3)).
  { intros Hexit. apply (process_files_names _ _ _ _ _ _ Hrun Hexit).
    by apply (names_match_same (db st)). }
  destruct exit; [| |done].
  - intros [= <-]. apply (names_match_same (db st3)); [done|done|]. by apply Hmatch3.
  - intros [= <-]. by apply Hmatch3.
Qed.

(** X21: What [get_job_metadata] lists after a task of the job has
    returned, completed or paused, where the names listed before the task
    were those of the rows of the job.  A call for which nothing is cached
    lists the classes and the services of the rows of the job in [logs],
    and caches that answer.  A call that finds an answer in the cache
    gives that answer and leaves the cache alone; so, when the function
    was called for the job before the task, the call after the task gives
    the answer of the call before it, whatever the task has written. *)
Theorem listed_names_are_those_of_the_rows
    (folder_path customer_folder start_datetime end_datetime : option string)
    (st st' : State) (cache : MetadataCache) :
  names_match job_id (db st) ->
  process_job job_id folder_path customer_folder start_datetime end_datetime st = (st', true) ->
  let call := get_job_metadata job_id (db st') cache in
  let earlier := get_job_metadata job_id (db st) cache in
  (cache !! job_id = None ->
   (forall name,
       (name ∈ call.1.1
        <-> exists r, r ∈ logs (db st') /\ r_job_id r = job_id /\ r_class r = name)
       /\ (name ∈ call.1.2
           <-> exists r, r ∈ logs (db st') /\ r_job_id r = job_id /\ r_service r = name))
   /\ call.2 = <[job_id := call.1]> cache)
  /\ (forall answer, cache !! job_id = Some answer -> call = (answer, cache))
  /\ get_job_metadata job_id (db st') earlier.2 = (earlier.1, earlier.2).
Proof.
  intros Hmatch Hrun call earlier.
  pose proof (process_job_names _ _ _ _ _ _ Hmatch Hrun) as Hmatch'.
  subst call earlier. unfold get_job_metadata.
  split; [|split].
  - intros ->. split; [exact Hmatch'|done].
  - by intros answer ->.
  - destruct (cache !! job_id) as [answer|] eqn:Hcache; cbn [fst snd].
    + by rewrite Hcache.
    + by rewrite lookup_insert_eq.
Qed.

End Names.

Lemma listed_names_are_those_of_the_rows_witness :
  let st := Demo.job_on empty_db "logs_T0" "/logs" RUNNING 0 0 [] in
  let st' := (@process_job Py.runtime Samples.pair "logs_T0" (Some "/logs")
                None None None st).1 in
  let earlier := get_job_metadata "logs_T0" (db st) ∅ in
  names_match "logs_T0" (db st)
  /\ elements (get_job_metadata "logs_T0" (db st') ∅).1.2 = ["svcA"]
  /\ earlier.1 = (∅, ∅)
  /\ get_job_metadata "logs_T0" (db st') earlier.2 = (earlier.1, earlier.2).
Proof.
  intros st st' earlier.
  assert (Hstart : names_match "logs_T0" (db st)).
  { intros name. unfold query_job_metadata. simpl. rewrite !elem_of_metadata_values. simpl.
    split; (split; [by intros ?%not_elem_of_empty|by intros (r & ?%elem_of_nil & _)]). }
  pose proof (surjective_pairing (@process_job Py.runtime Samples.pair "logs_T0"
                                    (Some "/logs") None None None st)) as Hrun.
  assert (Hok : (@process_job Py.runtime Samples.pair "logs_T0" (Some "/logs")
                   None None None st).2 = true) by by_running.
  rewrite Hok in Hrun.
  split; [exact Hstart|]. split; [by_running|]. split; [reflexivity|].
  destruct (@listed_names_are_those_of_the_rows Py.runtime Samples.pair "logs_T0"
              (Some "/logs") None None None st st' ∅ Hstart Hrun) as (_ & _ & Hstale).
  exact Hstale.
Defined.

(** ** Jobs on a bucket *)

(** A wrapped call that returns has returned at one of its three
    attempts. *)
Lemma retry_returns {A} (call : nat -> S3.Outcome A) (a : A) :
  S3.retry call = S3.Return a ->
  exists attempt, (1 <= attempt <= 3)%nat /\ call attempt = S3.Return a.
Proof.
  unfold S3.retry. destruct (call 1%nat) as [a1|] eqn:H1.
  { intros [= <-]. exists 1%nat. split; [lia|done]. }
  destruct (call 2%nat) as [a2|] eqn:H2.
  { intros [= <-]. exists 2%nat. split; [lia|done]. }
  intros H3. exists 3%nat. split; [lia|done].
Qed.

(** The keys one listing returns come from pages that were all read. *)
Lemma list_once_returns (c : S3.Client) (bucket prefix : string) (attempt : nat)
    (files : list string) (key : string) :
  S3.list_once c bucket prefix attempt = S3.Return files ->
  key ∈ files ->
  S3.page_error (S3.paginate c bucket prefix attempt) = None
  /\ (exists keys, Some keys ∈ S3.page_contents (S3.paginate c bucket prefix attempt)
                   /\ key ∈ keys)
  /\ S3.endswith key ".gz" = true.
Proof.
  unfold S3.list_once. destruct (S3.page_error _) as [[code|]|]; [| done |].
  - destruct (String.eqb code "NoSuchKey" || String.eqb code "404").
    + by intros [= <-] ?%elem_of_nil.
    + by destruct (String.eqb code "AccessDenied").
  - intros [= <-] [Hgz Hin]%list_elem_of_filter.
    split; [done|]. split; [|done].
    apply list_elem_of_In, in_concat in Hin as (keys & Hkeys & Hin).
    apply list_elem_of_In, list_elem_of_omap in Hkeys as (page & Hpage & Hsome).
    exists keys. split; [|by apply list_elem_of_In].
    simpl in Hsome. by subst page.
Qed.

Section Bucket.
Context `{Runtime}.
Variable c : S3.Client.

(** What the listing loop of a bucket job collects. *)
Lemma elem_of_list_bucket (s3_paths : list string) (f : string) :
  f ∈ @list_bucket (S3.storage c) s3_paths ->
  exists prefix attempt key,
    prefix ∈ s3_paths
    /\ (1 <= attempt <= 3)%nat
    /\ S3.page_error (S3.paginate c bucket_name prefix attempt) = None
    /\ (exists keys, Some keys ∈ S3.page_contents (S3.paginate c bucket_name prefix attempt)
                     /\ key ∈ keys)
    /\ S3.endswith key ".gz" = true
    /\ f = "s3://k8-customer-logs/" +:+ key.
Proof.
  unfold list_bucket. intros (prefix & Hprefix & Hin)%list_elem_of_In%in_flat_map.
  apply list_elem_of_In in Hprefix, Hin. simpl in Hin. unfold S3.list_s3_files in Hin.
  destruct (S3.retry _) as [files|] eqn:Hretry; simpl in Hin; [|by apply elem_of_nil in Hin].
  apply list_elem_of_fmap in Hin as (key & -> & Hkey).
  apply retry_returns in Hretry as (attempt & Hattempt & Hcall).
  destruct (list_once_returns c bucket_name prefix attempt files key Hcall Hkey)
    as (Herr & Hpage & Hgz).
  by exists prefix, attempt, key.
Qed.

(** X22: The files a bucket job adds to its ledger are archives that the
    bucket listed: each is [s3://k8-customer-logs/] followed by a key that
    ends in [.gz], that a listing gave which was read to its last page at
    one of its three attempts, for one of the hours of the request. *)
Theorem bucket_job_reads_listed_archives (job_id : string)
    (folder_path customer_folder start_datetime end_datetime : option string)
    (st st' : State) (f : string) :
  given folder_path = false ->
  @process_job _ (S3.storage c) job_id folder_path customer_folder start_datetime
    end_datetime st = (st', true) ->
  f ∈ ledger job_id (db st') ->
  f ∉ ledger job_id (db st) ->
  exists s e s3_paths prefix attempt key,
    start_datetime = Some s /\ end_datetime = Some e
    /\ generate_s3_paths (py_str customer_folder) s e = Paths s3_paths
    /\ prefix ∈ s3_paths
    /\ (1 <= attempt <= 3)%nat
    /\ S3.page_error (S3.paginate c bucket_name prefix attempt) = None
    /\ (exists keys, Some keys ∈ S3.page_contents (S3.paginate c bucket_name prefix attempt)
                     /\ key ∈ keys)
    /\ S3.endswith key ".gz" = true
    /\ f = "s3://k8-customer-logs/" +:+ key.
Proof.
  intros Hbucket Hrun Hnew Hold.
  destruct (@enumerate_files _ (S3.storage c) folder_path customer_folder start_datetime
              end_datetime) as [name| |log_files display is_bucket] eqn:Henum;
    [by unfold process_job in Hrun; rewrite Henum in Hrun..|].
  destruct (@process_job_progress _ (S3.storage c) job_id _ _ _ _ _ _ _ _ _ Henum Hrun)
    as (done & rest & Htodo & _ & _ & (_ & _ & Hmarkers & _) & _).
  rewrite elem_of_ledger in Hnew, Hold.
  apply Hmarkers in Hnew as [?|[_ Hdone]]; [done|].
  assert (Hin : f ∈ log_files).
  { assert (Hf : f ∈ filter (fun f => f ∉ ledger job_id (db st)) log_files).
    { rewrite Htodo. apply elem_of_app. by left. }
    by apply list_elem_of_filter in Hf as [_ ?]. }
  unfold enumerate_files in Henum. rewrite Hbucket in Henum.
  destruct (validate_customer_folder _) as [[|]|]; [|done..].
  destruct start_datetime as [s|]; [|done]. destruct end_datetime as [e|]; [|done].
  destruct (generate_s3_paths _ s e) as [s3_paths| |] eqn:Hpaths; [|done..].
  injection Henum as <- _ _.
  destruct (elem_of_list_bucket s3_paths f Hin) as (prefix & attempt & key & Hrest).
  by exists s, e, s3_paths, prefix, attempt, key.
Qed.

(** X23: An archive whose download stops short is recorded as processed:
    when the body ends on a corrupt archive, or on any other exception, as
    when it ends at its end, the rows of the lines that were read and could
    be decoded are written and the file is marked, so that no later task
    reads it again. *)
Theorem broken_archive_is_marked (job_id file_path key : string) (chunks : list S3.Chunk)
    (ending : S3.Ending) (st : State) :
  S3.get_object c bucket_name key = S3.Body chunks ending ->
  let lines := omap (fun ch => match ch with
                               | S3.Line text => Some text
                               | S3.Undecodable => None
                               end) chunks in
  all_bindable job_id file_path (parsed_items 0 lines) = true ->
  marker job_id file_path ∉ job_metadata (db st) ->
  let r := process_log_file file_path job_id (S3.stream_s3_log_file c bucket_name key) st in
  r.2 = true
  /\ file_done job_id file_path (db st) (parsed_items 0 lines) (db r.1).
Proof.
  intros Hbody lines Hbind Hfresh. unfold S3.stream_s3_log_file. rewrite Hbody. fold lines.
  destruct (process_log_file_spec file_path job_id lines false st)
    as (_ & _ & Hok & mids & _ & Hres).
  assert (Hok' : (process_log_file file_path job_id (lines, false) st).2 = true)
    by by apply Hok.
  simpl. split; [done|]. rewrite Hok' in Hres. by destruct Hres.
Qed.

(** X24: An object that cannot be got is recorded as processed too, unless
    the client says why: on [NoSuchKey], and on any exception that is not a
    [ClientError], the file is marked with no row written. *)
Theorem missing_object_is_marked (job_id file_path key : string) (e : S3.Exception)
    (st : State) :
  S3.get_object c bucket_name key = S3.NoObject e ->
  e = S3.ClientError "NoSuchKey" \/ e = S3.OtherException ->
  marker job_id file_path ∉ job_metadata (db st) ->
  let r := process_log_file file_path job_id (S3.stream_s3_log_file c bucket_name key) st in
  r.2 = true
  /\ db r.1 = set_job_metadata (fun md => md ∪ {[marker job_id file_path]}) (db st)
  /\ durable r.1 = db r.1 :: durable st.
Proof.
  intros Hnone He Hfresh. unfold S3.stream_s3_log_file. rewrite Hnone.
  assert (Hsource : match e with
                    | S3.ClientError code => ([], negb (String.eqb code "NoSuchKey"))
                    | S3.OtherException => ([], false)
                    end = ([] : list string, false)) by by destruct He as [->| ->].
  rewrite Hsource. unfold process_log_file. simpl.
  by destruct (decide _).
Qed.

End Bucket.

Lemma bucket_job_reads_listed_archives_witness :
  let st := Demo.job_on empty_db "acme_T0" "s3://k8-customer-logs/acme" RUNNING 0 0 [] in
  let bucket := S3.storage Samples.acme in
  let st' := (@process_job Py.runtime bucket "acme_T0" None (Some "acme")
                (Some "20240101-00") (Some "20240101-01") st).1 in
  let f := "s3://k8-customer-logs/acme/20240101-00/app.log.gz" in
  given None = false
  /\ f ∈ ledger "acme_T0" (db st')
  /\ (f ∉ ledger "acme_T0" (db st))
  /\ exists s e s3_paths prefix attempt key,
       Some "20240101-00" = Some s /\ Some "20240101-01" = Some e
       /\ generate_s3_paths (py_str (Some "acme")) s e = Paths s3_paths
       /\ prefix ∈ s3_paths
       /\ (1 <= attempt <= 3)%nat
       /\ S3.page_error (S3.paginate Samples.acme bucket_name prefix attempt) = None
       /\ (exists keys,
             Some keys ∈ S3.page_contents (S3.paginate Samples.acme bucket_name prefix attempt)
             /\ key ∈ keys)
       /\ S3.endswith key ".gz" = true
       /\ f = "s3://k8-customer-logs/" +:+ key.
Proof.
  intros st bucket st' f.
  pose proof (surjective_pairing (@process_job Py.runtime bucket "acme_T0" None (Some "acme")
                                    (Some "20240101-00") (Some "20240101-01") st)) as Hrun.
  assert (Hok : (@process_job Py.runtime bucket "acme_T0" None (Some "acme")
                   (Some "20240101-00") (Some "20240101-01") st).2 = true) by by_running.
  rewrite Hok in Hrun.
  assert (Hnew : f ∈ ledger "acme_T0" (db st')).
  { refine (bool_decide_unpack _ _). vm_compute. exact I. }
  assert (Hold : f ∉ ledger "acme_T0" (db st)).
  { refine (bool_decide_unpack _ _). vm_compute. exact I. }
  split; [reflexivity|]. split; [exact Hnew|]. split; [exact Hold|].
  exact (@bucket_job_reads_listed_archives Py.runtime Samples.acme "acme_T0" None
           (Some "acme") (Some "20240101-00") (Some "20240101-01") st st' f
           eq_refl Hrun Hnew Hold).
Defined.

Lemma broken_archive_is_marked_witness :
  let st := Demo.job_on empty_db "acme_T0" "s3://k8-customer-logs/acme" RUNNING 0 0 [] in
  let key := "acme/20240101-00/app.log.gz" in
  let file_path := "s3://k8-customer-logs/acme/20240101-00/app.log.gz" in
  let chunks := [S3.Line Demo.plain_line; S3.Undecodable; S3.Line Demo.plain_line] in
  let lines := [Demo.plain_line; Demo.plain_line] in
  S3.get_object Samples.acme bucket_name key = S3.Body chunks S3.BadGzipFile
  /\ all_bindable "acme_T0" file_path (parsed_items 0 lines) = true
  /\ (marker "acme_T0" file_path ∉ job_metadata (db st))
  /\ let r := process_log_file file_path "acme_T0"
                (S3.stream_s3_log_file Samples.acme bucket_name key) st in
     r.2 = true
     /\ file_done "acme_T0" file_path (db st) (parsed_items 0 lines) (db r.1).
Proof.
  intros st key file_path chunks lines.
  assert (Hbody : S3.get_object Samples.acme bucket_name key = S3.Body chunks S3.BadGzipFile)
    by reflexivity.
  assert (Hbind : all_bindable "acme_T0" file_path (parsed_items 0 lines) = true)
    by by_running.
  assert (Hfresh : marker "acme_T0" file_path ∉ job_metadata (db st)).
  { refine (bool_decide_unpack _ _). vm_compute. exact I. }
  split; [exact Hbody|]. split; [exact Hbind|]. split; [exact Hfresh|].
  exact (@broken_archive_is_marked Py.runtime Samples.acme "acme_T0" file_path key chunks
           S3.BadGzipFile st Hbody Hbind Hfresh).
Defined.

Lemma missing_object_is_marked_witness :
  let st := Demo.job_on empty_db "acme_T0" "s3://k8-customer-logs/acme" RUNNING 0 0 [] in
  let key := "acme/20240101-00/gone.log.gz" in
  let file_path := "s3://k8-customer-logs/acme/20240101-00/gone.log.gz" in
  S3.get_object Samples.acme bucket_name key = S3.NoObject (S3.ClientError "NoSuchKey")
  /\ (marker "acme_T0" file_path ∉ job_metadata (db st))
  /\ let r := process_log_file file_path "acme_T0"
                (S3.stream_s3_log_file Samples.acme bucket_name key) st in
     r.2 = true
     /\ db r.1 = set_job_metadata (fun md => md ∪ {[marker "acme_T0" file_path]}) (db st)
     /\ durable r.1 = db r.1 :: durable st.
Proof.
  intros st key file_path.
  assert (Hnone : S3.get_object Samples.acme bucket_name key
                  = S3.NoObject (S3.ClientError "NoSuchKey")) by reflexivity.
  assert (Hfresh : marker "acme_T0" file_path ∉ job_metadata (db st)).
  { refine (bool_decide_unpack _ _). vm_compute. exact I. }
  split; [exact Hnone|]. split; [exact Hfresh|].
  exact (@missing_object_is_marked Py.runtime Samples.acme "acme_T0" file_path key
           (S3.ClientError "NoSuchKey") st Hnone (or_introl eq_refl) Hfresh).
Defined.
